(** * SparkLogAnalyzer: connection extraction and trust classification

    A shallow embedding of [src/Fabric/SparkHistoryLogs/analyzeLogs.py]
    (class [SparkLogAnalyzer]) together with the parts of the Python
    standard library the class relies on: [str] methods, the backtracking
    matcher of [re] for the pattern catalogue of the class, and the netloc
    splitting of [urllib.parse.urlparse].

    Text is modelled by [string], i.e. sequences of 8-bit characters.  The
    ASCII range follows Python exactly; characters above 127 are treated as
    caseless, non-digit, non-space symbols. *)

From Stdlib Require Import String Ascii List Bool Arith Lia Sorted.
Import ListNotations.
Open Scope string_scope.
Open Scope list_scope.
Open Scope nat_scope.

(** ** Exceptions and the result monad

    [exn] lists the exceptions (all subclasses of [Exception]) that the
    modelled code can meet; [sys.exit] is a separate outcome of the one
    method that calls it. *)

Inductive exn : Type :=
| ValueError (msg : string)
| IndexError
| TypeError
| AttributeError
| OSError (msg : string).

(** [str(e)] for a caught exception. *)
Definition str_exn (e : exn) : string :=
  match e with
  | ValueError m => m
  | IndexError => "list index out of range"
  | TypeError => "TypeError"
  | AttributeError => "AttributeError"
  | OSError m => m
  end.

Inductive result (A : Type) : Type :=
| Ok (a : A)
| Raise (e : exn).
Arguments Ok {A} a.
Arguments Raise {A} e.

Definition bind {A B} (m : result A) (f : A -> result B) : result B :=
  match m with
  | Ok a => f a
  | Raise e => Raise e
  end.

Notation "x <- m ;; k" := (bind m (fun x => k))
  (at level 61, m at next level, right associativity).

(** ** Python [str] operations *)

Module PyStr.

Definition LF : ascii := "010"%char.
Definition TAB : ascii := "009"%char.
Definition CR : ascii := "013"%char.

Definition code (c : ascii) : nat := nat_of_ascii c.

Definition in_range (lo hi c : ascii) : bool :=
  (code lo <=? code c) && (code c <=? code hi).

Definition is_upper (c : ascii) : bool := in_range "A" "Z" c.
Definition is_lower (c : ascii) : bool := in_range "a" "z" c.
Definition is_digit (c : ascii) : bool := in_range "0" "9" c.
Definition is_alpha (c : ascii) : bool := is_upper c || is_lower c.
Definition is_ascii (c : ascii) : bool := code c <? 128.

(** [str.isspace] on one character: TAB, LF, VT, FF, CR, FS, GS, RS, US and
    the blank. *)
Definition is_space (c : ascii) : bool :=
  ((9 <=? code c) && (code c <=? 13)) ||
  ((28 <=? code c) && (code c <=? 32)).

Definition to_lower (c : ascii) : ascii :=
  if is_upper c then ascii_of_nat (code c + 32) else c.

Definition to_upper (c : ascii) : ascii :=
  if is_lower c then ascii_of_nat (code c - 32) else c.

Fixpoint lower (s : string) : string :=
  match s with
  | "" => ""
  | String c s' => String (to_lower c) (lower s')
  end.

(** [c in chars] for a character. *)
Fixpoint mem (c : ascii) (chars : string) : bool :=
  match chars with
  | "" => false
  | String x r => Ascii.eqb c x || mem c r
  end.

Fixpoint forallb (p : ascii -> bool) (s : string) : bool :=
  match s with
  | "" => true
  | String c s' => p c && forallb p s'
  end.

Definition startswith (s pre : string) : bool := prefix pre s.

(** [s.endswith(suf)]: [s] is [suf], or its tail ends with [suf]. *)
Fixpoint endswith (s suf : string) : bool :=
  (s =? suf)%string ||
  match s with
  | "" => false
  | String _ s' => endswith s' suf
  end.

(** [needle in s]. *)
Fixpoint contains (needle s : string) : bool :=
  prefix needle s ||
  match s with
  | "" => false
  | String _ s' => contains needle s'
  end.

(** [s.find(needle)], [None] standing for -1. *)
Fixpoint find (needle s : string) : option nat :=
  if prefix needle s then Some 0
  else match s with
       | "" => None
       | String _ s' => option_map S (find needle s')
       end.

(** [s.lstrip(chars)], [s.rstrip(chars)] and [s.strip(chars)], the set of
    characters given by its membership test. *)
Fixpoint lstrip (p : ascii -> bool) (s : string) : string :=
  match s with
  | "" => ""
  | String c s' => if p c then lstrip p s' else s
  end.

Fixpoint rstrip (p : ascii -> bool) (s : string) : string :=
  match s with
  | "" => ""
  | String c s' =>
      match rstrip p s' with
      | "" => if p c then "" else String c ""
      | r => String c r
      end
  end.

Definition strip (p : ascii -> bool) (s : string) : string :=
  rstrip p (lstrip p s).

Definition strip_chars (chars s : string) : string :=
  strip (fun c => mem c chars) s.

(** [s.strip()] with no argument strips white space. *)
Definition strip_ws (s : string) : string := strip is_space s.

(** The scanning functions below walk the string once; [skip] counts the
    characters of an occurrence of the separator still to be passed over,
    which makes occurrences non-overlapping and taken from the left, as in
    Python.  The separator is never empty in this program. *)

Fixpoint count_from (sub s : string) (skip : nat) : nat :=
  match s with
  | "" => 0
  | String _ s' =>
      match skip with
      | S k => count_from sub s' k
      | 0 => if prefix sub s
             then S (count_from sub s' (String.length sub - 1))
             else count_from sub s' 0
      end
  end.

Definition count (sub s : string) : nat := count_from sub s 0.

Fixpoint replace_from (old new s : string) (skip : nat) : string :=
  match s with
  | "" => ""
  | String c s' =>
      match skip with
      | S k => replace_from old new s' k
      | 0 => if prefix old s
             then (new ++ replace_from old new s' (String.length old - 1))%string
             else String c (replace_from old new s' 0)
      end
  end.

Definition replace (old new s : string) : string := replace_from old new s 0.

Fixpoint split_from (sep s : string) (skip : nat) : list string :=
  match s with
  | "" => [""]
  | String c s' =>
      match skip with
      | S k => split_from sep s' k
      | 0 => if prefix sep s
             then "" :: split_from sep s' (String.length sep - 1)
             else match split_from sep s' 0 with
                  | piece :: rest => String c piece :: rest
                  | [] => [String c ""]
                  end
      end
  end.

Definition split (sep s : string) : list string := split_from sep s 0.

(** [s.partition(c)] and [s.rpartition(c)] for a one-character separator;
    the middle component says whether the separator was found. *)
Fixpoint partition (c : ascii) (s : string) : string * bool * string :=
  match s with
  | "" => ("", false, "")
  | String x s' =>
      if Ascii.eqb x c then ("", true, s')
      else let '(b, f, a) := partition c s' in (String x b, f, a)
  end.

Fixpoint rpartition (c : ascii) (s : string) : string * bool * string :=
  match s with
  | "" => ("", false, "")
  | String x s' =>
      let '(b, f, a) := rpartition c s' in
      if f then (String x b, true, a)
      else if Ascii.eqb x c then ("", true, s')
           else ("", false, s)
  end.

(** List indexing [l[0]] and [l[-1]], raising [IndexError] on an empty
    list. *)
Definition item_first {A} (l : list A) : result A :=
  match l with
  | x :: _ => Ok x
  | [] => Raise IndexError
  end.

Fixpoint item_last {A} (l : list A) : result A :=
  match l with
  | [] => Raise IndexError
  | [x] => Ok x
  | _ :: r => item_last r
  end.

End PyStr.

(** ** Python [re]: patterns and the backtracking matcher *)

Module Re.
Import PyStr.

(** Members of a bracketed set. *)
Inductive citem : Type :=
| ILit (c : ascii)
| IRange (lo hi : ascii)
| IDigit
| ISpace.

(** One-character atoms: a literal, [.], [\d], or a (negated) set. *)
Inductive cclass : Type :=
| CLit (c : ascii)
| CAny
| CDigit
| CSet (negated : bool) (items : list citem).

Inductive regex : Type :=
| REps
| RChar (c : cclass)
| RRep (greedy : bool) (lo : nat) (hi : option nat) (c : cclass)
| RSeq (r1 r2 : regex)
| RAlt (r1 r2 : regex)
| ROpt (r : regex)
| RGroup (n : nat) (r : regex)
| RBol
| REol.

Definition item_match (i : citem) (x : ascii) : bool :=
  match i with
  | ILit c => Ascii.eqb x c
  | IRange lo hi => in_range lo hi x
  | IDigit => is_digit x
  | ISpace => is_space x
  end.

Definition set_match (items : list citem) (x : ascii) : bool :=
  existsb (fun i => item_match i x) items.

(** [ic] is the IGNORECASE flag: a literal is compared after lowering, and a
    set is entered by the character or by one of its case variants. *)
Definition cls_match (ic : bool) (c : cclass) (x : ascii) : bool :=
  match c with
  | CLit l => if ic then Ascii.eqb (to_lower x) (to_lower l) else Ascii.eqb x l
  | CAny => negb (Ascii.eqb x LF)
  | CDigit => is_digit x
  | CSet neg items =>
      xorb neg
        (set_match items x ||
         (ic && (set_match items (to_lower x) || set_match items (to_upper x))))
  end.

(** Captured groups, latest binding first. *)
Definition caps : Type := list (nat * string).

Fixpoint lookup (n : nat) (cs : caps) : option string :=
  match cs with
  | [] => None
  | (m, s) :: r => if Nat.eqb m n then Some s else lookup n r
  end.

(** Repetition of a one-character atom, [c{lo,hi}] or [c{lo,hi}?].  The
    greedy form takes a character whenever it can and gives it back when
    the rest of the pattern fails; the lazy form tries the rest first. *)
Fixpoint rep_match (p : ascii -> bool) (greedy : bool) (lo : nat)
    (hi : option nat) (k : nat -> string -> option caps)
    (pos : nat) (s : string) {struct s} : option caps :=
  if greedy then
    match
      match hi, s with
      | Some 0, _ => None
      | _, String x s' =>
          if p x then rep_match p greedy (pred lo) (option_map pred hi) k (S pos) s'
          else None
      | _, "" => None
      end
    with
    | Some m => Some m
    | None => if Nat.eqb lo 0 then k pos s else None
    end
  else
    match (if Nat.eqb lo 0 then k pos s else None) with
    | Some m => Some m
    | None =>
        match hi, s with
        | Some 0, _ => None
        | _, String x s' =>
            if p x then rep_match p greedy (pred lo) (option_map pred hi) k (S pos) s'
            else None
        | _, "" => None
        end
    end.

(** The matcher in continuation-passing style: [k] is the rest of the
    pattern, [pos] the offset of [s] in the subject. *)
Fixpoint rmatch (ic : bool) (r : regex)
    (k : nat -> string -> caps -> option caps)
    (pos : nat) (s : string) (cs : caps) {struct r} : option caps :=
  match r with
  | REps => k pos s cs
  | RChar c =>
      match s with
      | String x s' => if cls_match ic c x then k (S pos) s' cs else None
      | "" => None
      end
  | RRep g lo hi c =>
      rep_match (cls_match ic c) g lo hi (fun pos' s' => k pos' s' cs) pos s
  | RSeq r1 r2 => rmatch ic r1 (rmatch ic r2 k) pos s cs
  | RAlt r1 r2 =>
      match rmatch ic r1 k pos s cs with
      | Some m => Some m
      | None => rmatch ic r2 k pos s cs
      end
  | ROpt r1 =>
      match rmatch ic r1 k pos s cs with
      | Some m => Some m
      | None => k pos s cs
      end
  | RGroup n r1 =>
      rmatch ic r1
        (fun pos' s' cs' => k pos' s' ((n, substring 0 (pos' - pos) s) :: cs'))
        pos s cs
  | RBol => if Nat.eqb pos 0 then k pos s cs else None
  | REol =>
      if (s =? "")%string || (s =? String LF "")%string then k pos s cs else None
  end.

Definition accept : nat -> string -> caps -> option caps :=
  fun _ _ cs => Some cs.

(** [re.match]: the pattern is tried at offset 0 only. *)
Definition match_at_start (ic : bool) (r : regex) (s : string) : option caps :=
  rmatch ic r accept 0 s [].

(** [re.search]: the leftmost offset at which the pattern matches. *)
Fixpoint search_from (ic : bool) (r : regex) (pos : nat) (s : string)
  : option caps :=
  match rmatch ic r accept pos s [] with
  | Some m => Some m
  | None =>
      match s with
      | String _ s' => search_from ic r (S pos) s'
      | "" => None
      end
  end.

Fixpoint ngroups (r : regex) : nat :=
  match r with
  | RSeq r1 r2 | RAlt r1 r2 => Nat.max (ngroups r1) (ngroups r2)
  | ROpt r1 => ngroups r1
  | RGroup n r1 => Nat.max n (ngroups r1)
  | _ => 0
  end.

(** A compiled pattern: its source text ([pattern.pattern]), whether it was
    compiled with [re.IGNORECASE], and its syntax tree. *)
Record pattern : Type := mkPattern {
  source : string;
  ignorecase : bool;
  tree : regex
}.

(** A match object: only its groups are consulted. *)
Record rematch : Type := mkMatch {
  m_caps : caps;
  m_ngroups : nat
}.

Definition search (p : pattern) (s : string) : option rematch :=
  match search_from (ignorecase p) (tree p) 0 s with
  | Some cs => Some (mkMatch cs (ngroups (tree p)))
  | None => None
  end.

(** [re.match(pattern, s)] used as a truth value. *)
Definition matches (ic : bool) (r : regex) (s : string) : bool :=
  match match_at_start ic r s with
  | Some _ => true
  | None => false
  end.

(** [re.search(pattern, s)] used as a truth value. *)
Definition found (ic : bool) (r : regex) (s : string) : bool :=
  match search_from ic r 0 s with
  | Some _ => true
  | None => false
  end.

(** [m.group(n)]; [None] when the group took no part in the match. *)
Definition group (m : rematch) (n : nat) : option string := lookup n (m_caps m).

(** Building blocks for writing the catalogue. *)
Fixpoint lit (s : string) : regex :=
  match s with
  | "" => REps
  | String c "" => RChar (CLit c)
  | String c s' => RSeq (RChar (CLit c)) (lit s')
  end.

Fixpoint cat (rs : list regex) : regex :=
  match rs with
  | [] => REps
  | [r] => r
  | r :: rest => RSeq r (cat rest)
  end.

Definition plus (c : cclass) : regex := RRep true 1 None c.
Definition star_lazy (c : cclass) : regex := RRep false 0 None c.
Definition opt_char (c : cclass) : regex := RRep true 0 (Some 1) c.
Definition exactly (n : nat) (c : cclass) : regex := RRep true n (Some n) c.
Definition between (lo hi : nat) (c : cclass) : regex := RRep true lo (Some hi) c.

Definition not_of (items : list citem) : cclass := CSet true items.
Definition one_of (items : list citem) : cclass := CSet false items.

End Re.

(** ** [urllib.parse.urlparse]: scheme and netloc *)

Module Urllib.
Import PyStr.

(** [urlsplit] validates a bracketed host with [ipaddress] and a non-ASCII
    netloc with NFKC normalisation.  Neither is modelled; the two verdicts
    are taken as given, and everything below holds whatever they are. *)
Class UrlChecks : Type := {
  bracketed_host_ok : string -> bool;
  nfkc_netloc_ok : string -> bool
}.

(** The fields of [ParseResult] the analyzer consults. *)
Record ParseResult : Type := mkParseResult {
  scheme : string;
  netloc : string
}.

Fixpoint drop (n : nat) (s : string) : string :=
  match n, s with
  | 0, _ => s
  | S k, String _ s' => drop k s'
  | S _, "" => ""
  end.

(** [s.find(needle, start)]. *)
Definition find_from (needle : string) (start : nat) (s : string) : option nat :=
  if start <=? String.length s
  then option_map (Nat.add start) (find needle (drop start s))
  else None.

Definition scheme_chars : string :=
  "abcdefghijklmnopqrstuvwxyzABCDEFGHIJKLMNOPQRSTUVWXYZ0123456789+-.".

(** Membership in [_WHATWG_C0_CONTROL_OR_SPACE]. *)
Definition is_c0_control_or_space (c : ascii) : bool := code c <=? 32.

(** Membership in [_UNSAFE_URL_BYTES_TO_REMOVE]. *)
Definition is_unsafe_url_byte (c : ascii) : bool :=
  Ascii.eqb c TAB || Ascii.eqb c CR || Ascii.eqb c LF.

Fixpoint remove_chars (p : ascii -> bool) (s : string) : string :=
  match s with
  | "" => ""
  | String c s' => if p c then remove_chars p s' else String c (remove_chars p s')
  end.

Definition _splitnetloc (url : string) (start : nat) : string * string :=
  let delim :=
    fold_left
      (fun delim c =>
         match find_from c start url with
         | Some wdelim => Nat.min delim wdelim
         | None => delim
         end)
      ["/"; "?"; "#"] (String.length url) in
  (substring start (delim - start) url, drop delim url).

Section Urlparse.
Context {checks : UrlChecks}.

Definition _check_bracketed_host (hostname : string) : result unit :=
  if bracketed_host_ok hostname then Ok tt
  else Raise (ValueError "Invalid IPv6 URL").

Definition _check_bracketed_netloc (netloc : string) : result unit :=
  let '(_, _, hostname_and_port) := rpartition "@" netloc in
  let '(before_bracket, have_open_br, bracketed) := partition "[" hostname_and_port in
  if have_open_br then
    if negb (before_bracket =? "")%string then Raise (ValueError "Invalid IPv6 URL")
    else
      let '(hostname, _, port) := partition "]" bracketed in
      if negb (port =? "")%string && negb (startswith port ":")
      then Raise (ValueError "Invalid IPv6 URL")
      else _check_bracketed_host hostname
  else
    let '(hostname, _, _) := partition ":" hostname_and_port in
    _check_bracketed_host hostname.

Definition _checknetloc (netloc : string) : result unit :=
  if (netloc =? "")%string || forallb is_ascii netloc then Ok tt
  else if nfkc_netloc_ok netloc then Ok tt
       else Raise (ValueError "netloc contains invalid characters under NFKC normalization").

(** [urlsplit], as far as the scheme and the netloc go; the path, query and
    fragment are split off the rest of the URL and never raise. *)
Definition urlsplit (url : string) : result ParseResult :=
  let url := lstrip is_c0_control_or_space url in
  let url := remove_chars is_unsafe_url_byte url in
  let '(scheme, url) :=
    match find ":" url, url with
    | Some (S i), String c0 _ =>
        if is_ascii c0 && is_alpha c0 &&
           forallb (fun c => mem c scheme_chars) (substring 0 (S i) url)
        then (lower (substring 0 (S i) url), drop (S (S i)) url)
        else ("", url)
    | _, _ => ("", url)
    end in
  if (substring 0 2 url =? "//")%string then
    let '(netloc, _) := _splitnetloc url 2 in
    if (contains "[" netloc && negb (contains "]" netloc)) ||
       (contains "]" netloc && negb (contains "[" netloc))
    then Raise (ValueError "Invalid IPv6 URL")
    else
      _ <- (if contains "[" netloc && contains "]" netloc
            then _check_bracketed_netloc netloc else Ok tt) ;;
      _ <- _checknetloc netloc ;;
      Ok (mkParseResult scheme netloc)
  else
    _ <- _checknetloc "" ;;
    Ok (mkParseResult scheme "").

(** [urlparse] only adds the split of the path parameters to [urlsplit]. *)
Definition urlparse (url : string) : result ParseResult := urlsplit url.

End Urlparse.

(** The [hostname] property; [None] is Python's [None]. *)
Definition hostname (parsed : ParseResult) : option string :=
  let '(_, _, hostinfo) := rpartition "@" (netloc parsed) in
  let '(_, have_open_br, bracketed) := partition "[" hostinfo in
  let hostname :=
    if have_open_br then fst (fst (partition "]" bracketed))
    else fst (fst (partition ":" hostinfo)) in
  if (hostname =? "")%string then None
  else
    let '(hostname, percent, zone) := partition "%" hostname in
    Some (lower hostname ++ (if percent then "%" else "") ++ zone)%string.

End Urllib.

(** ** [class SparkLogAnalyzer] *)

Module SparkLogAnalyzer.
Import PyStr Re Urllib.

Definition DQUOTE : ascii := "034"%char.

(** Character classes of the catalogue. *)
Definition non_space : cclass := not_of [ISpace].
Definition host_chars : cclass := not_of [ISpace; ILit ":"].
Definition colon_or_space : cclass := one_of [ILit ":"; ISpace].
Definition alnum : cclass := one_of [IRange "a" "z"; IRange "A" "Z"; IRange "0" "9"].
Definition lower_hex : cclass := one_of [IRange "a" "f"; IRange "0" "9"].
Definition lower_alnum : cclass := one_of [IRange "a" "z"; IRange "0" "9"].
Definition not_newline : cclass := not_of [ILit LF].

(** [host:port] with both groups, [([^\s:]+):(\d+)]. *)
Definition host_port (host : cclass) : regex :=
  cat [RGroup 1 (plus host); lit ":"; RGroup 2 (plus CDigit)].

(** [([^\s:]+):?(\d+)?] *)
Definition host_opt_port : regex :=
  cat [RGroup 1 (plus host_chars); opt_char (CLit ":"); ROpt (RGroup 2 (plus CDigit))].

(** [([a-zA-Z0-9]+)\.<service>\.core\.windows\.net] *)
Definition storage_suffix (service : string) : regex :=
  cat [RGroup 1 (plus alnum); lit ("." ++ service ++ ".core.windows.net")].

Definition compile (src : string) (r : regex) : pattern := mkPattern src true r.

(** [CONNECTION_PATTERNS], compiled with [re.IGNORECASE]. *)
Definition CONNECTION_PATTERNS : list pattern := [
  compile "jdbc:.*?://([^:]+):(\d+)"
    (cat [lit "jdbc:"; star_lazy CAny; lit "://";
          RGroup 1 (plus (not_of [ILit ":"])); lit ":"; RGroup 2 (plus CDigit)]);
  compile "https?://([^\s:]+):?(\d+)?"
    (cat [lit "http"; opt_char (CLit "s"); lit "://"; host_opt_port]);
  compile "connecting to ([^\s]+):(\d+)"
    (cat [lit "connecting to "; host_port non_space]);
  compile "established connection to ([^\s]+):(\d+)"
    (cat [lit "established connection to "; host_port non_space]);
  compile "remote address[:\s]+([^\s:]+):(\d+)"
    (cat [lit "remote address"; plus colon_or_space; host_port host_chars]);
  compile "destination[:\s]+([^\s:]+):(\d+)"
    (cat [lit "destination"; plus colon_or_space; host_port host_chars]);
  compile "target[:\s]+([^\s:]+):(\d+)"
    (cat [lit "target"; plus colon_or_space; host_port host_chars]);
  compile "s3[a]?://([^\s/]+)"
    (cat [lit "s3"; opt_char (one_of [ILit "a"]); lit "://";
          RGroup 1 (plus (not_of [ISpace; ILit "/"]))]);
  compile "wasbs?://([^\s@]+)@([^\s.]+)"
    (cat [lit "wasb"; opt_char (CLit "s"); lit "://";
          RGroup 1 (plus (not_of [ISpace; ILit "@"])); lit "@";
          RGroup 2 (plus (not_of [ISpace; ILit "."]))]);
  compile "gs://([^\s/]+)"
    (cat [lit "gs://"; RGroup 1 (plus (not_of [ISpace; ILit "/"]))]);
  compile "mongodb://([^\s:]+):?(\d+)?"
    (cat [lit "mongodb://"; host_opt_port]);
  compile "kafka[:\s]+([^\s:]+):(\d+)"
    (cat [lit "kafka"; plus colon_or_space; host_port host_chars]);
  compile "ftp://([^\s:]+):?(\d+)?"
    (cat [lit "ftp://"; host_opt_port]);
  compile "sftp://([^\s:]+):?(\d+)?"
    (cat [lit "sftp://"; host_opt_port]);
  compile "([a-zA-Z0-9]+)\.dfs\.core\.windows\.net" (storage_suffix "dfs");
  compile "([a-zA-Z0-9]+)\.blob\.core\.windows\.net" (storage_suffix "blob");
  compile "([a-zA-Z0-9]+)\.table\.core\.windows\.net" (storage_suffix "table");
  compile "([a-zA-Z0-9]+)\.queue\.core\.windows\.net" (storage_suffix "queue");
  compile "abfss?://[^@]+@([^\s.]+)\.dfs\.core\.windows\.net"
    (cat [lit "abfs"; opt_char (CLit "s"); lit "://"; plus (not_of [ILit "@"]);
          lit "@"; RGroup 1 (plus (not_of [ISpace; ILit "."]));
          lit ".dfs.core.windows.net"])
].

Definition DEFAULT_TRUSTED_DOMAINS : list string := [
  "pbidedicated.windows.net";
  "analysis.windows.net";
  "api.fabric.microsoft.com";
  "exec.eastus.notebook.windows.net";
  "exec.westus.notebook.windows.net";
  "exec.northeurope.notebook.windows.net";
  "exec.westeurope.notebook.windows.net";
  "onelake.dfs.fabric.microsoft.com";
  "sparkui.fabric.microsoft.com";
  "storage.azure.com";
  "tokenservice1.eastus.trident.azuresynapse.net";
  "tokenservice1.westus.trident.azuresynapse.net";
  "tokenservice1.northeurope.trident.azuresynapse.net";
  "tokenservice1.westeurope.trident.azuresynapse.net";
  "operation-service";
  "vm-";
  "localhost";
  "127.0.0.1";
  "::1"
].

(** [PIP_PATTERNS] *)
Definition PIP_PATTERNS : list pattern := [
  compile "pip install ([^\s]+)"
    (cat [lit "pip install "; RGroup 1 (plus non_space)]);
  compile "pip3 install ([^\s]+)"
    (cat [lit "pip3 install "; RGroup 1 (plus non_space)]);
  compile "python -m pip install ([^\s]+)"
    (cat [lit "python -m pip install "; RGroup 1 (plus non_space)]);
  compile "python3 -m pip install ([^\s]+)"
    (cat [lit "python3 -m pip install "; RGroup 1 (plus non_space)]);
  compile "Installing collected packages: ([^\n]+)"
    (cat [lit "Installing collected packages: "; RGroup 1 (plus not_newline)]);
  compile "Successfully installed ([^\n]+)"
    (cat [lit "Successfully installed "; RGroup 1 (plus not_newline)])
].

(** [LOGGING_PATTERNS] *)
Definition LOGGING_PATTERNS : list pattern := [
  compile "log4j|logging\.(?:disable|off|level)"
    (RAlt (lit "log4j")
          (RSeq (lit "logging.")
                (RAlt (lit "disable") (RAlt (lit "off") (lit "level")))));
  compile "rootLogger|logger\.level"
    (RAlt (lit "rootLogger") (lit "logger.level"));
  compile "spark\.sql\.adaptive\.logLevel" (lit "spark.sql.adaptive.logLevel");
  compile "spark\.log\.level" (lit "spark.log.level")
].

(** The 8-4-4-4-12 body shared by [uuid_pattern] and [abfs_pattern]. *)
Definition uuid_body : regex :=
  cat [exactly 8 lower_hex; lit "-"; exactly 4 lower_hex; lit "-";
       exactly 4 lower_hex; lit "-"; exactly 4 lower_hex; lit "-";
       exactly 12 lower_hex].

(** [^[a-f0-9]{8}-[a-f0-9]{4}-[a-f0-9]{4}-[a-f0-9]{4}-[a-f0-9]{12}$] *)
Definition uuid_pattern : regex := cat [RBol; uuid_body; REol].

(** [^spark\d+triprodeus$] *)
Definition spark_host_pattern : regex :=
  cat [RBol; lit "spark"; plus CDigit; lit "triprodeus"; REol].

(** [^[a-z0-9]{20,22}$] *)
Definition temp_storage_pattern : regex :=
  cat [RBol; between 20 22 lower_alnum; REol].

(** [abfss?://(<uuid>)@[a-zA-Z0-9]+\.dfs\.core\.windows\.net] *)
Definition abfs_pattern : regex :=
  cat [lit "abfs"; opt_char (CLit "s"); lit "://"; RGroup 1 uuid_body; lit "@";
       plus alnum; lit ".dfs.core.windows.net"].

Definition common_words : list string :=
  ["dev"; "prod"; "test"; "msft"; "east"; "west"; "central"; "stage"; "stag"].

(** The argument of the first [strip]: blank, comma, parentheses, both
    quotes; the final [strip] adds the dot. *)
Definition punctuation : string :=
  String " " (String "," (String "(" (String ")" (String DQUOTE (String "'" ""))))).

Definition punctuation_dot : string := (punctuation ++ ".")%string.

(** [a or b] on an optional string: [None] and the empty string are false. *)
Definition truthy (o : option string) : option string :=
  match o with
  | Some "" | None => None
  | Some s => Some s
  end.

Section Classifier.
Context {checks : UrlChecks}.

(** The [try] block of [_extract_hostname]: [Some h] is the value returned
    from inside it, [None] means that the bare [except] swallowed an
    exception and control falls through to the manual extraction. *)
Definition hostname_via_urlparse (host_input : string) : option string :=
  match
    parsed <- urlparse host_input ;;
    match truthy (hostname parsed) with
    | Some h => Ok h
    | None => item_first (split ":" (netloc parsed))
    end
  with
  | Ok h => Some h
  | Raise _ => None
  end.

Definition _extract_hostname (host_input : string) : result string :=
  if (host_input =? "")%string then Ok ""
  else
    let host_input := strip_chars punctuation host_input in
    match
      (if contains "://" host_input then hostname_via_urlparse host_input else None)
    with
    | Some h => Ok h
    | None =>
        host_input <- (if contains "/" host_input
                       then item_first (split "/" host_input)
                       else Ok host_input) ;;
        host_input <- (if contains "?" host_input
                       then item_first (split "?" host_input)
                       else Ok host_input) ;;
        host_input <- (if contains ":" host_input && negb (1 <? count ":" host_input)
                       then item_first (split ":" host_input)
                       else Ok host_input) ;;
        Ok (strip_chars punctuation_dot host_input)
    end.

(** The loop over [self.trusted_domains]. *)
Fixpoint trusted_domain_match (host_lower : string) (trusted_domains : list string)
  : bool :=
  match trusted_domains with
  | [] => false
  | trusted_domain :: rest =>
      let trusted_lower := lower trusted_domain in
      if (host_lower =? trusted_lower)%string then true
      else if endswith host_lower ("." ++ trusted_lower)
              || endswith host_lower trusted_lower then true
      else if endswith trusted_lower "-" && startswith host_lower trusted_lower
           then true
      else trusted_domain_match host_lower rest
  end.

(** The workspace check at the head of [is_trusted_host]. *)
Definition workspace_container_check (host_lower : string) : result bool :=
  if contains ".dfs.core.windows.net" host_lower && contains "@" host_lower then
    container_part <- item_first (split "@" host_lower) ;;
    hostname_part <- item_last (split "@" host_lower) ;;
    let clean_container :=
      replace "abfs://" "" (replace "abfss://" "" container_part) in
    Ok (matches false uuid_pattern clean_container)
  else Ok false.

Definition is_trusted_host (trusted_domains : list string) (host : string)
  : result bool :=
  actual_host <- _extract_hostname host ;;
  if (actual_host =? "")%string then Ok false
  else
    let host_lower := lower actual_host in
    workspace <- workspace_container_check host_lower ;;
    if workspace then Ok true
    else
      let hostname_base :=
        if contains ".dfs.core.windows.net" host_lower
        then replace ".dfs.core.windows.net" "" host_lower
        else host_lower in
      if matches false spark_host_pattern hostname_base then Ok true
      else if (20 <=? String.length hostname_base)
              && matches false temp_storage_pattern hostname_base
              && negb (existsb (fun word => contains word hostname_base) common_words)
           then Ok true
      else Ok (trusted_domain_match host_lower trusted_domains).

End Classifier.

(** *** Per-file analysis *)

(** A [connection_info] dict; [None] is Python's [None]. *)
Record connection_info : Type := mkConnection {
  line_number : nat;
  host : option string;
  port : option string;
  raw_line : string;
  pattern_matched : string
}.

Record pip_info : Type := mkPip {
  pip_line_number : nat;
  package : option string;
  pip_raw_line : string;
  pip_pattern_matched : string
}.

Record logging_info : Type := mkLogging {
  logging_line_number : nat;
  logging_raw_line : string;
  logging_pattern_matched : string
}.

(** The [result] dict of [analyze_single_log_file]; [error = None] means
    that the key ['error'] is absent. *)
Record analysis : Type := mkAnalysis {
  log_file : string;
  connections : list connection_info;
  external_connections : list connection_info;
  trusted_connections : list connection_info;
  pip_installs : list pip_info;
  logging_config : list logging_info;
  file_exists : bool;
  file_size : nat;
  error : option string
}.

(** What the operating system answers for an existing path:
    [os.path.getsize], and [open] followed by the iteration over the lines.
    A read yields the lines delivered and, possibly, the exception that
    ended the iteration. *)
Record file : Type := mkFile {
  getsize : result nat;
  opened : result (list string * option exn)
}.

(** [None]: [os.path.exists] is false. *)
Definition filesystem : Type := string -> option file.

Definition add_connection (c : connection_info) (r : analysis) : analysis :=
  mkAnalysis (log_file r) (connections r ++ [c]) (external_connections r)
    (trusted_connections r) (pip_installs r) (logging_config r)
    (file_exists r) (file_size r) (error r).

Definition add_external (c : connection_info) (r : analysis) : analysis :=
  mkAnalysis (log_file r) (connections r) (external_connections r ++ [c])
    (trusted_connections r) (pip_installs r) (logging_config r)
    (file_exists r) (file_size r) (error r).

Definition add_trusted (c : connection_info) (r : analysis) : analysis :=
  mkAnalysis (log_file r) (connections r) (external_connections r)
    (trusted_connections r ++ [c]) (pip_installs r) (logging_config r)
    (file_exists r) (file_size r) (error r).

Definition add_pip (i : pip_info) (r : analysis) : analysis :=
  mkAnalysis (log_file r) (connections r) (external_connections r)
    (trusted_connections r) (pip_installs r ++ [i]) (logging_config r)
    (file_exists r) (file_size r) (error r).

Definition add_logging (i : logging_info) (r : analysis) : analysis :=
  mkAnalysis (log_file r) (connections r) (external_connections r)
    (trusted_connections r) (pip_installs r) (logging_config r ++ [i])
    (file_exists r) (file_size r) (error r).

Definition set_file_size (n : nat) (r : analysis) : analysis :=
  mkAnalysis (log_file r) (connections r) (external_connections r)
    (trusted_connections r) (pip_installs r) (logging_config r)
    (file_exists r) n (error r).

Definition set_error (msg : string) (r : analysis) : analysis :=
  mkAnalysis (log_file r) (connections r) (external_connections r)
    (trusted_connections r) (pip_installs r) (logging_config r)
    (file_exists r) (file_size r) (Some msg).

(** The line-level override: the raw line, lower-cased, holds an ABFS URL
    whose container is a workspace UUID. *)
Definition workspace_abfs_line (line : string) : bool :=
  let raw_line_lower := lower line in
  contains "abfs" raw_line_lower && contains "@" raw_line_lower
  && contains ".dfs.core.windows.net" raw_line_lower
  && found false abfs_pattern raw_line_lower.

Section Analysis.
Context {checks : UrlChecks}.
Variable trusted_domains : list string.

(** [self.is_trusted_host(connection_info['host'])]; a host that is [None]
    is not a string, [_extract_hostname] answers [""] for it by its first
    test, and the host is not trusted. *)
Definition host_is_trusted (host : option string) : result bool :=
  match host with
  | Some h => is_trusted_host trusted_domains h
  | None => Ok false
  end.

(** The [connection_info] dict built for a match. *)
Definition connection_of (line_number : nat) (line : string)
    (p : pattern) (m : rematch) : connection_info :=
  mkConnection line_number (group m 1)
    (if 1 <? m_ngroups m then group m 2 else None)
    (strip_ws line) (source p).

(** [is_trusted] as it stands before the categorisation: the line-level
    override first, [is_trusted_host] only when it did not fire. *)
Definition trust_decision (line : string) (c : connection_info) : result bool :=
  if workspace_abfs_line line then Ok true
  else host_is_trusted (host c).

(** The body of [if match:] in the loop over the connection patterns.  The
    dict is mutated in place, so what was appended before an exception
    stays: the state is returned next to the outcome. *)
Definition record_connection (line_number : nat) (line : string)
    (p : pattern) (m : rematch) (r : analysis) : analysis * result unit :=
  let connection_info := connection_of line_number line p m in
  let r := add_connection connection_info r in
  match trust_decision line connection_info with
  | Ok true => (add_trusted connection_info r, Ok tt)
  | Ok false => (add_external connection_info r, Ok tt)
  | Raise e => (r, Raise e)
  end.

Fixpoint scan_connections (line_number : nat) (line : string)
    (patterns : list pattern) (r : analysis) : analysis * result unit :=
  match patterns with
  | [] => (r, Ok tt)
  | p :: rest =>
      match search p line with
      | Some m =>
          match record_connection line_number line p m r with
          | (r', Ok _) => scan_connections line_number line rest r'
          | (r', Raise e) => (r', Raise e)
          end
      | None => scan_connections line_number line rest r
      end
  end.

Fixpoint scan_pip (line_number : nat) (line : string)
    (patterns : list pattern) (r : analysis) : analysis :=
  match patterns with
  | [] => r
  | p :: rest =>
      match search p line with
      | Some m =>
          scan_pip line_number line rest
            (add_pip (mkPip line_number (group m 1) (strip_ws line) (source p)) r)
      | None => scan_pip line_number line rest r
      end
  end.

Fixpoint scan_logging (line_number : nat) (line : string)
    (patterns : list pattern) (r : analysis) : analysis :=
  match patterns with
  | [] => r
  | p :: rest =>
      match search p line with
      | Some _ =>
          scan_logging line_number line rest
            (add_logging (mkLogging line_number (strip_ws line) (source p)) r)
      | None => scan_logging line_number line rest r
      end
  end.

(** [for line_number, line in enumerate(f, 1)] *)
Fixpoint scan_lines (line_number : nat) (lines : list string) (r : analysis)
  : analysis * result unit :=
  match lines with
  | [] => (r, Ok tt)
  | line :: rest =>
      match scan_connections line_number line CONNECTION_PATTERNS r with
      | (r', Ok _) =>
          let r' := scan_pip line_number line PIP_PATTERNS r' in
          let r' := scan_logging line_number line LOGGING_PATTERNS r' in
          scan_lines (S line_number) rest r'
      | (r', Raise e) => (r', Raise e)
      end
  end.

(** The [try] block. *)
Definition scan_file (f : file) (r : analysis) : analysis * result unit :=
  match getsize f with
  | Raise e => (r, Raise e)
  | Ok size =>
      let r := set_file_size size r in
      match opened f with
      | Raise e => (r, Raise e)
      | Ok (lines, failure) =>
          match scan_lines 1 lines r with
          | (r', Ok _) =>
              (r', match failure with Some e => Raise e | None => Ok tt end)
          | (r', Raise e) => (r', Raise e)
          end
      end
  end.

Definition analyze_single_log_file (fs : filesystem) (log_file_path : string)
  : analysis :=
  let r :=
    mkAnalysis log_file_path [] [] [] [] []
      (match fs log_file_path with Some _ => true | None => false end) 0 None in
  match fs log_file_path with
  | None => r
  | Some f =>
      match scan_file f r with
      | (r', Ok _) => r'
      | (r', Raise e) => set_error (str_exn e) r'
      end
  end.

End Analysis.

(** *** The consolidated input and the session loop *)

(** A parsed JSON document; a number keeps its literal. *)
#[local] Unset Elimination Schemes.
Inductive json : Type :=
| JNull
| JBool (b : bool)
| JNum (literal : string)
| JStr (s : string)
| JArr (items : list json)
| JObj (fields : list (string * json)).
#[local] Set Elimination Schemes.

(** An insertion-ordered [dict] with string keys. *)
Definition dict (V : Type) : Type := list (string * V).

Fixpoint dict_get {V} (key : string) (d : dict V) : option V :=
  match d with
  | [] => None
  | (k, v) :: rest => if (k =? key)%string then Some v else dict_get key rest
  end.

(** [d[key] = v]: an existing key keeps its place. *)
Fixpoint dict_set {V} (key : string) (v : V) (d : dict V) : dict V :=
  match d with
  | [] => [(key, v)]
  | (k, x) :: rest =>
      if (k =? key)%string then (k, v) :: rest else (k, x) :: dict_set key v rest
  end.

(** [obj.get(key, default)]; only a dict has [get]. *)
Definition get_default (key : string) (default : json) (obj : json) : result json :=
  match obj with
  | JObj fields =>
      Ok (match dict_get key fields with Some v => v | None => default end)
  | _ => Raise AttributeError
  end.

(** What [len], [enumerate] and [for] accept: a list gives its items, a
    string its characters, a dict its keys; anything else is a
    [TypeError]. *)
Definition py_iter (j : json) : result (list json) :=
  match j with
  | JArr items => Ok items
  | JStr s => Ok (map (fun c => JStr (String c "")) (list_ascii_of_string s))
  | JObj fields => Ok (map (fun kv => JStr (fst kv)) fields)
  | _ => Raise TypeError
  end.

Record SessionInfo : Type := mkSessionInfo {
  notebook_name : json;
  notebook_id : json;
  workspace_name : json;
  workspace_id : json;
  spark_application_id : json;
  livy_id : json;
  app_url : json;
  temp_directory : json;
  download_timestamp : json
}.

Record SessionResult : Type := mkSessionResult {
  session_info : SessionInfo;
  log_analyses : dict analysis
}.

(** The state of a [SparkLogAnalyzer] object. *)
Record analyzer : Type := mkAnalyzer {
  consolidated_file_path : option string;
  session_results : list SessionResult;
  trusted_domains : list string
}.

(** [trusted_domains or self.DEFAULT_TRUSTED_DOMAINS.copy()] *)
Definition __init__ (consolidated_file_path : option string)
    (trusted_domains : option (list string)) : analyzer :=
  mkAnalyzer consolidated_file_path []
    (match trusted_domains with
     | Some (d :: ds) => d :: ds
     | _ => DEFAULT_TRUSTED_DOMAINS
     end).

(** [open] and [json.load] on the consolidated file. *)
Inductive load_result : Type :=
| FileNotFound
| LoadFailed (msg : string)
| Loaded (doc : json).

Record world : Type := mkWorld {
  log_files : filesystem;
  json_files : string -> load_result
}.

(** How a call ends: [return], an exception, or [sys.exit]. *)
Inductive outcome (A : Type) : Type :=
| Returned (a : A)
| Raised (e : exn)
| Exited (code : nat).
Arguments Returned {A} a.
Arguments Raised {A} e.
Arguments Exited {A} code.

Definition log_type_of (log_file : string) : string :=
  if contains "livy_logs" log_file then "livy"
  else if contains "stdout" log_file then "stdout"
  else if contains "stderr" log_file then "stderr"
  else "unknown".

Definition unknown : json := JStr "Unknown".

Section Sessions.
Context {checks : UrlChecks}.
Variable w : world.
Variable domains : list string.

(** [for log_file in downloaded_files].  An entry that is not a string
    ends in a [TypeError], at the substring tests or at
    [os.path.basename]. *)
Fixpoint analyze_files (files : list json) (log_analyses : dict analysis)
  : result (dict analysis) :=
  match files with
  | [] => Ok log_analyses
  | JStr log_file :: rest =>
      let log_type := log_type_of log_file in
      let analysis := analyze_single_log_file domains (log_files w) log_file in
      analyze_files rest (dict_set log_type analysis log_analyses)
  | _ :: _ => Raise TypeError
  end.

Definition analyze_session (session : json) : result SessionResult :=
  notebook_name <- get_default "notebook_name" unknown session ;;
  livy_id <- get_default "livy_id" unknown session ;;
  notebook_id <- get_default "notebook_id" unknown session ;;
  workspace_name <- get_default "workspace_name" unknown session ;;
  workspace_id <- get_default "workspace_id" unknown session ;;
  spark_application_id <- get_default "spark_application_id" unknown session ;;
  app_url <- get_default "app_url" unknown session ;;
  temp_directory <- get_default "temp_directory" unknown session ;;
  download_timestamp <- get_default "download_timestamp" unknown session ;;
  downloaded_files <- get_default "downloaded_files" (JArr []) session ;;
  files <- py_iter downloaded_files ;;
  log_analyses <- analyze_files files [] ;;
  Ok (mkSessionResult
        (mkSessionInfo notebook_name notebook_id workspace_name workspace_id
           spark_application_id livy_id app_url temp_directory download_timestamp)
        log_analyses).

(** [for i, session in enumerate(log_summaries)]: the sessions done before
    an exception stay appended to [self.session_results]. *)
Fixpoint analyze_sessions (sessions : list json) (done : list SessionResult)
  : list SessionResult * result unit :=
  match sessions with
  | [] => (done, Ok tt)
  | session :: rest =>
      match analyze_session session with
      | Ok session_result => analyze_sessions rest (done ++ [session_result])
      | Raise e => (done, Raise e)
      end
  end.

End Sessions.

Definition set_session_results (rs : list SessionResult) (self : analyzer) : analyzer :=
  mkAnalyzer (consolidated_file_path self) rs (trusted_domains self).

Definition analyze_consolidated_logs {checks : UrlChecks} (w : world)
    (self : analyzer) : analyzer * outcome (list SessionResult) :=
  match consolidated_file_path self with
  | None | Some "" =>
      (self, Raised (ValueError "No consolidated file path provided"))
  | Some path =>
      match json_files w path with
      | FileNotFound => (self, Exited 1)
      | LoadFailed _ => (self, Exited 1)
      | Loaded consolidated_data =>
          match
            log_summaries <- get_default "log_summaries" (JArr []) consolidated_data ;;
            py_iter log_summaries
          with
          | Raise e => (self, Raised e)
          | Ok sessions =>
              match
                analyze_sessions w (trusted_domains self) sessions (session_results self)
              with
              | (rs, Ok _) => (set_session_results rs self, Returned rs)
              | (rs, Raise e) => (set_session_results rs self, Raised e)
              end
          end
      end
  end.

(** *** The derived views *)

Definition nonempty {A} (l : list A) : bool :=
  match l with
  | [] => false
  | _ :: _ => true
  end.

(** The session summaries of both connection views.  The keys
    ['total_connections'] and ['connection_details'] exist in the summaries
    of [get_sessions_with_outbound_connections] only. *)
Module Summary.
Record t : Type := mk {
  notebook_name : json;
  notebook_id : json;
  livy_id : json;
  workspace_name : json;
  app_url : json;
  total_connections : option nat;
  total_external_connections : nat;
  total_trusted_connections : nat;
  connection_details : option (dict (list connection_info));
  external_connection_details : dict (list connection_info);
  trusted_connection_details : dict (list connection_info)
}.
End Summary.

(** [if analysis.get(key): details[log_type] = analysis[key]] over the items
    of [log_analyses]. *)
Definition details (key : analysis -> list connection_info)
    (log_analyses : dict analysis) : dict (list connection_info) :=
  fold_left
    (fun d (item : string * analysis) =>
       let (log_type, analysis) := item in
       if nonempty (key analysis) then dict_set log_type (key analysis) d else d)
    log_analyses [].

(** [if analysis.get(key): total += len(analysis[key])] *)
Definition total (key : analysis -> list connection_info)
    (log_analyses : dict analysis) : nat :=
  fold_left
    (fun n (item : string * analysis) =>
       if nonempty (key (snd item)) then n + List.length (key (snd item)) else n)
    log_analyses 0.

(** [if analysis.get(key): has = True] *)
Definition has (key : analysis -> list connection_info)
    (log_analyses : dict analysis) : bool :=
  fold_left
    (fun b (item : string * analysis) =>
       if nonempty (key (snd item)) then true else b)
    log_analyses false.

(** [session_summary] in [get_sessions_with_external_connections]. *)
Definition external_summary (session : SessionResult) : Summary.t :=
  let las := log_analyses session in
  let info := session_info session in
  Summary.mk (notebook_name info) (notebook_id info) (livy_id info)
    (workspace_name info) (app_url info)
    None
    (total external_connections las)
    (total trusted_connections las)
    None
    (details external_connections las)
    (details trusted_connections las).

(** [session_summary] in [get_sessions_with_outbound_connections]. *)
Definition outbound_summary (session : SessionResult) : Summary.t :=
  let las := log_analyses session in
  let info := session_info session in
  Summary.mk (notebook_name info) (notebook_id info) (livy_id info)
    (workspace_name info) (app_url info)
    (Some (total connections las))
    (total external_connections las)
    (total trusted_connections las)
    (Some (details connections las))
    (details external_connections las)
    (details trusted_connections las).

Fixpoint get_sessions_with_external_connections
    (session_results : list SessionResult) : list Summary.t :=
  match session_results with
  | [] => []
  | session :: rest =>
      (if has external_connections (log_analyses session)
       then [external_summary session] else [])
      ++ get_sessions_with_external_connections rest
  end.

Fixpoint get_sessions_with_outbound_connections
    (session_results : list SessionResult) : list Summary.t :=
  match session_results with
  | [] => []
  | session :: rest =>
      (if has connections (log_analyses session)
       then [outbound_summary session] else [])
      ++ get_sessions_with_outbound_connections rest
  end.

End SparkLogAnalyzer.

(** ** [class SparkLogAnalyzer]: the pip and the logging view *)

Module Reports.
Import PyStr SparkLogAnalyzer.

(** [session_summary] in [get_sessions_with_pip_installs]. *)
Module PipSummary.
Record t : Type := mk {
  notebook_name : json;
  notebook_id : json;
  livy_id : json;
  workspace_name : json;
  total_pip_installs : nat;
  pip_details : dict (list pip_info)
}.
End PipSummary.

(** The first loop over [log_analyses.items()]: [has_pip] and
    [total_pip_installs]. *)
Definition count_pip (log_analyses : dict analysis) : bool * nat :=
  fold_left
    (fun (acc : bool * nat) (item : string * analysis) =>
       let (has_pip, total_pip_installs) := acc in
       if nonempty (pip_installs (snd item))
       then (true, total_pip_installs + List.length (pip_installs (snd item)))
       else (has_pip, total_pip_installs))
    log_analyses (false, 0).

(** The second loop: [pip_details[log_type] = analysis['pip_installs']]. *)
Definition pip_details_of (log_analyses : dict analysis) : dict (list pip_info) :=
  fold_left
    (fun d (item : string * analysis) =>
       let (log_type, analysis) := item in
       if nonempty (pip_installs analysis)
       then dict_set log_type (pip_installs analysis) d else d)
    log_analyses [].

Fixpoint get_sessions_with_pip_installs (session_results : list SessionResult)
  : list PipSummary.t :=
  match session_results with
  | [] => []
  | session :: rest =>
      let (has_pip, total_pip_installs) := count_pip (log_analyses session) in
      let info := session_info session in
      (if has_pip
       then [PipSummary.mk (notebook_name info) (notebook_id info) (livy_id info)
               (workspace_name info) total_pip_installs
               (pip_details_of (log_analyses session))]
       else [])
      ++ get_sessions_with_pip_installs rest
  end.

(** [any(keyword in log_config['raw_line'].lower() for keyword in
    ['disable', 'off', 'false'])] *)
Definition mentions_disabled (log_config : logging_info) : bool :=
  existsb (fun keyword => contains keyword (lower (logging_raw_line log_config)))
    ["disable"; "off"; "false"].

(** The first loop of [get_logging_status_summary] over the analyses of a
    session: [has_logging_config] and [has_disabled_logs]. *)
Definition logging_flags (log_analyses : dict analysis) : bool * bool :=
  fold_left
    (fun (acc : bool * bool) (item : string * analysis) =>
       let (has_logging_config, has_disabled_logs) := acc in
       if nonempty (logging_config (snd item))
       then (true,
             fold_left
               (fun (b : bool) log_config =>
                  if mentions_disabled log_config then true else b)
               (logging_config (snd item)) has_disabled_logs)
       else (has_logging_config, has_disabled_logs))
    log_analyses (false, false).

Definition logging_configs_of (log_analyses : dict analysis)
  : dict (list logging_info) :=
  fold_left
    (fun d (item : string * analysis) =>
       let (log_type, analysis) := item in
       if nonempty (logging_config analysis)
       then dict_set log_type (logging_config analysis) d else d)
    log_analyses [].

Module LoggingDetail.
Record t : Type := mk {
  notebook_name : json;
  livy_id : json;
  has_disabled_logs : bool;
  logging_configs : dict (list logging_info)
}.
End LoggingDetail.

Module LoggingSummary.
Record t : Type := mk {
  sessions_with_logging_config : nat;
  sessions_with_disabled_logs : nat;
  details : list LoggingDetail.t
}.
End LoggingSummary.

(** The body of [for session in self.session_results]. *)
Definition logging_step (logging_summary : LoggingSummary.t)
    (session : SessionResult) : LoggingSummary.t :=
  let (has_logging_config, has_disabled_logs) := logging_flags (log_analyses session) in
  let info := session_info session in
  let logging_summary :=
    if has_logging_config
    then LoggingSummary.mk
           (LoggingSummary.sessions_with_logging_config logging_summary + 1)
           (LoggingSummary.sessions_with_disabled_logs logging_summary)
           (LoggingSummary.details logging_summary
            ++ [LoggingDetail.mk (notebook_name info) (livy_id info)
                  has_disabled_logs (logging_configs_of (log_analyses session))])
    else logging_summary in
  if has_disabled_logs
  then LoggingSummary.mk
         (LoggingSummary.sessions_with_logging_config logging_summary)
         (LoggingSummary.sessions_with_disabled_logs logging_summary + 1)
         (LoggingSummary.details logging_summary)
  else logging_summary.

Definition get_logging_status_summary (session_results : list SessionResult)
  : LoggingSummary.t :=
  fold_left logging_step session_results (LoggingSummary.mk 0 0 []).

End Reports.

(** ** [class LivyAPIConnector]: the files a session's summary lists *)

Module LivyAPIConnector.

(** [str(temp_path / name)], for the [Path] of the directory that
    [tempfile.mkdtemp] made and a plain file name. *)
Definition in_dir (temp_path name : string) : string :=
  (temp_path ++ "/" ++ name)%string.

(** [logs_downloaded] at the end of [download_logs_to_temp], by the status
    codes of the three responses. *)
Definition logs_downloaded (temp_path : string)
    (livy_status stdout_status stderr_status : nat) : list string :=
  (if livy_status =? 200 then [in_dir temp_path "livy_logs.txt"] else [])
  ++ (if stdout_status =? 200 then [in_dir temp_path "driver_stdout.log"] else [])
  ++ (if stderr_status =? 200 then [in_dir temp_path "driver_stderr.log"] else []).

End LivyAPIConnector.

(** * Vocabulary of the statements *)

Import PyStr Re Urllib SparkLogAnalyzer.

Definition is_lower_alnum (c : ascii) : bool := is_lower c || is_digit c.

(** Verdicts accepted for the two library checks in closed examples. *)
Definition accept_all : UrlChecks :=
  {| bracketed_host_ok := fun _ => true; nfkc_netloc_ok := fun _ => true |}.

Section Records.
Context {checks : UrlChecks}.
Variable domains : list string.

(** The categorisation of a connection as a boolean: trusted or external. *)
Definition verdict (line : string) (c : connection_info) : bool :=
  match trust_decision domains line c with
  | Ok b => b
  | Raise _ => false
  end.

(** The records of one line, in pattern order, each with its verdict. *)
Definition line_records (line_number : nat) (line : string)
    (patterns : list pattern) : list (connection_info * bool) :=
  flat_map
    (fun p =>
       match search p line with
       | Some m =>
           let c := connection_of line_number line p m in [(c, verdict line c)]
       | None => []
       end)
    patterns.

(** The records of the lines of a file, numbered from [line_number]. *)
Fixpoint file_records (line_number : nat) (lines : list string)
  : list (connection_info * bool) :=
  match lines with
  | [] => []
  | line :: rest =>
      line_records line_number line CONNECTION_PATTERNS
      ++ file_records (S line_number) rest
  end.

End Records.

Definition is_external (x : connection_info * bool) : bool := negb (snd x).

(** Appending a batch of categorised records to an analysis. *)
Definition push (cs : list (connection_info * bool)) (r : analysis) : analysis :=
  mkAnalysis (log_file r)
    (connections r ++ map fst cs)
    (external_connections r ++ map fst (filter is_external cs))
    (trusted_connections r ++ map fst (filter snd cs))
    (pip_installs r) (logging_config r) (file_exists r) (file_size r) (error r).

(** The three connection lists of an analysis. *)
Definition conn_view (r : analysis)
  : list connection_info * list connection_info * list connection_info :=
  (connections r, external_connections r, trusted_connections r).

(** [mask] tells, position by position, which records of [connections] went
    to [trusted_connections]; the others went to [external_connections]. *)
Definition partitioned_by (mask : list bool) (a : analysis) : Prop :=
  List.length mask = List.length (connections a) /\
  trusted_connections a = map fst (filter snd (combine (connections a) mask)) /\
  external_connections a
  = map fst (filter is_external (combine (connections a) mask)).

(** The [result] dict as [analyze_single_log_file] initialises it. *)
Definition empty_analysis (path : string) (present : bool) : analysis :=
  mkAnalysis path [] [] [] [] [] present 0 None.

(** A readable file with the given lines, and a file system holding one
    file. *)
Definition text_file (lines : list string) : file :=
  mkFile (Ok (list_sum (map String.length lines))) (Ok (lines, None)).

Definition single_file (path : string) (f : file) : filesystem :=
  fun p => if (p =? path)%string then Some f else None.

Definition on_line (n : nat) (c : connection_info) : bool :=
  line_number c =? n.

Definition is_match (line : string) (p : pattern) : bool :=
  match search p line with
  | Some _ => true
  | None => false
  end.

Definition with_newline (s : string) : string := (s ++ String LF "")%string.

(** The log lines of the examples. *)
Definition establishing_line : string :=
  "Establishing connection to 10.0.0.5:9092 for kafka".

Definition established_line : string :=
  "Established connection to 10.0.0.5:9092 for kafka".

Definition established_pattern : pattern :=
  compile "established connection to ([^\s]+):(\d+)"
    (cat [lit "established connection to "; host_port non_space]).

(** A line as the file iterator yields it: with its newline, or without
    one at the end of the file. *)
Definition line_end (eol : string) : Prop := eol = "" \/ eol = String LF "".

(** No string occurs twice in the list. *)
Fixpoint distinct (l : list string) : bool :=
  match l with
  | [] => true
  | x :: rest => negb (existsb (String.eqb x) rest) && distinct rest
  end.

Definition https_blob_line : string :=
  "GET https://acct.blob.core.windows.net/data.csv".

Definition override_line : string :=
  "connecting to ():80 abfss://550e8400-e29b-41d4-a716-446655440000@acct.dfs.core.windows.net/x".

Definition plain_line : string := "connecting to ():80".

Definition connecting_pattern : pattern :=
  compile "connecting to ([^\s]+):(\d+)"
    (cat [lit "connecting to "; host_port non_space]).

(** The match object of a pattern on a line it matches. *)
Definition the_match (p : pattern) (line : string) : rematch :=
  match search p line with
  | Some m => m
  | None => mkMatch [] 0
  end.

Definition https_pattern : pattern :=
  compile "https?://([^\s:]+):?(\d+)?"
    (cat [lit "http"; opt_char (CLit "s"); lit "://"; host_opt_port]).

Definition blob_pattern : pattern :=
  compile "([a-zA-Z0-9]+)\.blob\.core\.windows\.net" (storage_suffix "blob").

(** A summary of the outbound view without the two keys that only this view
    has. *)
Definition forget (o : Summary.t) : Summary.t :=
  Summary.mk (Summary.notebook_name o) (Summary.notebook_id o) (Summary.livy_id o)
    (Summary.workspace_name o) (Summary.app_url o)
    None
    (Summary.total_external_connections o)
    (Summary.total_trusted_connections o)
    None
    (Summary.external_connection_details o)
    (Summary.trusted_connection_details o).

(** The tag of a summary of the outbound view: external connections are
    present. *)
Definition external_present (o : Summary.t) : bool :=
  0 <? Summary.total_external_connections o.

(** Every analysis of the session splits its connections between trusted and
    external. *)
Definition sound_session (s : SessionResult) : Prop :=
  Forall (fun item : string * analysis => exists mask, partitioned_by mask (snd item))
    (log_analyses s).

(** A consolidated document without the key [log_summaries]. *)
Definition no_summaries_doc : json := JObj [("metadata", JObj [])].

Definition no_summaries_world : world :=
  mkWorld (fun _ => None) (fun _ => Loaded no_summaries_doc).

(** One session whose [stderr] log names a trusted and an external host. *)
Definition demo_log : file :=
  text_file [with_newline "connecting to localhost:8080";
             with_newline "connecting to evil.example.com:443"].

Definition demo_doc : json :=
  JObj [("log_summaries",
         JArr [JObj [("notebook_name", JStr "nb");
                     ("livy_id", JStr "42");
                     ("downloaded_files", JArr [JStr "logs/stderr"])]])].

Definition demo_world : world :=
  mkWorld (single_file "logs/stderr" demo_log) (fun _ => Loaded demo_doc).

Definition demo_run : analyzer * outcome (list SessionResult) :=
  @analyze_consolidated_logs accept_all demo_world
    (__init__ (Some "consolidated.json") None).

(** The pip and logging records of one line and of the lines of a file. *)
Definition pip_records (line_number : nat) (line : string)
    (patterns : list pattern) : list pip_info :=
  flat_map
    (fun p =>
       match search p line with
       | Some m => [mkPip line_number (group m 1) (strip_ws line) (source p)]
       | None => []
       end)
    patterns.

Definition logging_records (line_number : nat) (line : string)
    (patterns : list pattern) : list logging_info :=
  flat_map
    (fun p =>
       match search p line with
       | Some _ => [mkLogging line_number (strip_ws line) (source p)]
       | None => []
       end)
    patterns.

Fixpoint file_pip_records (line_number : nat) (lines : list string)
  : list pip_info :=
  match lines with
  | [] => []
  | line :: rest =>
      pip_records line_number line PIP_PATTERNS
      ++ file_pip_records (S line_number) rest
  end.

Fixpoint file_logging_records (line_number : nat) (lines : list string)
  : list logging_info :=
  match lines with
  | [] => []
  | line :: rest =>
      logging_records line_number line LOGGING_PATTERNS
      ++ file_logging_records (S line_number) rest
  end.

(** Appending batches of records of the three kinds to an analysis. *)
Definition extend (cs : list (connection_info * bool)) (ps : list pip_info)
    (ls : list logging_info) (r : analysis) : analysis :=
  mkAnalysis (log_file r)
    (connections r ++ map fst cs)
    (external_connections r ++ map fst (filter is_external cs))
    (trusted_connections r ++ map fst (filter snd cs))
    (pip_installs r ++ ps) (logging_config r ++ ls)
    (file_exists r) (file_size r) (error r).

(** What the operating system delivers for a path: the size reported, the
    lines read before anything failed, and the failure, if any. *)
Definition size_reported (f : option file) : nat :=
  match f with
  | Some (mkFile (Ok size) _) => size
  | _ => 0
  end.

Definition lines_read (f : option file) : list string :=
  match f with
  | Some (mkFile (Ok _) (Ok (lines, _))) => lines
  | _ => []
  end.

Definition failure_met (f : option file) : option exn :=
  match f with
  | Some (mkFile (Raise e) _) => Some e
  | Some (mkFile (Ok _) (Raise e)) => Some e
  | Some (mkFile (Ok _) (Ok (_, failure))) => failure
  | None => None
  end.

Definition present (f : option file) : bool :=
  match f with
  | Some _ => true
  | None => false
  end.

(** The least number of characters a pattern consumes. *)
Fixpoint minlen (r : regex) : nat :=
  match r with
  | REps | RBol | REol => 0
  | RChar _ => 1
  | RRep _ lo _ _ => lo
  | RSeq r1 r2 => minlen r1 + minlen r2
  | RAlt r1 r2 => Nat.min (minlen r1) (minlen r2)
  | ROpt _ => 0
  | RGroup _ r1 => minlen r1
  end.

(** Group [n] takes part in every match of the pattern. *)
Fixpoint binds (n : nat) (r : regex) : bool :=
  match r with
  | RGroup m r1 => Nat.eqb m n || binds n r1
  | RSeq r1 r2 => binds n r1 || binds n r2
  | RAlt r1 r2 => binds n r1 && binds n r2
  | _ => false
  end.

(** Every occurrence of group [n] spans at least one character. *)
Fixpoint solid (n : nat) (r : regex) : bool :=
  match r with
  | RGroup m r1 => (negb (Nat.eqb m n) || (1 <=? minlen r1)) && solid n r1
  | RSeq r1 r2 | RAlt r1 r2 => solid n r1 && solid n r2
  | ROpt r1 => solid n r1
  | _ => true
  end.

(** Whatever is bound to group [n] is not empty. *)
Definition filled (n : nat) (cs : caps) : Prop :=
  forall t, lookup n cs = Some t -> t <> "".

(** An optional string that, when present, is not empty. *)
Definition absent_or_filled (o : option string) : Prop :=
  forall t, o = Some t -> t <> "".

(** The three tests a connection pattern passes: group 1 takes part in
    every match, and groups 1 and 2 never capture an empty text. *)
Definition captures_host (p : pattern) : bool :=
  binds 1 (tree p) && solid 1 (tree p) && solid 2 (tree p).

(** The file that delivers the same lines as [f] reports, without the
    failure that ended the read. *)
Definition healthy (size : nat) (lines : list string) : file :=
  mkFile (Ok size) (Ok (lines, None)).

(** A file whose read breaks off after two lines. *)
Definition broken_log : file :=
  mkFile (Ok 64)
    (Ok ([with_newline "connecting to localhost:8080";
          with_newline "pip install requests"],
         Some (OSError "Input/output error"))).

(** The first session of a run. *)
Definition hd_session (run : analyzer * outcome (list SessionResult)) : SessionResult :=
  hd (mkSessionResult
        (mkSessionInfo unknown unknown unknown unknown unknown unknown unknown
           unknown unknown) [])
     (session_results (fst run)).

(** The four keys of [log_analyses]. *)
Definition LOG_TYPES : list string := ["livy"; "stdout"; "stderr"; "unknown"].

(** The last path of the list that is of the given log type. *)
Definition last_of_type (log_type : string) (paths : list string) : option string :=
  List.find (fun p => (log_type_of p =? log_type)%string) (rev paths).

(** An analyzer as [__init__] leaves it, with the path and the domains of
    [self]. *)
Definition fresh (self : analyzer) : analyzer :=
  mkAnalyzer (consolidated_file_path self) [] (trusted_domains self).

Definition is_object (j : json) : bool :=
  match j with
  | JObj _ => true
  | _ => false
  end.

(** A consolidated document whose second summary is not an object. *)
Definition torn_doc : json :=
  JObj [("log_summaries",
         JArr [JObj [("notebook_name", JStr "nb");
                     ("livy_id", JStr "42");
                     ("downloaded_files", JArr [JStr "logs/stderr"])];
               JStr "oops";
               JObj [("notebook_name", JStr "later")]])].

Definition torn_world : world :=
  mkWorld (single_file "logs/stderr" demo_log) (fun _ => Loaded torn_doc).

(** The three tests of the loop over [self.trusted_domains] on one entry. *)
Definition entry_matches (host_lower trusted_domain : string) : bool :=
  let trusted_lower := lower trusted_domain in
  (host_lower =? trusted_lower)%string
  || endswith host_lower ("." ++ trusted_lower)
  || endswith host_lower trusted_lower
  || (endswith trusted_lower "-" && startswith host_lower trusted_lower).

(** The same record, trusted on the right if it is on the left. *)
Definition promoted (x y : connection_info * bool) : Prop :=
  fst x = fst y /\ (snd x = true -> snd y = true).

Import Reports.

(** The entries a details loop writes: the non-empty lists, under their log
    types. *)
Definition picked {A} (key : analysis -> list A) (log_analyses : dict analysis)
  : dict (list A) :=
  flat_map
    (fun item : string * analysis =>
       match key (snd item) with
       | [] => []
       | _ :: _ => [(fst item, key (snd item))]
       end)
    log_analyses.

(** The keys of the analyses of a session are log types, each once. *)
Definition keyed_session (s : SessionResult) : Prop :=
  NoDup (map fst (log_analyses s)) /\ incl (map fst (log_analyses s)) LOG_TYPES.

(** A session with a pip record in [stdout] and a log4j line that says
    [OFF] in [stderr]. *)
Definition report_doc : json :=
  JObj [("log_summaries",
         JArr [JObj [("notebook_name", JStr "nb");
                     ("downloaded_files",
                      JArr [JStr "logs/stdout"; JStr "logs/stderr"])]])].

Definition report_fs : filesystem :=
  fun p =>
    if (p =? "logs/stdout")%string
    then Some (text_file [with_newline "pip install requests"])
    else if (p =? "logs/stderr")%string
    then Some (text_file [with_newline "log4j.rootLogger=OFF, console"])
    else None.

Definition report_world : world := mkWorld report_fs (fun _ => Loaded report_doc).

Definition report_run : analyzer * outcome (list SessionResult) :=
  @analyze_consolidated_logs accept_all report_world
    (__init__ (Some "consolidated.json") None).

(** [s] begins with the literal text [l], as the matcher compares it. *)
Fixpoint starts_with_lit (ic : bool) (l s : string) : bool :=
  match l, s with
  | "", _ => true
  | String c l', String x s' => cls_match ic (CLit c) x && starts_with_lit ic l' s'
  | String _ _, "" => false
  end.

(** Patterns of the catalogues whose literal part ends with the literal
    part of another pattern. *)
Definition pip_install_pattern : pattern :=
  compile "pip install ([^\s]+)"
    (cat [lit "pip install "; RGroup 1 (plus non_space)]).

Definition python_m_pip_pattern : pattern :=
  compile "python -m pip install ([^\s]+)"
    (cat [lit "python -m pip install "; RGroup 1 (plus non_space)]).

Definition python3_m_pip_pattern : pattern :=
  compile "python3 -m pip install ([^\s]+)"
    (cat [lit "python3 -m pip install "; RGroup 1 (plus non_space)]).

Definition ftp_pattern : pattern :=
  compile "ftp://([^\s:]+):?(\d+)?" (cat [lit "ftp://"; host_opt_port]).

Definition sftp_pattern : pattern :=
  compile "sftp://([^\s:]+):?(\d+)?" (cat [lit "sftp://"; host_opt_port]).

Import LivyAPIConnector.

(** A world in which the three log files of one session were downloaded
    to [/tmp/spark_logs_7_x]. *)
Definition collected_fs : filesystem :=
  fun p =>
    if (p =? "/tmp/spark_logs_7_x/driver_stderr.log")%string
    then Some demo_log
    else if (p =? "/tmp/spark_logs_7_x/driver_stdout.log")%string
    then Some (text_file [with_newline "pip install requests"])
    else if (p =? "/tmp/spark_logs_7_x/livy_logs.txt")%string
    then Some (text_file [])
    else None.

Definition collected_world : world := mkWorld collected_fs (fun _ => FileNotFound).

Definition last_char (s : string) : option ascii :=
  match rev (list_ascii_of_string s) with
  | c :: _ => Some c
  | [] => None
  end.

(** A bare host name: no slash, question mark or colon inside, and neither
    end is a character the normalizer strips. *)
Definition bare (h : string) : bool :=
  PyStr.forallb (fun c => negb (mem c "/?:")) h
  && match h with
     | String c _ => negb (mem c punctuation_dot)
     | "" => false
     end
  && match last_char h with
     | Some c => negb (mem c punctuation_dot)
     | None => false
     end.

(** A line that names an outside host next to an ABFS URL of a workspace. *)
Definition mixed_line : string :=
  "connecting to evil.example.com:443 abfss://550e8400-e29b-41d4-a716-446655440000@acct.dfs.core.windows.net/x".

(** Some analysis of the session holds a record of the given kind. *)
Definition some_record {A} (key : analysis -> list A) (s : SessionResult) : Prop :=
  exists log_type a, In (log_type, a) (log_analyses s) /\ key a <> [].

(** The same, as a test. *)
Definition has_record {A} (key : analysis -> list A) (s : SessionResult) : bool :=
  existsb
    (fun item : string * analysis =>
       match key (snd item) with
       | [] => false
       | _ :: _ => true
       end)
    (log_analyses s).

(** The number of records of the given kind in the analyses of a session. *)
Definition records_number {A} (key : analysis -> list A) (s : SessionResult) : nat :=
  list_sum (map (fun item : string * analysis => List.length (key (snd item)))
              (log_analyses s)).

(** The states an analyzer goes through: it is created, [main] may extend
    its trusted domains, and it runs, any number of times, on any files. *)
Inductive reachable {checks : UrlChecks} : analyzer -> Prop :=
| reach_init (path : option string) (domains : option (list string)) :
    reachable (__init__ path domains)
| reach_extend (self : analyzer) (extra : list string) :
    reachable self ->
    reachable (mkAnalyzer (consolidated_file_path self) (session_results self)
                 (trusted_domains self ++ extra))
| reach_run (w : world) (self st : analyzer) (out : outcome (list SessionResult)) :
    reachable self -> analyze_consolidated_logs w self = (st, out) -> reachable st.

(** Two sessions: the first reaches [localhost] only, the second is the
    session of [demo_doc]; and an analyzer that ran twice on them. *)
Definition quiet_log : file :=
  text_file [with_newline "connecting to localhost:8080"].

Definition views_doc : json :=
  JObj [("log_summaries",
         JArr [JObj [("notebook_name", JStr "quiet");
                     ("livy_id", JStr "41");
                     ("downloaded_files", JArr [JStr "logs/stdout"])];
               JObj [("notebook_name", JStr "nb");
                     ("livy_id", JStr "42");
                     ("downloaded_files", JArr [JStr "logs/stderr"])]])].

Definition views_fs : filesystem :=
  fun p =>
    if (p =? "logs/stdout")%string then Some quiet_log
    else if (p =? "logs/stderr")%string then Some demo_log
    else None.

Definition views_world : world := mkWorld views_fs (fun _ => Loaded views_doc).

Definition views_run : analyzer * outcome (list SessionResult) :=
  @analyze_consolidated_logs accept_all views_world
    (__init__ (Some "consolidated.json") None).

Definition views_rerun : analyzer * outcome (list SessionResult) :=
  @analyze_consolidated_logs accept_all views_world (fst views_run).

Definition quiet_session : SessionResult := hd_session views_rerun.

Definition quiet_analysis : analysis :=
  @analyze_single_log_file accept_all DEFAULT_TRUSTED_DOMAINS views_fs "logs/stdout".

(** A session put together by hand: its analysis lists an external record
    that is not among its connections. *)
Definition stray_session : SessionResult :=
  mkSessionResult
    (mkSessionInfo unknown unknown unknown unknown unknown unknown unknown
       unknown unknown)
    [("stderr",
      mkAnalysis "logs/stderr" []
        [mkConnection 1 (Some "evil.example.com") (Some "443")
           "connecting to evil.example.com:443" "connecting to ([^\s]+):(\d+)"]
        [] [] [] true 0 None)].

(** The summary of a session in the pip view, from its records. *)
Definition pip_report (s : SessionResult) : PipSummary.t :=
  PipSummary.mk
    (notebook_name (session_info s)) (notebook_id (session_info s))
    (livy_id (session_info s)) (workspace_name (session_info s))
    (records_number pip_installs s)
    (picked pip_installs (log_analyses s)).

(** The text of a logging record names one of the three marks of disabled
    logs, in any case. *)
Definition names_disabling (i : logging_info) : bool :=
  contains "disable" (lower (logging_raw_line i))
  || contains "off" (lower (logging_raw_line i))
  || contains "false" (lower (logging_raw_line i)).

(** Some logging record of the session names such a mark. *)
Definition disables_logging (s : SessionResult) : bool :=
  existsb
    (fun item : string * analysis => existsb names_disabling (logging_config (snd item)))
    (log_analyses s).

(** The detail of a session in the logging summary, from its records. *)
Definition logging_report (s : SessionResult) : LoggingDetail.t :=
  LoggingDetail.mk
    (notebook_name (session_info s)) (livy_id (session_info s))
    (disables_logging s)
    (picked logging_config (log_analyses s)).

(** * Properties *)

(** ** Strings *)

Lemma split_from_nonempty (sep s : string) (skip : nat) :
  split_from sep s skip <> [].
Proof.
  revert skip; induction s as [|c s IH]; intros skip; cbn [split_from].
  - easy.
  - destruct skip as [|k]; [|apply IH].
    destruct (prefix sep (String c s)); [easy|].
    destruct (split_from sep s 0); easy.
Qed.

Lemma item_first_split (sep s : string) :
  exists piece, item_first (split sep s) = Ok piece.
Proof.
  unfold split.
  destruct (split_from sep s 0) as [|x l] eqn:E.
  - now apply split_from_nonempty in E.
  - now exists x.
Qed.

Lemma item_last_nonempty {A} (l : list A) :
  l <> [] -> exists x, item_last l = Ok x.
Proof.
  induction l as [|a l IH]; [congruence|intros _].
  destruct l as [|b l]; [now exists a|].
  destruct IH as [x Hx]; [discriminate|].
  exists x. exact Hx.
Qed.

Lemma item_last_split (sep s : string) :
  exists piece, item_last (split sep s) = Ok piece.
Proof. apply item_last_nonempty, split_from_nonempty. Qed.

(** ** The normalizer and the classifier always answer *)

Section Totality.
Context {checks : UrlChecks}.

Lemma extract_hostname_total (host_input : string) :
  exists h, _extract_hostname host_input = Ok h.
Proof.
  unfold _extract_hostname.
  destruct (host_input =? "")%string; [now eexists|].
  set (s0 := strip_chars punctuation host_input).
  destruct (if contains "://" s0 then hostname_via_urlparse s0 else None);
    [now eexists|].
  assert (step : forall (t : bool) sep s,
             exists s', (if t then item_first (split sep s) else Ok s) = Ok s').
  { intros [] sep s; [apply item_first_split|now eexists]. }
  destruct (step (contains "/" s0) "/" s0) as [s1 ->]; cbn [bind].
  destruct (step (contains "?" s1) "?" s1) as [s2 ->]; cbn [bind].
  destruct (step (contains ":" s2 && negb (1 <? count ":" s2)) ":" s2) as [s3 ->];
    cbn [bind].
  now eexists.
Qed.

Lemma workspace_container_check_total (host_lower : string) :
  exists b, workspace_container_check host_lower = Ok b.
Proof.
  unfold workspace_container_check.
  destruct (_ && _); [|now eexists].
  destruct (item_first_split "@" host_lower) as [a ->].
  destruct (item_last_split "@" host_lower) as [b ->].
  cbn [bind]. now eexists.
Qed.

Lemma is_trusted_host_total (domains : list string) (host : string) :
  exists b, is_trusted_host domains host = Ok b.
Proof.
  unfold is_trusted_host.
  destruct (extract_hostname_total host) as [h ->]; cbn [bind].
  destruct (h =? "")%string; [now eexists|].
  destruct (workspace_container_check_total (lower h)) as [b ->]; cbn [bind].
  destruct b; [now eexists|].
  repeat match goal with |- context [if ?c then _ else _] => destruct c end;
    now eexists.
Qed.

Lemma host_is_trusted_total (domains : list string) (host : option string) :
  exists b, host_is_trusted domains host = Ok b.
Proof.
  destruct host as [h|]; [apply is_trusted_host_total|now exists false].
Qed.

(** An empty normalized hostname is never trusted by the classifier. *)
Lemma empty_hostname_untrusted (domains : list string) (host : string) :
  _extract_hostname host = Ok "" -> is_trusted_host domains host = Ok false.
Proof. unfold is_trusted_host. now intros ->. Qed.

End Totality.

(** ** What a scan appends *)

Lemma push_nil (r : analysis) : push [] r = r.
Proof.
  destruct r; unfold push; cbn. now rewrite !app_nil_r.
Qed.

Lemma push_app (a b : list (connection_info * bool)) (r : analysis) :
  push (a ++ b) r = push b (push a r).
Proof.
  unfold push; cbn.
  now rewrite !filter_app, !map_app, !app_assoc.
Qed.

Section Scan.
Context {checks : UrlChecks}.
Variable domains : list string.

Lemma trust_decision_total (line : string) (c : connection_info) :
  trust_decision domains line c = Ok (verdict domains line c).
Proof.
  unfold verdict, trust_decision.
  destruct (workspace_abfs_line line); [reflexivity|].
  now destruct (host_is_trusted_total domains (host c)) as [b ->].
Qed.

Lemma record_connection_spec n line p m r :
  record_connection domains n line p m r
  = (push [(connection_of n line p m, verdict domains line (connection_of n line p m))] r,
     Ok tt).
Proof.
  unfold record_connection.
  rewrite trust_decision_total.
  destruct (verdict domains line _);
    unfold push, add_trusted, add_external, add_connection; cbn;
    now rewrite ?app_nil_r.
Qed.

Lemma scan_connections_spec n line ps r :
  scan_connections domains n line ps r
  = (push (line_records domains n line ps) r, Ok tt).
Proof.
  revert r; induction ps as [|p ps IH]; intros r; cbn [scan_connections line_records flat_map].
  - now rewrite push_nil.
  - destruct (search p line) as [m|].
    + rewrite record_connection_spec, IH. now rewrite push_app.
    + now rewrite IH.
Qed.

Lemma scan_pip_conn_view n line ps r :
  conn_view (scan_pip n line ps r) = conn_view r.
Proof.
  revert r; induction ps as [|p ps IH]; intros r; cbn [scan_pip]; [reflexivity|].
  destruct (search p line); now rewrite IH.
Qed.

Lemma scan_logging_conn_view n line ps r :
  conn_view (scan_logging n line ps r) = conn_view r.
Proof.
  revert r; induction ps as [|p ps IH]; intros r; cbn [scan_logging]; [reflexivity|].
  destruct (search p line); now rewrite IH.
Qed.

Lemma conn_view_push cs r r' :
  conn_view r = conn_view r' -> conn_view (push cs r) = conn_view (push cs r').
Proof.
  unfold conn_view, push; cbn. now intros [= -> -> ->].
Qed.

Lemma scan_lines_spec n lines r :
  snd (scan_lines domains n lines r) = Ok tt /\
  conn_view (fst (scan_lines domains n lines r))
  = conn_view (push (file_records domains n lines) r).
Proof.
  revert n r; induction lines as [|line rest IH]; intros n r;
    cbn [scan_lines file_records].
  - now rewrite push_nil.
  - rewrite scan_connections_spec.
    destruct (IH (S n)
                (scan_logging n line LOGGING_PATTERNS
                   (scan_pip n line PIP_PATTERNS
                      (push (line_records domains n line CONNECTION_PATTERNS) r))))
      as [Hok Hview].
    split; [exact Hok|].
    rewrite Hview, push_app.
    apply conn_view_push.
    now rewrite scan_logging_conn_view, scan_pip_conn_view.
Qed.

(** The connection lists of an analysis are those of a batch of
    categorised records. *)

Lemma analyze_readable fs path f size lines failure :
  fs path = Some f -> getsize f = Ok size -> opened f = Ok (lines, failure) ->
  conn_view (analyze_single_log_file domains fs path)
  = conn_view (push (file_records domains 1 lines) (empty_analysis path true)).
Proof.
  intros Hf Hs Ho. unfold analyze_single_log_file, scan_file.
  rewrite Hf, Hs, Ho.
  destruct (scan_lines_spec 1 lines
              (set_file_size size (empty_analysis path true))) as [Hok Hview].
  fold (empty_analysis path true).
  destruct (scan_lines domains 1 lines _) as [r' o]; cbn [fst snd] in *.
  subst o.
  destruct failure; exact Hview.
Qed.

Lemma analyze_batch fs path :
  exists cs,
    conn_view (analyze_single_log_file domains fs path)
    = conn_view (push cs (empty_analysis path true)).
Proof.
  destruct (fs path) as [f|] eqn:Hf.
  - destruct (getsize f) as [size|e] eqn:Hs.
    + destruct (opened f) as [[lines failure]|e] eqn:Ho.
      * eexists. eapply analyze_readable; eassumption.
      * exists []. unfold analyze_single_log_file, scan_file.
        now rewrite Hf, Hs, Ho.
    + exists []. unfold analyze_single_log_file, scan_file. now rewrite Hf, Hs.
  - exists []. unfold analyze_single_log_file. now rewrite Hf.
Qed.

End Scan.

Lemma combine_fst_snd {A B} (l : list (A * B)) :
  combine (map fst l) (map snd l) = l.
Proof. induction l as [|[a b] l IH]; cbn; congruence. Qed.

Lemma partitioned_of_batch cs a path :
  conn_view a = conn_view (push cs (empty_analysis path true)) ->
  partitioned_by (map snd cs) a.
Proof.
  unfold conn_view, push, partitioned_by; cbn.
  intros [= -> -> ->].
  rewrite combine_fst_snd, !length_map. auto.
Qed.

(** ** Strings made of lower-case letters and digits *)

Ltac by_chars c :=
  destruct c as [[] [] [] [] [] [] [] []]; vm_compute; try reflexivity; try discriminate;
  try (intros; discriminate); try (intros; reflexivity).

Lemma forallb_impl (p q : ascii -> bool) (s : string) :
  (forall c, p c = true -> q c = true) ->
  PyStr.forallb p s = true -> PyStr.forallb q s = true.
Proof.
  intros Hpq; induction s as [|c s IH]; cbn; [reflexivity|].
  intros [Hc Hs]%andb_prop. now rewrite (Hpq c Hc), IH.
Qed.

Lemma lstrip_id (p : ascii -> bool) (s : string) :
  PyStr.forallb (fun c => negb (p c)) s = true -> lstrip p s = s.
Proof.
  destruct s as [|c s]; cbn; [reflexivity|].
  intros [Hc _]%andb_prop. now apply negb_true_iff in Hc as ->.
Qed.

Lemma rstrip_id (p : ascii -> bool) (s : string) :
  PyStr.forallb (fun c => negb (p c)) s = true -> rstrip p s = s.
Proof.
  induction s as [|c s IH]; cbn; [reflexivity|].
  intros [Hc Hs]%andb_prop. rewrite (IH Hs).
  apply negb_true_iff in Hc as ->. now destruct s.
Qed.

Lemma strip_id (p : ascii -> bool) (s : string) :
  PyStr.forallb (fun c => negb (p c)) s = true -> strip p s = s.
Proof.
  intros H. unfold strip. now rewrite (lstrip_id p s H), rstrip_id.
Qed.

Lemma prefix_head_absent (q : ascii -> bool) (x : ascii) (rest s : string) :
  PyStr.forallb q s = true -> q x = false -> prefix (String x rest) s = false.
Proof.
  destruct s as [|c s]; cbn; [reflexivity|].
  intros [Hc _]%andb_prop Hx.
  destruct (ascii_dec x c) as [->|]; [congruence|reflexivity].
Qed.

Lemma contains_head_absent (q : ascii -> bool) (x : ascii) (rest s : string) :
  PyStr.forallb q s = true -> q x = false -> contains (String x rest) s = false.
Proof.
  intros Hs Hx; induction s as [|c s IH].
  - reflexivity.
  - cbn [contains]. rewrite (prefix_head_absent q x rest _ Hs Hx).
    cbn in Hs. apply andb_prop in Hs as [_ Hs]. now apply IH.
Qed.

Lemma lower_alnum_fixed (c : ascii) : is_lower_alnum c = true -> to_lower c = c.
Proof. by_chars c. Qed.

Lemma lower_alnum_not_punct (c : ascii) :
  is_lower_alnum c = true -> negb (mem c punctuation_dot) = true.
Proof. by_chars c. Qed.

Lemma punct_in_punct_dot (c : ascii) :
  negb (mem c punctuation_dot) = true -> negb (mem c punctuation) = true.
Proof. by_chars c. Qed.

Lemma lower_alnum_class (c : ascii) :
  cls_match false lower_alnum c = is_lower_alnum c.
Proof. by_chars c. Qed.

Lemma lower_id (s : string) :
  PyStr.forallb is_lower_alnum s = true -> lower s = s.
Proof.
  induction s as [|c s IH]; cbn; [reflexivity|].
  intros [Hc Hs]%andb_prop. now rewrite (lower_alnum_fixed c Hc), IH.
Qed.

Section AlnumHosts.
Context {checks : UrlChecks}.
Variable h : string.
Hypothesis alnum_h : PyStr.forallb is_lower_alnum h = true.

Lemma alnum_no (x : ascii) (rest : string) :
  is_lower_alnum x = false -> contains (String x rest) h = false.
Proof. intros Hx. exact (contains_head_absent _ x rest h alnum_h Hx). Qed.

Lemma extract_hostname_alnum : _extract_hostname h = Ok h.
Proof.
  unfold _extract_hostname.
  destruct (h =? "")%string eqn:E; [now apply String.eqb_eq in E as ->|].
  assert (Hp : strip_chars punctuation_dot h = h).
  { apply strip_id, (forallb_impl is_lower_alnum); [|exact alnum_h].
    exact lower_alnum_not_punct. }
  assert (Hq : strip_chars punctuation h = h).
  { apply strip_id, (forallb_impl is_lower_alnum); [|exact alnum_h].
    intros c Hc. now apply punct_in_punct_dot, lower_alnum_not_punct. }
  rewrite Hq.
  rewrite (alnum_no ":" "//"), (alnum_no "/" "") by reflexivity; cbn [bind].
  rewrite (alnum_no "?" "") by reflexivity; cbn [bind].
  rewrite (alnum_no ":" "") by reflexivity; cbn [bind andb].
  now rewrite Hp.
Qed.

End AlnumHosts.

Lemma endswith_forallb (q : ascii -> bool) (s suf : string) :
  endswith s suf = true -> PyStr.forallb q s = true -> PyStr.forallb q suf = true.
Proof.
  induction s as [|c s IH]; cbn [endswith].
  - rewrite orb_false_r. now intros ->%String.eqb_eq.
  - intros [->%String.eqb_eq|H]%orb_prop Hq; [exact Hq|].
    cbn in Hq. apply andb_prop in Hq as [_ Hq]. now apply IH.
Qed.

Lemma prefix_forallb (q : ascii -> bool) (pre s : string) :
  prefix pre s = true -> PyStr.forallb q s = true -> PyStr.forallb q pre = true.
Proof.
  revert s; induction pre as [|c pre IH]; intros s; [reflexivity|].
  destruct s as [|d s]; cbn; [discriminate|].
  destruct (ascii_dec c d) as [->|]; [|discriminate].
  intros Hp [Hd Hs]%andb_prop. now rewrite Hd, (IH s Hp Hs).
Qed.

Lemma endswith_self_or_tail (s suf : string) :
  endswith s suf = (s =? suf)%string
                   || match s with "" => false | String _ s' => endswith s' suf end.
Proof. now destruct s. Qed.

(** ** Repetition over a run of matching characters *)

Lemma rep_greedy_takes_all (p : ascii -> bool) (k : nat -> string -> option caps)
    (v : caps) (s : string) :
  forall lo hi pos,
    PyStr.forallb p s = true ->
    lo <= String.length s ->
    (forall n, hi = Some n -> String.length s <= n) ->
    k (pos + String.length s) "" = Some v ->
    rep_match p true lo hi k pos s = Some v.
Proof.
  induction s as [|x s IH]; intros lo hi pos Hp Hlo Hhi Hk.
  - cbn in Hlo, Hk. rewrite Nat.add_0_r in Hk.
    assert (lo = 0) as -> by lia.
    cbn. destruct hi as [[|n]|]; cbn; now rewrite Hk.
  - cbn in Hp. apply andb_prop in Hp as [Hx Hs].
    cbn [String.length] in Hlo, Hhi, Hk.
    assert (Hrec : rep_match p true (pred lo) (option_map pred hi) k (S pos) s = Some v).
    { apply IH; [exact Hs|lia| |].
      - intros n Hn. destruct hi as [m|]; [|discriminate].
        injection Hn as <-. specialize (Hhi m eq_refl). lia.
      - now rewrite Nat.add_succ_comm. }
    cbn [rep_match]. rewrite Hx.
    destruct hi as [[|n]|].
    + specialize (Hhi 0 eq_refl). lia.
    + now rewrite Hrec.
    + now rewrite Hrec.
Qed.

Section AlnumClassification.
Context {checks : UrlChecks}.
Variable h : string.
Hypothesis alnum_h : PyStr.forallb is_lower_alnum h = true.

Lemma workspace_check_alnum : workspace_container_check h = Ok false.
Proof.
  unfold workspace_container_check.
  now rewrite (alnum_no h alnum_h "." "dfs.core.windows.net").
Qed.

Lemma temp_storage_pattern_alnum :
  20 <= String.length h <= 22 -> matches false temp_storage_pattern h = true.
Proof.
  intros Hlen. unfold matches, match_at_start, temp_storage_pattern, between.
  cbn [cat rmatch Nat.eqb].
  rewrite (rep_greedy_takes_all _ _ []); [reflexivity| |lia| |reflexivity].
  - apply (forallb_impl is_lower_alnum); [|exact alnum_h].
    intros c Hc. now rewrite lower_alnum_class.
  - intros n [= <-]. lia.
Qed.

Lemma trusted_domain_match_cons (entry : string) (rest : list string) :
  trusted_domain_match h (entry :: rest)
  = if (h =? lower entry)%string then true
    else if endswith h ("." ++ lower entry) || endswith h (lower entry) then true
    else if endswith (lower entry) "-" && startswith h (lower entry) then true
    else trusted_domain_match h rest.
Proof. reflexivity. Qed.

(** An entry holding anything but lower-case letters and digits matches no
    such host. *)
Lemma trusted_entry_alien (entry : string) (rest : list string) :
  PyStr.forallb is_lower_alnum (lower entry) = false ->
  trusted_domain_match h (entry :: rest) = trusted_domain_match h rest.
Proof.
  intros Halien. cbn [trusted_domain_match].
  assert (Heq : (h =? lower entry)%string = false).
  { destruct (h =? lower entry)%string eqn:E; [|reflexivity].
    apply String.eqb_eq in E. rewrite <- E in Halien. congruence. }
  assert (Hdot : endswith h ("." ++ lower entry) = false).
  { destruct (endswith h ("." ++ lower entry)) eqn:E; [|reflexivity].
    now apply (endswith_forallb is_lower_alnum) in E. }
  assert (Hsuf : endswith h (lower entry) = false).
  { destruct (endswith h (lower entry)) eqn:E; [|reflexivity].
    apply (endswith_forallb is_lower_alnum) in E; congruence. }
  assert (Hpre : startswith h (lower entry) = false).
  { unfold startswith. destruct (prefix (lower entry) h) eqn:E; [|reflexivity].
    apply (prefix_forallb is_lower_alnum) in E; congruence. }
  now rewrite Heq, Hdot, Hsuf, Hpre, andb_false_r.
Qed.

Lemma default_domains_alnum :
  trusted_domain_match h DEFAULT_TRUSTED_DOMAINS = endswith h "localhost".
Proof.
  unfold DEFAULT_TRUSTED_DOMAINS.
  rewrite !trusted_entry_alien by reflexivity.
  rewrite trusted_domain_match_cons.
  rewrite !trusted_entry_alien by reflexivity.
  change (lower "localhost") with "localhost".
  change (endswith "localhost" "-") with false.
  assert (Hdot : endswith h ("." ++ "localhost") = false).
  { destruct (endswith h ("." ++ "localhost")) eqn:E; [|reflexivity].
    now apply (endswith_forallb is_lower_alnum) in E. }
  rewrite Hdot, (endswith_self_or_tail h "localhost").
  cbn [trusted_domain_match andb orb].
  destruct (h =? "localhost")%string; [reflexivity|].
  cbn [orb]. now destruct (match h with "" => false | String _ s' => endswith s' "localhost" end).
Qed.

(** The classification of a host made of lower-case letters and digits. *)
Lemma is_trusted_host_alnum :
  h <> "" ->
  is_trusted_host DEFAULT_TRUSTED_DOMAINS h
  = Ok (matches false spark_host_pattern h
        || ((20 <=? String.length h)
            && matches false temp_storage_pattern h
            && negb (existsb (fun word => contains word h) common_words))
        || endswith h "localhost").
Proof.
  intros Hne. unfold is_trusted_host.
  rewrite (extract_hostname_alnum h alnum_h); cbn [bind].
  apply String.eqb_neq in Hne as ->.
  rewrite (lower_id h alnum_h), workspace_check_alnum; cbn [bind].
  rewrite (alnum_no h alnum_h "." "dfs.core.windows.net") by reflexivity.
  rewrite default_domains_alnum.
  destruct (matches false spark_host_pattern h); [reflexivity|].
  now destruct (_ && _).
Qed.

End AlnumClassification.

(** ** Where the records of an analysis come from *)

Section Provenance.
Context {checks : UrlChecks}.
Variable domains : list string.

Lemma in_line_records n line ps c b :
  In (c, b) (line_records domains n line ps) <->
  exists p m, In p ps /\ search p line = Some m /\
              c = connection_of n line p m /\ b = verdict domains line c.
Proof.
  unfold line_records. rewrite in_flat_map. split.
  - intros (p & Hp & Hin). destruct (search p line) as [m|] eqn:Hm; [|destruct Hin].
    destruct Hin as [[= <- <-]|[]]. now exists p, m.
  - intros (p & m & Hp & Hm & -> & ->). exists p. split; [exact Hp|].
    rewrite Hm. now left.
Qed.

Lemma in_file_records n0 lines x :
  In x (file_records domains n0 lines) <->
  exists i line, nth_error lines i = Some line /\
                 In x (line_records domains (n0 + i) line CONNECTION_PATTERNS).
Proof.
  revert n0; induction lines as [|l rest IH]; intros n0; cbn [file_records].
  - split; [intros []|]. intros (i & line & Hi & _). now destruct i.
  - rewrite in_app_iff, IH. split.
    + intros [H|(i & line & Hi & H)].
      * exists 0, l. now rewrite Nat.add_0_r.
      * exists (S i), line. now rewrite Nat.add_succ_r.
    + intros (i & line & Hi & H). destruct i as [|i].
      * left. cbn in Hi. injection Hi as ->. now rewrite Nat.add_0_r in H.
      * right. exists i, line. now rewrite Nat.add_succ_r in H.
Qed.

Lemma file_record_verdict lines c b :
  In (c, b) (file_records domains 1 lines) ->
  exists line, nth_error lines (line_number c - 1) = Some line /\
               b = verdict domains line c.
Proof.
  intros (i & line & Hi & H)%in_file_records.
  apply in_line_records in H as (p & m & _ & _ & Hc & Hb).
  exists line. subst c. cbn [line_number connection_of].
  now replace (1 + i - 1) with i by lia.
Qed.

Section Readable.
Variables (fs : filesystem) (path : string) (f : file) (size : nat)
  (lines : list string) (failure : option exn).
Hypothesis Hf : fs path = Some f.
Hypothesis Hsize : getsize f = Ok size.
Hypothesis Hopen : opened f = Ok (lines, failure).

Let a := analyze_single_log_file domains fs path.
Let recs := file_records domains 1 lines.

Lemma readable_lists :
  connections a = map fst recs /\
  external_connections a = map fst (filter is_external recs) /\
  trusted_connections a = map fst (filter snd recs).
Proof.
  pose proof (analyze_readable domains fs path f size lines failure Hf Hsize Hopen) as H.
  unfold conn_view, push in H; cbn in H. injection H as H1 H2 H3. auto.
Qed.

(** A record of the line at offset [i] is a record of the analysis. *)
Lemma line_record_in_connections i line p m :
  nth_error lines i = Some line -> In p CONNECTION_PATTERNS ->
  search p line = Some m ->
  In (connection_of (S i) line p m) (connections a).
Proof.
  intros Hi Hp Hm. destruct readable_lists as [-> _].
  apply in_map_iff.
  exists (connection_of (S i) line p m,
          verdict domains line (connection_of (S i) line p m)).
  split; [reflexivity|].
  apply in_file_records. exists i, line. split; [exact Hi|].
  apply in_line_records. now exists p, m.
Qed.

(** Every record of the analysis was built from a line and a pattern that
    matches it. *)
Lemma connection_origin c :
  In c (connections a) ->
  exists i line p m,
    nth_error lines i = Some line /\ In p CONNECTION_PATTERNS /\
    search p line = Some m /\ c = connection_of (S i) line p m.
Proof.
  destruct readable_lists as [-> _].
  intros ([c' b] & <- & Hin)%in_map_iff.
  apply in_file_records in Hin as (i & line & Hi & Hin).
  apply in_line_records in Hin as (p & m & Hp & Hm & Hc & _).
  now exists i, line, p, m.
Qed.

(** The verdict on its line decides where a record goes. *)
Lemma categorised c line :
  In c (connections a) ->
  nth_error lines (line_number c - 1) = Some line ->
  (In c (trusted_connections a) <-> verdict domains line c = true) /\
  (In c (external_connections a) <-> verdict domains line c = false).
Proof.
  destruct readable_lists as (Hc & He & Ht). rewrite Hc, He, Ht.
  intros ([c' b] & Hfst & Hin)%in_map_iff Hline. cbn in Hfst. subst c'.
  assert (Hb : forall b', In (c, b') recs -> b' = verdict domains line c).
  { intros b' H. apply file_record_verdict in H as (l & Hl & ->). congruence. }
  split; split.
  - intros ([c' b'] & Hfst & [H Hsnd]%filter_In)%in_map_iff.
    cbn in Hfst, Hsnd. subst c'. now rewrite <- (Hb b' H).
  - intros Hv. apply in_map_iff. exists (c, b). split; [reflexivity|].
    apply filter_In. split; [exact Hin|]. cbn. now rewrite (Hb b Hin).
  - intros ([c' b'] & Hfst & [H Hsnd]%filter_In)%in_map_iff.
    cbn in Hfst. subst c'. unfold is_external in Hsnd. cbn in Hsnd.
    rewrite <- (Hb b' H). now apply negb_true_iff.
  - intros Hv. apply in_map_iff. exists (c, b). split; [reflexivity|].
    apply filter_In. split; [exact Hin|]. unfold is_external; cbn.
    now rewrite (Hb b Hin), Hv.
Qed.

End Readable.

End Provenance.

Lemma established_in_catalogue : In established_pattern CONNECTION_PATTERNS.
Proof. unfold CONNECTION_PATTERNS. do 3 right. left. reflexivity. Qed.

(** ** Counting the records of one line *)

Lemma distinct_NoDup (l : list string) : distinct l = true -> NoDup l.
Proof.
  induction l as [|x l IH]; cbn; [constructor|].
  intros [Hx Hl]%andb_prop. constructor; [|now apply IH].
  intros Hin. apply negb_true_iff in Hx.
  assert (existsb (String.eqb x) l = true); [|congruence].
  apply existsb_exists. exists x. split; [exact Hin|apply String.eqb_refl].
Qed.

Lemma catalogue_sources_distinct : NoDup (map source CONNECTION_PATTERNS).
Proof. apply distinct_NoDup. vm_compute. reflexivity. Qed.

Lemma filter_all {A} (f : A -> bool) (l : list A) :
  (forall x, In x l -> f x = true) -> filter f l = l.
Proof.
  induction l as [|a l IH]; cbn; [reflexivity|]. intros H.
  rewrite (H a (or_introl eq_refl)), IH; [reflexivity|]. intros x Hx. apply H. now right.
Qed.

Lemma filter_none {A} (f : A -> bool) (l : list A) :
  (forall x, In x l -> f x = false) -> filter f l = [].
Proof.
  induction l as [|a l IH]; cbn; [reflexivity|]. intros H.
  rewrite (H a (or_introl eq_refl)), IH; [reflexivity|]. intros x Hx. apply H. now right.
Qed.

Section Counting.
Context {checks : UrlChecks}.
Variable domains : list string.

Lemma line_records_number n line ps c :
  In c (map fst (line_records domains n line ps)) -> line_number c = n.
Proof.
  intros ([c' b] & <- & H)%in_map_iff.
  now apply in_line_records in H as (p & m & _ & _ & -> & _).
Qed.

Lemma file_records_number n0 lines c :
  In c (map fst (file_records domains n0 lines)) -> n0 <= line_number c.
Proof.
  intros ([c' b] & <- & H)%in_map_iff.
  apply in_file_records in H as (i & line & _ & H).
  apply in_line_records in H as (p & m & _ & _ & -> & _). cbn. lia.
Qed.

Lemma on_line_file_records lines :
  forall n0 i line,
    nth_error lines i = Some line ->
    filter (on_line (n0 + i)) (map fst (file_records domains n0 lines))
    = map fst (line_records domains (n0 + i) line CONNECTION_PATTERNS).
Proof.
  induction lines as [|l rest IH]; intros n0 i line Hi; [now destruct i|].
  cbn [file_records]. rewrite map_app, filter_app.
  destruct i as [|i]; cbn in Hi.
  - injection Hi as ->. rewrite Nat.add_0_r.
    rewrite filter_all, filter_none; [apply app_nil_r| |].
    + intros c Hc%file_records_number. unfold on_line.
      apply Nat.eqb_neq. lia.
    + intros c Hc%line_records_number. unfold on_line.
      now apply Nat.eqb_eq.
  - rewrite filter_none.
    + rewrite Nat.add_succ_r. exact (IH (S n0) i line Hi).
    + intros c Hc%line_records_number. unfold on_line.
      apply Nat.eqb_neq. lia.
Qed.

Lemma line_records_length n line ps :
  List.length (line_records domains n line ps)
  = List.length (filter (is_match line) ps).
Proof.
  induction ps as [|p ps IH]; cbn [line_records flat_map filter]; [reflexivity|].
  unfold is_match at 1. fold (line_records domains n line ps).
  destruct (search p line); cbn; now rewrite IH.
Qed.

End Counting.

(** ** Hosts that normalize to nothing *)

Section EmptyHost.
Context {checks : UrlChecks}.
Variable domains : list string.

Lemma verdict_empty_host (line : string) (c : connection_info) (h : string) :
  host c = Some h -> _extract_hostname h = Ok "" ->
  verdict domains line c = workspace_abfs_line line.
Proof.
  intros Hc Hh. unfold verdict, trust_decision.
  destruct (workspace_abfs_line line); [reflexivity|].
  rewrite Hc. cbn [host_is_trusted].
  now rewrite (empty_hostname_untrusted domains h Hh).
Qed.

End EmptyHost.

(** ** The session loop keeps analyses sound *)

Lemma dict_set_Forall {V} (P : string * V -> Prop) (key : string) (v : V) (d : dict V) :
  (forall k, P (k, v)) -> Forall P d -> Forall P (dict_set key v d).
Proof.
  intros Hv; induction d as [|[k x] d IH]; intros Hd; cbn.
  - constructor; [apply Hv|constructor].
  - inversion Hd as [|? ? Hx Hrest]; subst.
    destruct (k =? key)%string; constructor; auto.
Qed.

Section SoundRuns.
Context {checks : UrlChecks}.
Variable w : world.
Variable domains : list string.

Let sound_item (item : string * analysis) : Prop :=
  exists mask, partitioned_by mask (snd item).

Lemma analyze_files_sound files :
  forall d d', Forall sound_item d -> analyze_files w domains files d = Ok d' ->
               Forall sound_item d'.
Proof.
  induction files as [|file rest IH]; intros d d' Hd; cbn [analyze_files].
  - now intros [= <-].
  - destruct file as [ |b|n|log_file|items|fields]; try (intros H; discriminate H).
    intros Hrest. eapply IH; [|exact Hrest].
    apply dict_set_Forall; [|exact Hd].
    intros k. unfold sound_item; cbn [snd].
    destruct (analyze_batch domains (log_files w) log_file) as [cs Hcs].
    exists (map snd cs). exact (partitioned_of_batch cs _ _ Hcs).
Qed.

Lemma analyze_session_sound session r :
  analyze_session w domains session = Ok r -> sound_session r.
Proof.
  unfold analyze_session.
  repeat match goal with
         | |- bind (get_default ?k ?d ?o) _ = Ok _ -> _ =>
             destruct (get_default k d o); cbn [bind]; [|intros H; discriminate H]
         end.
  destruct (py_iter _) as [files|]; cbn [bind]; [|intros H; discriminate H].
  destruct (analyze_files w domains files []) as [d|] eqn:Hd; cbn [bind];
    [|intros H; discriminate H].
  intros [= <-]. unfold sound_session; cbn [log_analyses].
  eapply analyze_files_sound; [|exact Hd]. constructor.
Qed.

Lemma analyze_sessions_sound sessions :
  forall done, Forall sound_session done ->
               Forall sound_session (fst (analyze_sessions w domains sessions done)).
Proof.
  induction sessions as [|session rest IH]; intros done Hdone; cbn [analyze_sessions].
  - exact Hdone.
  - destruct (analyze_session w domains session) as [r|e] eqn:Hr; [|exact Hdone].
    apply IH, Forall_app. split; [exact Hdone|].
    constructor; [|constructor]. now apply analyze_session_sound in Hr.
Qed.

End SoundRuns.

Lemma analyze_consolidated_logs_sound {checks : UrlChecks} (w : world)
    (self st : analyzer) (out : outcome (list SessionResult)) :
  Forall sound_session (session_results self) ->
  analyze_consolidated_logs w self = (st, out) ->
  Forall sound_session (session_results st).
Proof.
  intros Hself. unfold analyze_consolidated_logs.
  destruct (consolidated_file_path self) as [[|c path]|]; try now intros [= <- _].
  destruct (json_files w (String c path)); try now intros [= <- _].
  destruct (bind _ _) as [sessions|e]; [|now intros [= <- _]].
  pose proof (analyze_sessions_sound w (trusted_domains self) sessions
                (session_results self) Hself) as H.
  destruct (analyze_sessions _ _ _ _) as [rs [[]|e]]; intros [= <- _]; exact H.
Qed.

(** ** The two connection views *)

Lemma has_fold key (las : dict analysis) (b : bool) :
  fold_left
    (fun b (item : string * analysis) => if nonempty (key (snd item)) then true else b)
    las b
  = b || has key las.
Proof.
  unfold has. revert b; induction las as [|item las IH]; intros b; cbn [fold_left].
  - now rewrite orb_false_r.
  - rewrite IH, (IH (if nonempty (key (snd item)) then true else false)).
    destruct (nonempty (key (snd item))), b; reflexivity.
Qed.

Lemma total_fold key (las : dict analysis) (n : nat) :
  fold_left
    (fun n (item : string * analysis) =>
       if nonempty (key (snd item)) then n + List.length (key (snd item)) else n)
    las n
  = n + total key las.
Proof.
  unfold total. revert n; induction las as [|item las IH]; intros n; cbn [fold_left].
  - lia.
  - rewrite IH, (IH (if nonempty (key (snd item)) then 0 + _ else 0)).
    destruct (nonempty (key (snd item))); lia.
Qed.

Lemma has_cons key item las :
  has key (item :: las) = nonempty (key (snd item)) || has key las.
Proof.
  unfold has at 1. cbn [fold_left]. rewrite has_fold.
  now destruct (nonempty (key (snd item))).
Qed.

Lemma total_cons key item las :
  total key (item :: las)
  = (if nonempty (key (snd item)) then List.length (key (snd item)) else 0)
    + total key las.
Proof.
  unfold total at 1. cbn [fold_left]. rewrite total_fold.
  now destruct (nonempty (key (snd item))).
Qed.

Lemma has_positive_total key las : has key las = (0 <? total key las).
Proof.
  induction las as [|item las IH]; [reflexivity|].
  rewrite has_cons, total_cons, IH.
  destruct (key (snd item)) as [|c l]; cbn [nonempty List.length orb]; [reflexivity|].
  symmetry. apply Nat.ltb_lt. lia.
Qed.

Lemma partitioned_empty mask a :
  partitioned_by mask a -> connections a = [] ->
  external_connections a = [] /\ trusted_connections a = [].
Proof. intros (_ & -> & ->) ->. now split. Qed.

Lemma sound_has key (s : SessionResult) :
  key = external_connections \/ key = trusted_connections ->
  sound_session s ->
  has key (log_analyses s) = true -> has connections (log_analyses s) = true.
Proof.
  intros Hkey. unfold sound_session.
  induction (log_analyses s) as [|item las IH]; intros Hs; [discriminate|].
  inversion Hs as [|? ? [mask Hmask] Hrest]; subst.
  rewrite !has_cons. intros [H|H]%orb_prop.
  - destruct (connections (snd item)) eqn:E; [|reflexivity].
    destruct (partitioned_empty mask _ Hmask E) as [He Ht].
    destruct Hkey as [-> | ->]; [rewrite He in H|rewrite Ht in H]; discriminate.
  - rewrite (IH Hrest H). apply orb_true_r.
Qed.

Lemma external_view_of_outbound (rs : list SessionResult) :
  Forall sound_session rs ->
  get_sessions_with_external_connections rs
  = map forget (filter external_present (get_sessions_with_outbound_connections rs)).
Proof.
  induction 1 as [|s rs Hs Hrs IH]; [reflexivity|].
  cbn [get_sessions_with_external_connections get_sessions_with_outbound_connections].
  rewrite filter_app, map_app, <- IH. f_equal.
  assert (Htag : external_present (outbound_summary s)
                 = has external_connections (log_analyses s)).
  { unfold external_present, outbound_summary; cbn. now rewrite has_positive_total. }
  destruct (has external_connections (log_analyses s)) eqn:He.
  - rewrite (sound_has external_connections s (or_introl eq_refl) Hs He).
    cbn [filter]. now rewrite Htag.
  - destruct (has connections (log_analyses s)); [|reflexivity].
    cbn [filter]. now rewrite Htag.
Qed.

Lemma in_outbound_view (s : SessionResult) (rs : list SessionResult) :
  In s rs -> has connections (log_analyses s) = true ->
  In (outbound_summary s) (get_sessions_with_outbound_connections rs).
Proof.
  induction rs as [|r rs IH]; [intros []|].
  cbn [get_sessions_with_outbound_connections]. intros [-> | Hin] Hc.
  - rewrite Hc. now left.
  - apply in_or_app. right. now apply IH.
Qed.

(** ** Membership in the two connection views *)

Lemma has_some_record key (s : SessionResult) :
  has key (log_analyses s) = true <-> some_record key s.
Proof.
  unfold some_record. induction (log_analyses s) as [|[k a] las IH].
  - split; [discriminate|]. intros (lt & a & [] & _).
  - rewrite has_cons. cbn [snd]. split.
    + intros [H|H]%orb_prop.
      * exists k, a. split; [now left|]. now destruct (key a).
      * apply IH in H as (lt & a' & Hin & Ha).
        exists lt, a'. split; [now right|exact Ha].
    + intros (lt & a' & [Heq|Hin] & Ha); apply orb_true_iff.
      * left. injection Heq as _ <-. now destruct (key a).
      * right. apply IH. now exists lt, a'.
Qed.

Lemma external_view_member (e : Summary.t) (rs : list SessionResult) :
  In e (get_sessions_with_external_connections rs) <->
  exists s, In s rs /\ has external_connections (log_analyses s) = true /\
            e = external_summary s.
Proof.
  induction rs as [|r rs IH]; cbn [get_sessions_with_external_connections].
  - split; [intros []|intros (s & [] & _)].
  - rewrite in_app_iff, IH. split.
    + intros [H|(s & Hs & Hrest)].
      * destruct (has external_connections (log_analyses r)) eqn:E; [|destruct H].
        destruct H as [<-|[]]. exists r. split; [now left|now split].
      * exists s. split; [now right|exact Hrest].
    + intros (s & [<-|Hs] & Hhas & ->).
      * left. rewrite Hhas. now left.
      * right. now exists s.
Qed.

Lemma outbound_view_member (o : Summary.t) (rs : list SessionResult) :
  In o (get_sessions_with_outbound_connections rs) <->
  exists s, In s rs /\ has connections (log_analyses s) = true /\
            o = outbound_summary s.
Proof.
  induction rs as [|r rs IH]; cbn [get_sessions_with_outbound_connections].
  - split; [intros []|intros (s & [] & _)].
  - rewrite in_app_iff, IH. split.
    + intros [H|(s & Hs & Hrest)].
      * destruct (has connections (log_analyses r)) eqn:E; [|destruct H].
        destruct H as [<-|[]]. exists r. split; [now left|now split].
      * exists s. split; [now right|exact Hrest].
    + intros (s & [<-|Hs] & Hhas & ->).
      * left. rewrite Hhas. now left.
      * right. now exists s.
Qed.

Lemma summary_in_external_view (s : SessionResult) (rs : list SessionResult) :
  In s rs ->
  (In (external_summary s) (get_sessions_with_external_connections rs) <->
   some_record external_connections s).
Proof.
  intros Hs. rewrite external_view_member, <- has_some_record. split.
  - intros (s' & _ & Hhas & Heq).
    apply (f_equal Summary.total_external_connections) in Heq.
    cbn [Summary.total_external_connections external_summary] in Heq.
    rewrite has_positive_total in Hhas |- *. now rewrite Heq.
  - intros H. now exists s.
Qed.

Lemma summary_in_outbound_view (s : SessionResult) (rs : list SessionResult) :
  In s rs ->
  (In (outbound_summary s) (get_sessions_with_outbound_connections rs) <->
   some_record connections s).
Proof.
  intros Hs. rewrite outbound_view_member, <- has_some_record. split.
  - intros (s' & _ & Hhas & Heq).
    apply (f_equal Summary.total_connections) in Heq.
    cbn [Summary.total_connections outbound_summary] in Heq.
    injection Heq as Heq.
    rewrite has_positive_total in Hhas |- *. now rewrite Heq.
  - intros H. now exists s.
Qed.

Lemma reachable_sound {checks : UrlChecks} (st : analyzer) :
  reachable st -> Forall sound_session (session_results st).
Proof.
  induction 1 as [path domains|self extra _ IH|w self st out _ IH Hrun].
  - constructor.
  - exact IH.
  - exact (analyze_consolidated_logs_sound w self st out IH Hrun).
Qed.

(** ** Hosts below the length of the storage heuristic *)

Lemma prefix_length (pre s : string) :
  prefix pre s = true -> String.length pre <= String.length s.
Proof.
  revert s; induction pre as [|c pre IH]; intros s; [cbn; lia|].
  destruct s as [|d s]; cbn; [intros H; discriminate H|].
  destruct (ascii_dec c d); [|intros H; discriminate H].
  intros H%IH. lia.
Qed.

Lemma contains_length (needle s : string) :
  contains needle s = true -> String.length needle <= String.length s.
Proof.
  induction s as [|c s IH]; cbn [contains].
  - rewrite orb_false_r. apply prefix_length.
  - intros [H%prefix_length|H%IH]%orb_prop; cbn [String.length] in *; lia.
Qed.

Lemma lower_length (s : string) : String.length (lower s) = String.length s.
Proof. induction s as [|c s IH]; cbn; congruence. Qed.

Section ShortHosts.
Context {checks : UrlChecks}.

(** A normalized host of fewer than 20 characters is judged by the
    spark-host pattern and the list alone. *)
Lemma is_trusted_host_short (domains : list string) (h : string) :
  _extract_hostname h = Ok h ->
  0 < String.length h < 20 ->
  is_trusted_host domains h
  = Ok (matches false spark_host_pattern (lower h)
        || trusted_domain_match (lower h) domains).
Proof.
  intros Hh Hlen. unfold is_trusted_host. rewrite Hh; cbn [bind].
  assert (Hne : (h =? "")%string = false).
  { apply String.eqb_neq. intros ->. cbn in Hlen. lia. }
  rewrite Hne.
  assert (Hdfs : contains ".dfs.core.windows.net" (lower h) = false).
  { apply not_true_is_false. intros H%contains_length.
    rewrite lower_length in H. cbn in H. lia. }
  unfold workspace_container_check. rewrite Hdfs; cbn [andb bind].
  destruct (matches false spark_host_pattern (lower h)); [reflexivity|].
  assert (Hshort : (20 <=? String.length (lower h)) = false).
  { apply Nat.leb_gt. rewrite lower_length. lia. }
  now rewrite Hshort.
Qed.

End ShortHosts.

(** * The claims *)

(** C1. What [is_trusted_host] answers against the default domains.  The
    ABFS URL with a workspace UUID as container is normalized to its host
    [acctname.dfs.core.windows.net] before the workspace check, which needs
    the container and the [@] and so does not fire: the URL is external.
    The same token without the scheme reaches the check and is trusted, and
    the token with the container [myteam] is external. *)
Theorem C1_workspace_uuid_url_not_trusted {checks : UrlChecks} :
  _extract_hostname
    "abfss://550e8400-e29b-41d4-a716-446655440000@acctname.dfs.core.windows.net"
  = Ok "acctname.dfs.core.windows.net" /\
  is_trusted_host DEFAULT_TRUSTED_DOMAINS
    "abfss://550e8400-e29b-41d4-a716-446655440000@acctname.dfs.core.windows.net"
  = Ok false /\
  is_trusted_host DEFAULT_TRUSTED_DOMAINS
    "550e8400-e29b-41d4-a716-446655440000@acctname.dfs.core.windows.net"
  = Ok true /\
  is_trusted_host DEFAULT_TRUSTED_DOMAINS "myteam@acctname.dfs.core.windows.net"
  = Ok false.
Proof. repeat split; vm_compute; reflexivity. Qed.

(** C2 fails as stated: the line of the spec matches no connection pattern,
    and the analysis of a file made of it has no connection at all. *)
Lemma C2_counterexample :
  connections
    (@analyze_single_log_file accept_all DEFAULT_TRUSTED_DOMAINS
       (single_file "stderr" (text_file [with_newline establishing_line]))
       "stderr")
  = [].
Proof. vm_compute. reflexivity. Qed.

(** C2, as the code has it.  The catalogue spells the phrase
    [established connection to]: a line [Established connection to
    10.0.0.5:9092 for kafka] read from a log file yields a record for that
    line with host [10.0.0.5] and port [9092], while the line
    [Establishing connection to ...] yields no record. *)
Theorem C2_established_connection {checks : UrlChecks}
    (domains : list string) (fs : filesystem) (path : string) (f : file)
    (size : nat) (lines : list string) (failure : option exn)
    (i : nat) (eol : string) :
  fs path = Some f -> getsize f = Ok size -> opened f = Ok (lines, failure) ->
  line_end eol ->
  (nth_error lines i = Some (established_line ++ eol)%string ->
   In (mkConnection (S i) (Some "10.0.0.5") (Some "9092") established_line
         (source established_pattern))
      (connections (analyze_single_log_file domains fs path))) /\
  (nth_error lines i = Some (establishing_line ++ eol)%string ->
   forall c, In c (connections (analyze_single_log_file domains fs path)) ->
             line_number c <> S i).
Proof.
  intros Hf Hsize Hopen Heol. split.
  - intros Hi.
    assert (Hrec : option_map
                     (connection_of (S i) (established_line ++ eol) established_pattern)
                     (search established_pattern (established_line ++ eol))
                   = Some (mkConnection (S i) (Some "10.0.0.5") (Some "9092")
                             established_line (source established_pattern))).
    { destruct Heol as [-> | ->]; vm_compute; reflexivity. }
    destruct (search established_pattern (established_line ++ eol)) as [m|] eqn:Hm;
      [|discriminate].
    cbn [option_map] in Hrec.
    replace (mkConnection (S i) (Some "10.0.0.5") (Some "9092") established_line
               (source established_pattern))
      with (connection_of (S i) (established_line ++ eol) established_pattern m)
      by congruence.
    exact (line_record_in_connections domains fs path f size lines failure
             Hf Hsize Hopen i _ established_pattern m Hi established_in_catalogue Hm).
  - intros Hi c Hc Hn.
    apply (connection_origin domains fs path f size lines failure Hf Hsize Hopen)
      in Hc as (j & line & p & m & Hj & Hp & Hm & ->).
    cbn in Hn. injection Hn as ->.
    assert (Hline : line = (establishing_line ++ eol)%string) by congruence.
    rewrite Hline in Hm.
    assert (Hnone : List.forallb (fun q => negb (is_match (establishing_line ++ eol) q))
                      CONNECTION_PATTERNS = true).
    { destruct Heol as [-> | ->]; vm_compute; reflexivity. }
    rewrite List.forallb_forall in Hnone. specialize (Hnone p Hp).
    unfold is_match in Hnone. rewrite Hm in Hnone. discriminate.
Qed.

Lemma C2_established_connection_witness :
  In (mkConnection 1 (Some "10.0.0.5") (Some "9092") established_line
        (source established_pattern))
     (connections
        (@analyze_single_log_file accept_all DEFAULT_TRUSTED_DOMAINS
           (single_file "stderr" (text_file [with_newline established_line]))
           "stderr")).
Proof.
  apply (proj1 (@C2_established_connection accept_all DEFAULT_TRUSTED_DOMAINS
                  (single_file "stderr" (text_file [with_newline established_line]))
                  "stderr" (text_file [with_newline established_line])
                  (list_sum (map String.length [with_newline established_line]))
                  [with_newline established_line] None 0 (String LF "")
                  eq_refl eq_refl eq_refl (or_intror eq_refl))).
  reflexivity.
Defined.

(** C3 fails as stated: a document without [log_summaries] is read as a run
    of no session, and the call returns. *)
Lemma C3_counterexample :
  @analyze_consolidated_logs accept_all no_summaries_world
    (__init__ (Some "consolidated.json") None)
  = (__init__ (Some "consolidated.json") None, Returned []).
Proof. vm_compute. reflexivity. Qed.

(** C3, as the code has it.  A top-level JSON object without the key
    [log_summaries] is not an error: the key defaults to the empty list,
    the run returns normally with no session result, and the analyzer is
    left as it was. *)
Theorem C3_missing_log_summaries {checks : UrlChecks} (w : world)
    (path : string) (domains : option (list string))
    (fields : list (string * json)) :
  path <> "" ->
  json_files w path = Loaded (JObj fields) ->
  dict_get "log_summaries" fields = None ->
  analyze_consolidated_logs w (__init__ (Some path) domains)
  = (__init__ (Some path) domains, Returned []).
Proof.
  intros Hpath Hload Hkey. unfold analyze_consolidated_logs.
  cbn [consolidated_file_path __init__].
  destruct path as [|c path]; [congruence|].
  rewrite Hload. cbn [get_default]. rewrite Hkey. reflexivity.
Qed.

Lemma C3_missing_log_summaries_witness :
  @analyze_consolidated_logs accept_all no_summaries_world
    (__init__ (Some "consolidated.json") None)
  = (__init__ (Some "consolidated.json") None, Returned []).
Proof.
  apply (@C3_missing_log_summaries accept_all no_summaries_world
           "consolidated.json" None [("metadata", JObj [])]).
  - discriminate.
  - reflexivity.
  - reflexivity.
Defined.

(** C4, as the code has it.  A host of 20 lower-case letters and digits
    with none of the excluded words is trusted.  One that contains [prod]
    is external unless it matches [^spark\d+triprodeus$] or ends with
    [localhost].  For a host of 19 characters the storage heuristic does
    not apply: it is external unless the spark-host pattern or an entry of
    the default list matches it, which for lower-case letters and digits
    means that it ends with [localhost]. *)
Theorem C4_ephemeral_storage_boundary {checks : UrlChecks} (h : string) :
  (PyStr.forallb is_lower_alnum h = true ->
   String.length h = 20 ->
   (forall word, In word common_words -> contains word h = false) ->
   is_trusted_host DEFAULT_TRUSTED_DOMAINS h = Ok true) /\
  (PyStr.forallb is_lower_alnum h = true ->
   String.length h = 20 -> contains "prod" h = true ->
   is_trusted_host DEFAULT_TRUSTED_DOMAINS h
   = Ok (matches false spark_host_pattern h || endswith h "localhost")) /\
  (String.length h = 19 -> _extract_hostname h = Ok h ->
   is_trusted_host DEFAULT_TRUSTED_DOMAINS h
   = Ok (matches false spark_host_pattern (lower h)
         || trusted_domain_match (lower h) DEFAULT_TRUSTED_DOMAINS)) /\
  (PyStr.forallb is_lower_alnum h = true ->
   String.length h = 19 ->
   is_trusted_host DEFAULT_TRUSTED_DOMAINS h
   = Ok (matches false spark_host_pattern h || endswith h "localhost")).
Proof.
  assert (Hne : forall n, String.length h = S n -> h <> "").
  { intros n Hn ->. discriminate. }
  repeat split.
  - intros Halnum Hlen Hwords.
    rewrite (is_trusted_host_alnum h Halnum (Hne _ Hlen)), Hlen.
    rewrite (temp_storage_pattern_alnum h Halnum) by lia.
    assert (existsb (fun word => contains word h) common_words = false) as ->.
    { apply not_true_is_false. intros (w & Hw & Hc)%existsb_exists.
      rewrite (Hwords w Hw) in Hc. discriminate. }
    cbn. now rewrite orb_true_r.
  - intros Halnum Hlen Hprod.
    rewrite (is_trusted_host_alnum h Halnum (Hne _ Hlen)).
    assert (existsb (fun word => contains word h) common_words = true) as ->.
    { apply existsb_exists. exists "prod". split; [|exact Hprod].
      cbn. tauto. }
    now rewrite andb_false_r, orb_false_r.
  - intros Hlen Hh. apply is_trusted_host_short; [exact Hh|lia].
  - intros Halnum Hlen.
    rewrite (is_trusted_host_alnum h Halnum (Hne _ Hlen)), Hlen.
    cbn [Nat.leb andb]. now rewrite orb_false_r.
Qed.

Lemma C4_ephemeral_storage_boundary_witness :
  @is_trusted_host accept_all DEFAULT_TRUSTED_DOMAINS "olsblayjtsk9m43e910t" = Ok true /\
  @is_trusted_host accept_all DEFAULT_TRUSTED_DOMAINS "olsblayjprod43e910te" = Ok false /\
  @is_trusted_host accept_all DEFAULT_TRUSTED_DOMAINS "evil.example.com.au" = Ok false /\
  @is_trusted_host accept_all DEFAULT_TRUSTED_DOMAINS "olsblayjtsk9m43e910" = Ok false.
Proof.
  split; [|split; [|split]].
  - apply (proj1 (@C4_ephemeral_storage_boundary accept_all "olsblayjtsk9m43e910t"));
      [reflexivity|reflexivity|].
    intros word Hin. cbn in Hin.
    repeat (destruct Hin as [<-|Hin]; [vm_compute; reflexivity|]). destruct Hin.
  - rewrite (proj1 (proj2 (@C4_ephemeral_storage_boundary accept_all
                             "olsblayjprod43e910te"))
               ltac:(reflexivity) ltac:(reflexivity) ltac:(vm_compute; reflexivity)).
    vm_compute. reflexivity.
  - rewrite (proj1 (proj2 (proj2 (@C4_ephemeral_storage_boundary accept_all
                                    "evil.example.com.au")))
               ltac:(reflexivity) ltac:(vm_compute; reflexivity)).
    vm_compute. reflexivity.
  - rewrite (proj2 (proj2 (proj2 (@C4_ephemeral_storage_boundary accept_all
                                    "olsblayjtsk9m43e910")))
               ltac:(reflexivity) ltac:(reflexivity)).
    vm_compute. reflexivity.
Defined.

(** C4 fails as stated: hosts of 20 lower-case letters and digits that
    contain [prod] are trusted when they match the spark-host pattern or end
    with [localhost], and so are hosts of 19 characters that match the
    pattern or an entry of the default list. *)
Lemma C4_counterexample :
  (PyStr.forallb is_lower_alnum "spark12345triprodeus" = true /\
   String.length "spark12345triprodeus" = 20 /\
   contains "prod" "spark12345triprodeus" = true /\
   @is_trusted_host accept_all DEFAULT_TRUSTED_DOMAINS "spark12345triprodeus"
   = Ok true) /\
  (PyStr.forallb is_lower_alnum "prodaaaaaaalocalhost" = true /\
   String.length "prodaaaaaaalocalhost" = 20 /\
   contains "prod" "prodaaaaaaalocalhost" = true /\
   @is_trusted_host accept_all DEFAULT_TRUSTED_DOMAINS "prodaaaaaaalocalhost"
   = Ok true) /\
  (String.length "a.storage.azure.com" = 19 /\
   @is_trusted_host accept_all DEFAULT_TRUSTED_DOMAINS "a.storage.azure.com"
   = Ok true) /\
  (String.length "spark1234triprodeus" = 19 /\
   @is_trusted_host accept_all DEFAULT_TRUSTED_DOMAINS "spark1234triprodeus"
   = Ok true).
Proof. repeat split; vm_compute; reflexivity. Qed.

(** C5. In every analysis of a log file the records of [connections] are
    split between [trusted_connections] and [external_connections]: a mask
    over [connections] sends each record to exactly one of the two. *)
Theorem C5_trusted_external_partition {checks : UrlChecks}
    (domains : list string) (fs : filesystem) (log_file_path : string) :
  exists mask,
    partitioned_by mask (analyze_single_log_file domains fs log_file_path).
Proof.
  destruct (analyze_batch domains fs log_file_path) as [cs Hcs].
  exists (map snd cs). exact (partitioned_of_batch cs _ _ Hcs).
Qed.

(** C6. For a path that does not exist the analysis says so and holds
    nothing else: empty lists, size 0, no error. *)
Theorem C6_missing_file {checks : UrlChecks}
    (domains : list string) (fs : filesystem) (log_file_path : string) :
  fs log_file_path = None ->
  analyze_single_log_file domains fs log_file_path
  = mkAnalysis log_file_path [] [] [] [] [] false 0 None.
Proof. intros H. unfold analyze_single_log_file. now rewrite H. Qed.

Lemma C6_missing_file_witness :
  @analyze_single_log_file accept_all DEFAULT_TRUSTED_DOMAINS (fun _ => None)
    "logs/stderr"
  = mkAnalysis "logs/stderr" [] [] [] [] [] false 0 None.
Proof.
  apply (@C6_missing_file accept_all DEFAULT_TRUSTED_DOMAINS (fun _ => None)).
  reflexivity.
Defined.

(** C7. Whatever runs an analyzer has made, the sessions of the external
    view are sessions of the outbound view: the external view is the
    outbound view restricted to the summaries with external connections,
    less the two keys only the outbound view has.  Both views list sessions
    of [session_results]: the outbound view those with a record in some
    [connections], the external view those with a record in some
    [external_connections], and a session of the second kind is of the
    first.  A session with trusted records and no external one is in the
    outbound view and not in the external one. *)
Theorem C7_outbound_superset {checks : UrlChecks} (st : analyzer) :
  reachable st ->
  let external := get_sessions_with_external_connections (session_results st) in
  let outbound := get_sessions_with_outbound_connections (session_results st) in
  external = map forget (filter external_present outbound) /\
  (forall e, In e external -> exists o, In o outbound /\ forget o = e) /\
  (forall e, In e external ->
     exists s, In s (session_results st) /\ e = external_summary s) /\
  (forall o, In o outbound ->
     exists s, In s (session_results st) /\ o = outbound_summary s) /\
  (forall s,
      In s (session_results st) ->
      (In (external_summary s) external <-> some_record external_connections s) /\
      (In (outbound_summary s) outbound <-> some_record connections s) /\
      (some_record external_connections s -> some_record connections s) /\
      (some_record trusted_connections s ->
       (forall log_type a,
           In (log_type, a) (log_analyses s) -> external_connections a = []) ->
       In (outbound_summary s) outbound /\ ~ In (external_summary s) external)).
Proof.
  intros Hreach external outbound. subst external outbound.
  pose proof (reachable_sound st Hreach) as Hsound.
  pose proof (external_view_of_outbound _ Hsound) as Hview.
  split; [exact Hview|]. split; [|split; [|split]].
  - rewrite Hview. intros e (o & Ho & [Hin _]%filter_In)%in_map_iff. now exists o.
  - intros e (s & Hs & _ & ->)%external_view_member. now exists s.
  - intros o (s & Hs & _ & ->)%outbound_view_member. now exists s.
  - intros s Hs. rewrite Forall_forall in Hsound. specialize (Hsound s Hs).
    assert (Hsub : forall key,
               key = external_connections \/ key = trusted_connections ->
               some_record key s -> some_record connections s).
    { intros key Hkey H%has_some_record. apply has_some_record.
      exact (sound_has key s Hkey Hsound H). }
    split; [now apply summary_in_external_view|].
    split; [now apply summary_in_outbound_view|].
    split; [apply Hsub; now left|].
    intros Ht Hnone. split.
    + apply summary_in_outbound_view; [exact Hs|]. apply (Hsub trusted_connections); auto.
    + intros (lt & a & Hin & Ha)%summary_in_external_view; [|exact Hs].
      apply Ha. exact (Hnone lt a Hin).
Qed.

Lemma C7_outbound_superset_witness :
  In (outbound_summary quiet_session)
     (get_sessions_with_outbound_connections (session_results (fst views_rerun))) /\
  ~ In (external_summary quiet_session)
       (get_sessions_with_external_connections (session_results (fst views_rerun))).
Proof.
  assert (Hreach : @reachable accept_all (fst views_rerun)).
  { apply (reach_run views_world (fst views_run) (fst views_rerun) (snd views_rerun)).
    - apply (reach_run views_world (__init__ (Some "consolidated.json") None)
               (fst views_run) (snd views_run)).
      + apply reach_init.
      + vm_compute. reflexivity.
    - vm_compute. reflexivity. }
  destruct (@C7_outbound_superset accept_all (fst views_rerun) Hreach)
    as (_ & _ & _ & _ & Hsessions).
  destruct (Hsessions quiet_session) as (_ & _ & _ & Hquiet).
  { vm_compute. left. reflexivity. }
  apply Hquiet.
  - exists "stdout", quiet_analysis. split.
    + vm_compute. left. reflexivity.
    + vm_compute. discriminate.
  - intros log_type a Hin. vm_compute in Hin. destruct Hin as [Hin|[]].
    injection Hin as _ <-. reflexivity.
Defined.

(** The inclusion rests on what a run writes, an analysis whose external
    and trusted records are records of its connections.  A
    [session_results] put together by hand without that is in the external
    view and not in the outbound one. *)
Remark views_of_hand_made_results :
  get_sessions_with_external_connections [stray_session]
  = [external_summary stray_session] /\
  get_sessions_with_outbound_connections [stray_session] = [].
Proof. split; vm_compute; reflexivity. Qed.

(** C8. Normalization and classification answer on every string: the
    exceptions of [urlparse] are swallowed and no indexing fails. *)
Theorem C8_total {checks : UrlChecks} (domains : list string) (host : string) :
  (exists h, _extract_hostname host = Ok h) /\
  (exists b, is_trusted_host domains host = Ok b).
Proof.
  split; [apply extract_hostname_total|apply is_trusted_host_total].
Qed.

(** C9. A line matched by two distinct connection patterns yields two
    distinct records, one for each of them; the records of the line are as
    many as the patterns that match it. *)
Theorem C9_one_record_per_pattern {checks : UrlChecks}
    (domains : list string) (fs : filesystem) (path : string) (f : file)
    (size : nat) (lines : list string) (failure : option exn)
    (i : nat) (line : string) (j k : nat) (pj pk : pattern) (mj mk : rematch) :
  fs path = Some f -> getsize f = Ok size -> opened f = Ok (lines, failure) ->
  nth_error lines i = Some line ->
  nth_error CONNECTION_PATTERNS j = Some pj ->
  nth_error CONNECTION_PATTERNS k = Some pk ->
  j <> k ->
  search pj line = Some mj -> search pk line = Some mk ->
  In (connection_of (S i) line pj mj)
     (connections (analyze_single_log_file domains fs path)) /\
  In (connection_of (S i) line pk mk)
     (connections (analyze_single_log_file domains fs path)) /\
  connection_of (S i) line pj mj <> connection_of (S i) line pk mk /\
  List.length (filter (on_line (S i))
                 (connections (analyze_single_log_file domains fs path)))
  = List.length (filter (is_match line) CONNECTION_PATTERNS).
Proof.
  intros Hf Hsize Hopen Hi Hj Hk Hjk Hmj Hmk.
  pose proof (line_record_in_connections domains fs path f size lines failure
                Hf Hsize Hopen i line) as Hin.
  repeat split.
  - apply Hin; [exact Hi|eapply nth_error_In; eassumption|exact Hmj].
  - apply Hin; [exact Hi|eapply nth_error_In; eassumption|exact Hmk].
  - intros Heq. apply (f_equal pattern_matched) in Heq. cbn in Heq.
    apply Hjk.
    pose proof catalogue_sources_distinct as Hnd.
    rewrite NoDup_nth_error in Hnd. apply Hnd.
    + rewrite length_map. apply nth_error_Some. congruence.
    + now rewrite (map_nth_error source _ _ Hj), (map_nth_error source _ _ Hk), Heq.
  - destruct (readable_lists domains fs path f size lines failure Hf Hsize Hopen)
      as [-> _].
    rewrite (on_line_file_records domains lines 1 i line Hi), length_map.
    apply line_records_length.
Qed.

Lemma C9_one_record_per_pattern_witness :
  In (connection_of 1 (with_newline https_blob_line) https_pattern
        (the_match https_pattern (with_newline https_blob_line)))
     (connections
        (@analyze_single_log_file accept_all DEFAULT_TRUSTED_DOMAINS
           (single_file "stdout" (text_file [with_newline https_blob_line]))
           "stdout")) /\
  In (connection_of 1 (with_newline https_blob_line) blob_pattern
        (the_match blob_pattern (with_newline https_blob_line)))
     (connections
        (@analyze_single_log_file accept_all DEFAULT_TRUSTED_DOMAINS
           (single_file "stdout" (text_file [with_newline https_blob_line]))
           "stdout")) /\
  connection_of 1 (with_newline https_blob_line) https_pattern
    (the_match https_pattern (with_newline https_blob_line))
  <> connection_of 1 (with_newline https_blob_line) blob_pattern
       (the_match blob_pattern (with_newline https_blob_line)) /\
  List.length
    (filter (on_line 1)
       (connections
          (@analyze_single_log_file accept_all DEFAULT_TRUSTED_DOMAINS
             (single_file "stdout" (text_file [with_newline https_blob_line]))
             "stdout")))
  = List.length (filter (is_match (with_newline https_blob_line)) CONNECTION_PATTERNS).
Proof.
  apply (@C9_one_record_per_pattern accept_all DEFAULT_TRUSTED_DOMAINS
           (single_file "stdout" (text_file [with_newline https_blob_line]))
           "stdout" (text_file [with_newline https_blob_line])
           (list_sum (map String.length [with_newline https_blob_line]))
           [with_newline https_blob_line] None
           0 (with_newline https_blob_line) 1 15 https_pattern blob_pattern
           (the_match https_pattern (with_newline https_blob_line))
           (the_match blob_pattern (with_newline https_blob_line))).
  - reflexivity.
  - reflexivity.
  - reflexivity.
  - reflexivity.
  - reflexivity.
  - reflexivity.
  - lia.
  - vm_compute. reflexivity.
  - vm_compute. reflexivity.
Defined.

(** C10 fails as stated: on a line that also carries an ABFS URL with a
    workspace UUID, the record whose host [()] normalizes to the empty
    string goes to [trusted_connections]. *)
Lemma C10_counterexample :
  @_extract_hostname accept_all "()" = Ok "" /\
  In (mkConnection 1 (Some "()") (Some "80") override_line
        (source connecting_pattern))
     (trusted_connections
        (@analyze_single_log_file accept_all DEFAULT_TRUSTED_DOMAINS
           (single_file "stderr" (text_file [with_newline override_line]))
           "stderr")) /\
  external_connections
    (@analyze_single_log_file accept_all DEFAULT_TRUSTED_DOMAINS
       (single_file "stderr" (text_file [with_newline override_line]))
       "stderr")
  = [].
Proof.
  split; [vm_compute; reflexivity|]. split; [|vm_compute; reflexivity].
  vm_compute. left. reflexivity.
Qed.

(** C10, as the code has it.  A host that normalizes to the empty string is
    not trusted by [is_trusted_host]; its record is categorised external,
    unless the line carries an ABFS URL with a workspace UUID, in which
    case the line-level override makes it trusted. *)
Theorem C10_empty_hostname {checks : UrlChecks}
    (domains : list string) (fs : filesystem) (path : string) (f : file)
    (size : nat) (lines : list string) (failure : option exn)
    (c : connection_info) (h line : string) :
  _extract_hostname h = Ok "" ->
  fs path = Some f -> getsize f = Ok size -> opened f = Ok (lines, failure) ->
  In c (connections (analyze_single_log_file domains fs path)) ->
  host c = Some h ->
  nth_error lines (line_number c - 1) = Some line ->
  is_trusted_host domains h = Ok false /\
  (workspace_abfs_line line = false ->
   In c (external_connections (analyze_single_log_file domains fs path)) /\
   ~ In c (trusted_connections (analyze_single_log_file domains fs path))) /\
  (workspace_abfs_line line = true ->
   In c (trusted_connections (analyze_single_log_file domains fs path)) /\
   ~ In c (external_connections (analyze_single_log_file domains fs path))).
Proof.
  intros Hh Hf Hsize Hopen Hc Hhost Hline.
  destruct (categorised domains fs path f size lines failure Hf Hsize Hopen
              c line Hc Hline) as [Ht He].
  rewrite (verdict_empty_host domains line c h Hhost Hh) in Ht, He.
  split; [now apply empty_hostname_untrusted|].
  split; intros Hw; rewrite Hw in Ht, He.
  - split; [now apply He|]. intros H%Ht. discriminate.
  - split; [now apply Ht|]. intros H%He. discriminate.
Qed.

Lemma C10_empty_hostname_witness :
  In (mkConnection 1 (Some "()") (Some "80") plain_line (source connecting_pattern))
     (external_connections
        (@analyze_single_log_file accept_all DEFAULT_TRUSTED_DOMAINS
           (single_file "stderr" (text_file [with_newline plain_line]))
           "stderr")) /\
  ~ In (mkConnection 1 (Some "()") (Some "80") plain_line (source connecting_pattern))
      (trusted_connections
         (@analyze_single_log_file accept_all DEFAULT_TRUSTED_DOMAINS
            (single_file "stderr" (text_file [with_newline plain_line]))
            "stderr")).
Proof.
  apply (proj1 (proj2
    (@C10_empty_hostname accept_all DEFAULT_TRUSTED_DOMAINS
       (single_file "stderr" (text_file [with_newline plain_line]))
       "stderr" (text_file [with_newline plain_line])
       (list_sum (map String.length [with_newline plain_line]))
       [with_newline plain_line] None
       (mkConnection 1 (Some "()") (Some "80") plain_line (source connecting_pattern))
       "()" (with_newline plain_line)
       ltac:(vm_compute; reflexivity) eq_refl eq_refl eq_refl
       ltac:(vm_compute; left; reflexivity) eq_refl eq_refl))).
  vm_compute. reflexivity.
Defined.

(** The run of the example: one session, one external and one trusted
    connection, present in both views. *)
Example demo_views :
  map (fun e => (Summary.total_external_connections e,
                 Summary.total_trusted_connections e))
      (get_sessions_with_external_connections (session_results (fst demo_run)))
  = [(1, 1)] /\
  map Summary.total_connections
      (get_sessions_with_outbound_connections (session_results (fst demo_run)))
  = [Some 2].
Proof. split; vm_compute; reflexivity. Qed.

(** * Further properties *)

(** ** The analysis of a file as a function of what was read *)

Lemma extend_nil (r : analysis) : extend [] [] [] r = r.
Proof. destruct r; unfold extend; cbn. now rewrite !app_nil_r. Qed.

Lemma extend_extend c1 p1 l1 c2 p2 l2 (r : analysis) :
  extend c2 p2 l2 (extend c1 p1 l1 r) = extend (c1 ++ c2) (p1 ++ p2) (l1 ++ l2) r.
Proof.
  unfold extend; cbn. now rewrite !filter_app, !map_app, !app_assoc.
Qed.

Lemma push_extend cs (r : analysis) : push cs r = extend cs [] [] r.
Proof. unfold push, extend. now rewrite !app_nil_r. Qed.

Lemma scan_pip_spec n line ps (r : analysis) :
  scan_pip n line ps r = extend [] (pip_records n line ps) [] r.
Proof.
  revert r; induction ps as [|p ps IH]; intros r; cbn [scan_pip pip_records flat_map].
  - now rewrite extend_nil.
  - fold (pip_records n line ps). destruct (search p line) as [m|]; [|apply IH].
    rewrite IH.
    replace (add_pip (mkPip n (group m 1) (strip_ws line) (source p)) r)
      with (extend [] [mkPip n (group m 1) (strip_ws line) (source p)] [] r).
    + now rewrite extend_extend.
    + unfold extend, add_pip; cbn. now rewrite !app_nil_r.
Qed.

Lemma scan_logging_spec n line ps (r : analysis) :
  scan_logging n line ps r = extend [] [] (logging_records n line ps) r.
Proof.
  revert r; induction ps as [|p ps IH]; intros r;
    cbn [scan_logging logging_records flat_map].
  - now rewrite extend_nil.
  - fold (logging_records n line ps). destruct (search p line) as [m|]; [|apply IH].
    rewrite IH.
    replace (add_logging (mkLogging n (strip_ws line) (source p)) r)
      with (extend [] [] [mkLogging n (strip_ws line) (source p)] r).
    + now rewrite extend_extend.
    + unfold extend, add_logging; cbn. now rewrite !app_nil_r.
Qed.

Section FullScan.
Context {checks : UrlChecks}.
Variable domains : list string.

Lemma scan_lines_full n lines (r : analysis) :
  scan_lines domains n lines r
  = (extend (file_records domains n lines) (file_pip_records n lines)
       (file_logging_records n lines) r,
     Ok tt).
Proof.
  revert n r; induction lines as [|line rest IH]; intros n r;
    cbn [scan_lines file_records file_pip_records file_logging_records].
  - now rewrite extend_nil.
  - rewrite scan_connections_spec, scan_pip_spec, scan_logging_spec, IH, push_extend.
    rewrite !extend_extend. cbn [app]. now rewrite ?app_nil_r.
Qed.

(** The analysis is determined by the size reported, the lines read before
    a failure and the failure. *)
Lemma analyze_single_log_file_full (fs : filesystem) (path : string) :
  analyze_single_log_file domains fs path
  = mkAnalysis path
      (map fst (file_records domains 1 (lines_read (fs path))))
      (map fst (filter is_external (file_records domains 1 (lines_read (fs path)))))
      (map fst (filter snd (file_records domains 1 (lines_read (fs path)))))
      (file_pip_records 1 (lines_read (fs path)))
      (file_logging_records 1 (lines_read (fs path)))
      (present (fs path))
      (size_reported (fs path))
      (option_map str_exn (failure_met (fs path))).
Proof.
  unfold analyze_single_log_file, scan_file.
  destruct (fs path) as [[[size|e] op]|]; [| |reflexivity];
    cbn [getsize opened lines_read size_reported failure_met present].
  - destruct op as [[lines failure]|e].
    + rewrite scan_lines_full. destruct failure; reflexivity.
    + reflexivity.
  - reflexivity.
Qed.

End FullScan.

(** ** What a match consumes and binds *)

Lemma drop_drop (a b : nat) (s : string) : drop b (drop a s) = drop (a + b) s.
Proof.
  revert s; induction a as [|a IH]; intros s; [reflexivity|].
  destruct s as [|c s]; cbn; [now destruct b|apply IH].
Qed.

Lemma drop_length (d : nat) (s : string) :
  String.length (drop d s) = String.length s - d.
Proof.
  revert s; induction d as [|d IH]; intros s; cbn; [lia|].
  destruct s as [|c s]; cbn; [reflexivity|apply IH].
Qed.

Lemma substring_filled (d : nat) (s : string) :
  1 <= d -> d <= String.length s -> substring 0 d s <> "".
Proof.
  destruct d as [|d]; [lia|]. destruct s as [|c s]; cbn; [lia|discriminate].
Qed.

Lemma rep_match_cons (p : ascii -> bool) (g : bool) (lo : nat) (hi : option nat)
    (k : nat -> string -> option caps) (pos : nat) (x : ascii) (s : string) :
  rep_match p g lo hi k pos (String x s)
  = let more :=
      match hi with
      | Some 0 => None
      | _ => if p x
             then rep_match p g (pred lo) (option_map pred hi) k (S pos) s
             else None
      end in
    let stop := if Nat.eqb lo 0 then k pos (String x s) else None in
    if g then match more with Some m => Some m | None => stop end
    else match stop with Some m => Some m | None => more end.
Proof. destruct g, hi as [[|n]|]; reflexivity. Qed.

Lemma rep_match_consumes (p : ascii -> bool) (g : bool)
    (k : nat -> string -> option caps) (out : caps) (s : string) :
  forall lo hi pos,
    rep_match p g lo hi k pos s = Some out ->
    exists d, lo <= d /\ d <= String.length s /\ k (pos + d) (drop d s) = Some out.
Proof.
  induction s as [|x s IH]; intros lo hi pos H.
  - assert (Hstop : (if Nat.eqb lo 0 then k pos "" else None) = Some out).
    { cbn [rep_match] in H.
      destruct g, hi as [[|n]|]; destruct (Nat.eqb lo 0);
        try congruence; destruct (k pos ""); congruence. }
    destruct (Nat.eqb_spec lo 0); [|discriminate]. subst.
    exists 0. rewrite Nat.add_0_r. cbn. auto.
  - assert (Hstop : (if Nat.eqb lo 0 then k pos (String x s) else None) = Some out ->
                    exists d, lo <= d /\ d <= String.length (String x s) /\
                              k (pos + d) (drop d (String x s)) = Some out).
    { destruct (Nat.eqb_spec lo 0); [|discriminate]. subst. intros Hk.
      exists 0. rewrite Nat.add_0_r. cbn. auto with arith. }
    assert (Hmore : rep_match p g (pred lo) (option_map pred hi) k (S pos) s = Some out ->
                    exists d, lo <= d /\ d <= String.length (String x s) /\
                              k (pos + d) (drop d (String x s)) = Some out).
    { intros (d & Hlo & Hd & Hk)%IH. exists (S d). cbn [String.length drop].
      rewrite Nat.add_succ_r. repeat split; [lia|lia|exact Hk]. }
    rewrite rep_match_cons in H.
    set (more := match hi with
                 | Some 0 => None
                 | _ => if p x
                        then rep_match p g (pred lo) (option_map pred hi) k (S pos) s
                        else None
                 end) in H.
    assert (Hmore' : more = Some out ->
                     exists d, lo <= d /\ d <= String.length (String x s) /\
                               k (pos + d) (drop d (String x s)) = Some out).
    { unfold more. intros Hm. apply Hmore.
      destruct hi as [[|n]|]; [discriminate| |]; destruct (p x); congruence. }
    destruct g.
    + destruct more as [m|]; [apply Hmore'; congruence|now apply Hstop].
    + destruct (if Nat.eqb lo 0 then k pos (String x s) else None) as [m|] eqn:E.
      * apply Hstop. congruence.
      * now apply Hmore'.
Qed.

(** A successful match calls its continuation after at least [minlen r]
    characters, with a non-empty text for every group [n] if the pattern
    is solid for [n], and with group [n] bound if the pattern binds it. *)
Lemma rmatch_trace (ic : bool) (n : nat) (r : regex) :
  solid n r = true ->
  forall k pos s cs out,
    rmatch ic r k pos s cs = Some out -> filled n cs ->
    exists d cs',
      minlen r <= d /\ d <= String.length s /\ filled n cs' /\
      (lookup n cs <> None -> lookup n cs' <> None) /\
      (binds n r = true -> lookup n cs' <> None) /\
      k (pos + d) (drop d s) cs' = Some out.
Proof.
  induction r as [ |c|g lo hi c|r1 IH1 r2 IH2|r1 IH1 r2 IH2|r1 IH1|m r1 IH1| | ];
    intros Hsolid k pos s cs out H Hcs; cbn [rmatch] in H; cbn [minlen binds].
  - exists 0, cs. rewrite Nat.add_0_r. cbn. repeat split; auto with arith; try discriminate.
  - destruct s as [|x s]; [discriminate|]. destruct (cls_match ic c x); [|discriminate].
    exists 1, cs. rewrite Nat.add_1_r. cbn. repeat split; auto with arith; try lia; try discriminate.
  - apply rep_match_consumes in H as (d & Hlo & Hd & Hk).
    exists d, cs. repeat split; auto; try discriminate.
  - cbn [solid] in Hsolid. apply andb_prop in Hsolid as [S1 S2].
    destruct (IH1 S1 _ _ _ _ _ H Hcs) as (d1 & cs1 & M1 & L1 & F1 & K1 & B1 & H1).
    destruct (IH2 S2 _ _ _ _ _ H1 F1) as (d2 & cs2 & M2 & L2 & F2 & K2 & B2 & H2).
    rewrite drop_length in L2. rewrite drop_drop, <- Nat.add_assoc in H2.
    exists (d1 + d2), cs2. repeat split; auto; try lia.
    intros [Hb|Hb]%orb_prop; auto.
  - cbn [solid] in Hsolid. apply andb_prop in Hsolid as [S1 S2].
    destruct (rmatch ic r1 k pos s cs) as [o|] eqn:E.
    + injection H as ->.
      destruct (IH1 S1 _ _ _ _ _ E Hcs) as (d & cs' & M & L & F & K & B & H').
      exists d, cs'. repeat split; auto; try lia.
      intros [Hb _]%andb_prop. auto.
    + destruct (IH2 S2 _ _ _ _ _ H Hcs) as (d & cs' & M & L & F & K & B & H').
      exists d, cs'. repeat split; auto; try lia.
      intros [_ Hb]%andb_prop. auto.
  - cbn [solid] in Hsolid.
    destruct (rmatch ic r1 k pos s cs) as [o|] eqn:E.
    + injection H as ->.
      destruct (IH1 Hsolid _ _ _ _ _ E Hcs) as (d & cs' & M & L & F & K & B & H').
      exists d, cs'. repeat split; auto; try lia; try discriminate.
    + exists 0, cs. rewrite Nat.add_0_r. cbn. repeat split; auto with arith; try discriminate.
  - cbn [solid] in Hsolid. apply andb_prop in Hsolid as [Sm S1].
    destruct (IH1 S1 _ _ _ _ _ H Hcs) as (d & cs' & M & L & F & K & B & H').
    exists d, ((m, substring 0 (pos + d - pos) s) :: cs').
    replace (pos + d - pos) with d in * by lia.
    repeat split; auto.
    + intros t. cbn [lookup]. destruct (Nat.eqb_spec m n) as [->|Hmn]; [|apply F].
      intros [= <-]. cbn [negb orb] in Sm.
      apply Nat.leb_le in Sm. apply substring_filled; lia.
    + intros Hn. cbn [lookup]. destruct (Nat.eqb m n); [discriminate|auto].
    + intros Hb. cbn [lookup]. destruct (Nat.eqb m n); [discriminate|].
      cbn in Hb. auto.
  - destruct (Nat.eqb pos 0); [|discriminate].
    exists 0, cs. rewrite Nat.add_0_r. cbn. repeat split; auto with arith; try discriminate.
  - destruct (_ || _); [|discriminate].
    exists 0, cs. rewrite Nat.add_0_r. cbn. repeat split; auto with arith; try discriminate.
Qed.

Lemma search_from_found (ic : bool) (r : regex) (s : string) :
  forall pos cs,
    search_from ic r pos s = Some cs ->
    exists pos' s', rmatch ic r accept pos' s' [] = Some cs.
Proof.
  induction s as [|c s IH]; intros pos cs; cbn [search_from].
  - destruct (rmatch ic r accept pos "" []) eqn:E; [|discriminate].
    intros [= <-]. eauto.
  - destruct (rmatch ic r accept pos (String c s) []) eqn:E.
    + intros [= <-]. eauto.
    + apply IH.
Qed.

(** The groups of a match object. *)
Lemma search_groups (p : pattern) (line : string) (m : rematch) (n : nat) :
  solid n (tree p) = true ->
  search p line = Some m ->
  absent_or_filled (group m n) /\
  (binds n (tree p) = true -> exists t, group m n = Some t /\ t <> "").
Proof.
  intros Hsolid. unfold search.
  destruct (search_from (ignorecase p) (tree p) 0 line) as [cs|] eqn:E; [|discriminate].
  intros [= <-]. unfold group; cbn [m_caps].
  apply search_from_found in E as (pos' & s' & E).
  assert (Hnil : filled n []) by (intros t; discriminate).
  destruct (rmatch_trace _ n _ Hsolid _ _ _ _ _ E Hnil)
    as (d & cs' & _ & _ & F & _ & B & Hk).
  unfold accept in Hk. injection Hk as ->.
  split; [exact F|]. intros Hb. specialize (B Hb).
  destruct (lookup n cs) as [t|] eqn:Ht; [|congruence].
  exists t. split; [reflexivity|]. now apply F.
Qed.

(** ** Records of the other two kinds *)

Lemma in_pip_records n line ps (i : pip_info) :
  In i (pip_records n line ps) <->
  exists p m, In p ps /\ search p line = Some m /\
              i = mkPip n (group m 1) (strip_ws line) (source p).
Proof.
  unfold pip_records. rewrite in_flat_map. split.
  - intros (p & Hp & Hin). destruct (search p line) as [m|] eqn:Hm; [|destruct Hin].
    destruct Hin as [<-|[]]. now exists p, m.
  - intros (p & m & Hp & Hm & ->). exists p. split; [exact Hp|].
    rewrite Hm. now left.
Qed.

Lemma in_logging_records n line ps (i : logging_info) :
  In i (logging_records n line ps) <->
  exists p, In p ps /\ is_match line p = true /\
            i = mkLogging n (strip_ws line) (source p).
Proof.
  unfold logging_records, is_match. rewrite in_flat_map. split.
  - intros (p & Hp & Hin). destruct (search p line) as [m|] eqn:Hm; [|destruct Hin].
    destruct Hin as [<-|[]]. exists p. now rewrite Hm.
  - intros (p & Hp & Hm & ->). exists p. split; [exact Hp|].
    destruct (search p line); [now left|discriminate].
Qed.

Lemma in_file_pip_records n0 lines (x : pip_info) :
  In x (file_pip_records n0 lines) <->
  exists i line, nth_error lines i = Some line /\
                 In x (pip_records (n0 + i) line PIP_PATTERNS).
Proof.
  revert n0; induction lines as [|l rest IH]; intros n0; cbn [file_pip_records].
  - split; [intros []|]. intros (i & line & Hi & _). now destruct i.
  - rewrite in_app_iff, IH. split.
    + intros [H|(i & line & Hi & H)].
      * exists 0, l. now rewrite Nat.add_0_r.
      * exists (S i), line. now rewrite Nat.add_succ_r.
    + intros (i & line & Hi & H). destruct i as [|i].
      * left. cbn in Hi. injection Hi as ->. now rewrite Nat.add_0_r in H.
      * right. exists i, line. now rewrite Nat.add_succ_r in H.
Qed.

Lemma in_file_logging_records n0 lines (x : logging_info) :
  In x (file_logging_records n0 lines) <->
  exists i line, nth_error lines i = Some line /\
                 In x (logging_records (n0 + i) line LOGGING_PATTERNS).
Proof.
  revert n0; induction lines as [|l rest IH]; intros n0; cbn [file_logging_records].
  - split; [intros []|]. intros (i & line & Hi & _). now destruct i.
  - rewrite in_app_iff, IH. split.
    + intros [H|(i & line & Hi & H)].
      * exists 0, l. now rewrite Nat.add_0_r.
      * exists (S i), line. now rewrite Nat.add_succ_r.
    + intros (i & line & Hi & H). destruct i as [|i].
      * left. cbn in Hi. injection Hi as ->. now rewrite Nat.add_0_r in H.
      * right. exists i, line. now rewrite Nat.add_succ_r in H.
Qed.

Lemma catalogue_captures_host :
  List.forallb captures_host CONNECTION_PATTERNS = true.
Proof. vm_compute. reflexivity. Qed.

Lemma pip_catalogue_captures_package :
  List.forallb (fun p => binds 1 (tree p) && solid 1 (tree p)) PIP_PATTERNS = true.
Proof. vm_compute. reflexivity. Qed.

(** X1. Every record of an analysis holds a host that is a non-empty string;
    its port is absent or a non-empty string; every pip record holds a
    non-empty package.  No pattern of the two catalogues can leave group 1
    out of a match or capture an empty text. *)
Theorem records_hold_strings {checks : UrlChecks}
    (domains : list string) (fs : filesystem) (path : string) :
  (forall c,
      In c (connections (analyze_single_log_file domains fs path)) ->
      (exists h, host c = Some h /\ h <> "") /\ absent_or_filled (port c)) /\
  (forall i,
      In i (pip_installs (analyze_single_log_file domains fs path)) ->
      exists pkg, package i = Some pkg /\ pkg <> "").
Proof.
  rewrite analyze_single_log_file_full. cbn [connections pip_installs]. split.
  - intros c ([c' b] & <- & Hin)%in_map_iff.
    apply in_file_records in Hin as (i & line & _ & Hin).
    apply in_line_records in Hin as (p & m & Hp & Hm & -> & _).
    pose proof catalogue_captures_host as Hall.
    rewrite List.forallb_forall in Hall. specialize (Hall p Hp).
    unfold captures_host in Hall.
    apply andb_prop in Hall as [[Hb Hs1]%andb_prop Hs2].
    cbn [fst host port connection_of]. split.
    + exact (proj2 (search_groups p line m 1 Hs1 Hm) Hb).
    + destruct (1 <? m_ngroups m); [|intros t; discriminate].
      exact (proj1 (search_groups p line m 2 Hs2 Hm)).
  - intros x (i & line & _ & Hin)%in_file_pip_records.
    apply in_pip_records in Hin as (p & m & Hp & Hm & ->).
    pose proof pip_catalogue_captures_package as Hall.
    rewrite List.forallb_forall in Hall. specialize (Hall p Hp).
    apply andb_prop in Hall as [Hb Hs1]. cbn [package].
    exact (proj2 (search_groups p line m 1 Hs1 Hm) Hb).
Qed.

(** ** Line order *)

Lemma sorted_after_run (n : nat) (l1 l2 : list nat) :
  Forall (eq n) l1 -> Forall (le (S n)) l2 -> StronglySorted le l2 ->
  StronglySorted le (l1 ++ l2).
Proof.
  intros H1 H2 Hs. induction l1 as [|x l1 IH]; [exact Hs|].
  inversion H1 as [|? ? <- H1']; subst.
  cbn. constructor; [now apply IH|].
  apply Forall_app. split.
  - eapply Forall_impl; [|exact H1']. intros y <-. constructor.
  - eapply Forall_impl; [|exact H2]. intros y Hy. lia.
Qed.

Lemma sorted_numbers {A} (number : A -> nat) (per_line : nat -> string -> list A)
    (per_file : nat -> list string -> list A) :
  (forall n line x, In x (per_line n line) -> number x = n) ->
  (forall n, per_file n [] = []) ->
  (forall n line rest,
      per_file n (line :: rest) = per_line n line ++ per_file (S n) rest) ->
  forall lines n,
    StronglySorted le (map number (per_file n lines)) /\
    Forall (fun k => n <= k < n + List.length lines) (map number (per_file n lines)).
Proof.
  intros Hline Hnil Hcons lines.
  induction lines as [|line rest IH]; intros n.
  - rewrite Hnil. split; constructor.
  - rewrite Hcons, map_app. destruct (IH (S n)) as [Hs Hb].
    assert (Hrun : Forall (eq n) (map number (per_line n line))).
    { apply Forall_forall. intros k (x & <- & Hx)%in_map_iff.
      symmetry. now apply (Hline n line). }
    split.
    + apply (sorted_after_run n); [exact Hrun| |exact Hs].
      eapply Forall_impl; [|exact Hb]. intros k Hk. cbv beta in Hk. lia.
    + apply Forall_app. split.
      * eapply Forall_impl; [|exact Hrun]. intros k <-. cbn. lia.
      * eapply Forall_impl; [|exact Hb]. intros k Hk. cbv beta in Hk. cbn. lia.
Qed.

(** X2. The records of each list are in line order, and their line numbers are
    those of lines that were read. *)
Theorem records_in_line_order {checks : UrlChecks}
    (domains : list string) (fs : filesystem) (path : string) :
  let a := analyze_single_log_file domains fs path in
  let in_range k := 1 <= k <= List.length (lines_read (fs path)) in
  (StronglySorted le (map line_number (connections a)) /\
   Forall in_range (map line_number (connections a))) /\
  (StronglySorted le (map pip_line_number (pip_installs a)) /\
   Forall in_range (map pip_line_number (pip_installs a))) /\
  (StronglySorted le (map logging_line_number (logging_config a)) /\
   Forall in_range (map logging_line_number (logging_config a))).
Proof.
  cbv zeta. rewrite analyze_single_log_file_full.
  cbn [connections pip_installs logging_config].
  assert (Hrange : forall l : list nat,
             Forall (fun k => 1 <= k < 1 + List.length (lines_read (fs path))) l ->
             Forall (fun k => 1 <= k <= List.length (lines_read (fs path))) l).
  { intros l. apply Forall_impl. intros k Hk. cbv beta in Hk. lia. }
  repeat split; try apply Hrange.
  1,2: rewrite map_map;
    apply (sorted_numbers (fun x => line_number (fst x))
             (fun n line => line_records domains n line CONNECTION_PATTERNS)
             (file_records domains)); try reflexivity;
    intros n line [c b] (p & m & _ & _ & -> & _)%in_line_records; reflexivity.
  1,2: apply (sorted_numbers pip_line_number
             (fun n line => pip_records n line PIP_PATTERNS)
             file_pip_records); try reflexivity;
    intros n line x (p & m & _ & _ & ->)%in_pip_records; reflexivity.
  1,2: apply (sorted_numbers logging_line_number
             (fun n line => logging_records n line LOGGING_PATTERNS)
             file_logging_records); try reflexivity;
    intros n line x (p & _ & _ & ->)%in_logging_records; reflexivity.
Qed.

(** ** Unreadable files *)

(** X3. When [os.path.getsize] or [open] fails the analysis is empty and
    carries the message; when the read breaks off, the records of the lines
    already read are kept: the analysis is the one of the same lines read
    to the end, with the message added. *)
Theorem read_failure_keeps_records {checks : UrlChecks}
    (domains : list string) (fs : filesystem) (path : string) (f : file) :
  fs path = Some f ->
  (forall e, getsize f = Raise e ->
     analyze_single_log_file domains fs path
     = mkAnalysis path [] [] [] [] [] true 0 (Some (str_exn e))) /\
  (forall size e, getsize f = Ok size -> opened f = Raise e ->
     analyze_single_log_file domains fs path
     = mkAnalysis path [] [] [] [] [] true size (Some (str_exn e))) /\
  (forall size lines e, getsize f = Ok size -> opened f = Ok (lines, Some e) ->
     analyze_single_log_file domains fs path
     = set_error (str_exn e)
         (analyze_single_log_file domains
            (single_file path (healthy size lines)) path)).
Proof.
  intros Hf. rewrite analyze_single_log_file_full, Hf.
  destruct f as [gs op]; cbn [getsize opened]. repeat split.
  - intros e ->. reflexivity.
  - intros size e -> ->. reflexivity.
  - intros size lines e -> ->. rewrite analyze_single_log_file_full.
    unfold single_file. rewrite String.eqb_refl. reflexivity.
Qed.

Lemma read_failure_keeps_records_witness :
  @analyze_single_log_file accept_all DEFAULT_TRUSTED_DOMAINS
    (single_file "logs/stderr" broken_log) "logs/stderr"
  = set_error "Input/output error"
      (@analyze_single_log_file accept_all DEFAULT_TRUSTED_DOMAINS
         (single_file "logs/stderr"
            (healthy 64 [with_newline "connecting to localhost:8080";
                         with_newline "pip install requests"]))
         "logs/stderr").
Proof.
  apply (proj2 (proj2
    (@read_failure_keeps_records accept_all DEFAULT_TRUSTED_DOMAINS
       (single_file "logs/stderr" broken_log) "logs/stderr" broken_log eq_refl))
    64 [with_newline "connecting to localhost:8080";
        with_newline "pip install requests"]
    (OSError "Input/output error")); reflexivity.
Defined.

(** ** Counts of the outbound view *)

Lemma filter_split_length {A} (f : A -> bool) (l : list A) :
  List.length (filter f l) + List.length (filter (fun x => negb (f x)) l)
  = List.length l.
Proof.
  induction l as [|a l IH]; [reflexivity|]. cbn. destruct (f a); cbn; lia.
Qed.

Lemma partitioned_lengths (mask : list bool) (a : analysis) :
  partitioned_by mask a ->
  List.length (connections a)
  = List.length (external_connections a) + List.length (trusted_connections a).
Proof.
  intros (Hlen & -> & ->). rewrite !length_map.
  pose proof (filter_split_length (@snd connection_info bool)
                (combine (connections a) mask)) as H.
  unfold is_external. rewrite length_combine, Hlen, Nat.min_id in H. lia.
Qed.

Lemma list_sum_cons (a : nat) (l : list nat) : list_sum (a :: l) = a + list_sum l.
Proof. reflexivity. Qed.

Lemma total_sum key (las : dict analysis) :
  total key las = list_sum (map (fun item => List.length (key (snd item))) las).
Proof.
  induction las as [|item las IH]; [reflexivity|].
  rewrite total_cons, IH. cbn [map list_sum].
  now destruct (key (snd item)).
Qed.

Lemma sound_totals (s : SessionResult) :
  sound_session s ->
  total connections (log_analyses s)
  = total external_connections (log_analyses s)
    + total trusted_connections (log_analyses s).
Proof.
  unfold sound_session. rewrite !total_sum.
  generalize (log_analyses s). intros las0.
  induction 1 as [|item las [mask Hmask] _ IH]; [reflexivity|].
  cbn [map]. rewrite !list_sum_cons, IH, (partitioned_lengths mask _ Hmask). lia.
Qed.

Lemma outbound_view_origin (o : Summary.t) (rs : list SessionResult) :
  In o (get_sessions_with_outbound_connections rs) ->
  exists s, In s rs /\ o = outbound_summary s.
Proof.
  induction rs as [|r rs IH]; [intros []|].
  cbn [get_sessions_with_outbound_connections]. intros [H|H]%in_app_or.
  - destruct (has connections (log_analyses r)); [|destruct H].
    destruct H as [<-|[]]. exists r. split; [now left|reflexivity].
  - destruct (IH H) as (s & Hs & ->). exists s. split; [now right|reflexivity].
Qed.

(** X4. In every summary of the outbound view of a run the connections are the
    external plus the trusted ones, and there is at least one. *)
Theorem outbound_totals_add_up {checks : UrlChecks} (w : world)
    (path : option string) (domains : option (list string))
    (st : analyzer) (out : outcome (list SessionResult)) (o : Summary.t) :
  analyze_consolidated_logs w (__init__ path domains) = (st, out) ->
  In o (get_sessions_with_outbound_connections (session_results st)) ->
  exists n, Summary.total_connections o = Some n /\
            0 < n /\
            n = Summary.total_external_connections o
                + Summary.total_trusted_connections o.
Proof.
  intros Hrun Ho.
  assert (Hsound : Forall sound_session (session_results st)).
  { eapply analyze_consolidated_logs_sound; [|exact Hrun]. constructor. }
  assert (Hpos : Summary.total_connections o <> Some 0).
  { clear Hsound Hrun. induction (session_results st) as [|r rs IH]; [destruct Ho|].
    cbn [get_sessions_with_outbound_connections] in Ho.
    apply in_app_or in Ho as [H|H]; [|now apply IH].
    destruct (has connections (log_analyses r)) eqn:Hc; [|destruct H].
    destruct H as [<-|[]]. cbn. rewrite has_positive_total in Hc.
    apply Nat.ltb_lt in Hc. intros [= E]. lia. }
  apply outbound_view_origin in Ho as (s & Hs & ->).
  rewrite Forall_forall in Hsound. specialize (Hsound s Hs).
  exists (total connections (log_analyses s)). cbn in *.
  repeat split; [|now apply sound_totals].
  destruct (total connections (log_analyses s)); [congruence|lia].
Qed.

Lemma outbound_totals_add_up_witness :
  exists n,
    Summary.total_connections (outbound_summary (hd_session demo_run)) = Some n /\
    0 < n /\
    n = Summary.total_external_connections (outbound_summary (hd_session demo_run))
        + Summary.total_trusted_connections (outbound_summary (hd_session demo_run)).
Proof.
  apply (@outbound_totals_add_up accept_all demo_world (Some "consolidated.json")
           None (fst demo_run) (snd demo_run)).
  - vm_compute. reflexivity.
  - vm_compute. left. reflexivity.
Defined.

(** ** The session loop *)

Lemma dict_get_set_same {V} (key : string) (v : V) (d : dict V) :
  dict_get key (dict_set key v d) = Some v.
Proof.
  induction d as [|[k x] d IH]; cbn.
  - now rewrite String.eqb_refl.
  - destruct (k =? key)%string eqn:E; cbn; now rewrite E.
Qed.

Lemma dict_get_set_other {V} (key key' : string) (v : V) (d : dict V) :
  key' <> key -> dict_get key' (dict_set key v d) = dict_get key' d.
Proof.
  intros Hne. induction d as [|[k x] d IH]; cbn.
  - destruct (String.eqb_spec key key'); [congruence|reflexivity].
  - destruct (String.eqb_spec k key) as [->|Hk]; cbn.
    + destruct (String.eqb_spec key key'); [congruence|reflexivity].
    + destruct (k =? key')%string; [reflexivity|exact IH].
Qed.

Lemma dict_set_keys {V} (key : string) (v : V) (d : dict V) :
  map fst (dict_set key v d)
  = if existsb (String.eqb key) (map fst d) then map fst d else map fst d ++ [key].
Proof.
  induction d as [|[k x] d IH]; cbn; [reflexivity|].
  rewrite (String.eqb_sym key k).
  destruct (k =? key)%string; cbn; [reflexivity|].
  rewrite IH. now destruct (existsb (String.eqb key) (map fst d)).
Qed.

Lemma dict_set_NoDup {V} (key : string) (v : V) (d : dict V) :
  NoDup (map fst d) -> NoDup (map fst (dict_set key v d)).
Proof.
  intros Hd. rewrite dict_set_keys.
  destruct (existsb (String.eqb key) (map fst d)) eqn:E; [exact Hd|].
  apply NoDup_app; [exact Hd|repeat constructor; intros []|].
  intros k Hk [<-|[]].
  assert (existsb (String.eqb key) (map fst d) = true); [|congruence].
  apply existsb_exists. exists key. split; [exact Hk|apply String.eqb_refl].
Qed.

Lemma find_app {A} (f : A -> bool) (l1 l2 : list A) :
  List.find f (l1 ++ l2)
  = match List.find f l1 with
    | Some x => Some x
    | None => List.find f l2
    end.
Proof.
  induction l1 as [|a l1 IH]; [reflexivity|]. cbn. now destruct (f a).
Qed.

Lemma log_type_of_known (path : string) : In (log_type_of path) LOG_TYPES.
Proof.
  unfold log_type_of, LOG_TYPES.
  repeat match goal with |- context [if ?c then _ else _] => destruct c end;
    cbn; tauto.
Qed.

Section SessionFiles.
Context {checks : UrlChecks}.
Variable w : world.
Variable domains : list string.

Lemma analyze_files_keys files :
  forall d d',
    analyze_files w domains files d = Ok d' ->
    NoDup (map fst d) -> incl (map fst d) LOG_TYPES ->
    NoDup (map fst d') /\ incl (map fst d') LOG_TYPES.
Proof.
  induction files as [|file rest IH]; intros d d'; cbn [analyze_files].
  - intros [= <-]. auto.
  - destruct file as [ |b|n|log_file|items|fields]; try (intros H; discriminate H).
    intros Hrest Hnd Hincl. apply (IH _ _ Hrest); [now apply dict_set_NoDup|].
    rewrite dict_set_keys. destruct (existsb _ _); [exact Hincl|].
    apply incl_app; [exact Hincl|]. intros k [<-|[]]. apply log_type_of_known.
Qed.

Lemma analyze_files_strings paths :
  forall d,
    exists d',
      analyze_files w domains (map JStr paths) d = Ok d' /\
      forall log_type,
        dict_get log_type d'
        = match last_of_type log_type paths with
          | Some p => Some (analyze_single_log_file domains (log_files w) p)
          | None => dict_get log_type d
          end.
Proof.
  unfold last_of_type.
  induction paths as [|p rest IH]; intros d; cbn [map analyze_files].
  - exists d. split; [reflexivity|]. reflexivity.
  - destruct (IH (dict_set (log_type_of p)
                    (analyze_single_log_file domains (log_files w) p) d))
      as (d' & Hd' & Hget).
    exists d'. split; [exact Hd'|]. intros t. rewrite Hget.
    cbn [rev]. rewrite find_app.
    destruct (List.find (fun q => (log_type_of q =? t)%string) (rev rest)); [reflexivity|].
    cbn [List.find]. destruct (String.eqb_spec (log_type_of p) t) as [<-|Hne].
    + apply dict_get_set_same.
    + apply dict_get_set_other. congruence.
Qed.

(** X5. A session keeps one analysis per log type, four at most, and of the
    files of one type the last one: its analysis replaces the earlier
    ones. *)
Theorem last_file_of_a_type_wins (fields : list (string * json))
    (paths : list string) :
  dict_get "downloaded_files" fields = Some (JArr (map JStr paths)) ->
  exists r,
    analyze_session w domains (JObj fields) = Ok r /\
    NoDup (map fst (log_analyses r)) /\
    List.length (log_analyses r) <= 4 /\
    forall log_type,
      dict_get log_type (log_analyses r)
      = option_map (analyze_single_log_file domains (log_files w))
          (last_of_type log_type paths).
Proof.
  intros Hfiles. unfold analyze_session. cbn [get_default bind].
  rewrite Hfiles. cbn [py_iter bind].
  destruct (analyze_files_strings paths []) as (d & Hd & Hget).
  rewrite Hd. cbn [bind]. eexists. split; [reflexivity|]. cbn [log_analyses].
  destruct (analyze_files_keys _ _ _ Hd) as [Hnd Hincl];
    [constructor|intros k []|].
  repeat split.
  - exact Hnd.
  - rewrite <- (length_map fst).
    exact (NoDup_incl_length Hnd Hincl).
  - intros t. rewrite Hget. now destruct (last_of_type t paths).
Qed.

End SessionFiles.

Lemma last_file_of_a_type_wins_witness :
  exists r,
    @analyze_session accept_all demo_world DEFAULT_TRUSTED_DOMAINS
      (JObj [("downloaded_files",
              JArr (map JStr ["a/driver_stderr.log"; "logs/stderr"]))])
    = Ok r /\
    NoDup (map fst (log_analyses r)) /\
    List.length (log_analyses r) <= 4 /\
    forall log_type,
      dict_get log_type (log_analyses r)
      = option_map
          (@analyze_single_log_file accept_all DEFAULT_TRUSTED_DOMAINS
             (log_files demo_world))
          (last_of_type log_type ["a/driver_stderr.log"; "logs/stderr"]).
Proof.
  apply (@last_file_of_a_type_wins accept_all demo_world DEFAULT_TRUSTED_DOMAINS
           [("downloaded_files",
             JArr (map JStr ["a/driver_stderr.log"; "logs/stderr"]))]
           ["a/driver_stderr.log"; "logs/stderr"]).
  reflexivity.
Defined.

(** ** Runs *)

Section Runs.
Context {checks : UrlChecks}.
Variable w : world.

Lemma analyze_sessions_app (domains : list string) (sessions : list json) :
  forall done,
    analyze_sessions w domains sessions done
    = (done ++ fst (analyze_sessions w domains sessions []),
       snd (analyze_sessions w domains sessions [])).
Proof.
  induction sessions as [|session rest IH]; intros done; cbn [analyze_sessions].
  - now rewrite app_nil_r.
  - destruct (analyze_session w domains session) as [r|e].
    + rewrite (IH (done ++ [r])), (IH ([] ++ [r])). cbn [fst snd app].
      now rewrite <- app_assoc.
    + cbn. now rewrite app_nil_r.
Qed.

(** What a run does, by the way it ends. *)
Lemma run_cases (self st : analyzer) (out : outcome (list SessionResult)) :
  analyze_consolidated_logs w self = (st, out) ->
  (st = self /\ forall rs, out <> Returned rs) \/
  exists path doc sessions new o,
    consolidated_file_path self = Some path /\ path <> "" /\
    json_files w path = Loaded doc /\
    (log_summaries <- get_default "log_summaries" (JArr []) doc ;;
     py_iter log_summaries) = Ok sessions /\
    analyze_sessions w (trusted_domains self) sessions [] = (new, o) /\
    st = set_session_results (session_results self ++ new) self /\
    out = match o with
          | Ok _ => Returned (session_results self ++ new)
          | Raise e => Raised e
          end.
Proof.
  unfold analyze_consolidated_logs.
  destruct (consolidated_file_path self) as [[|c path]|] eqn:Hpath.
  1,3: intros [= <- <-]; left; split; [reflexivity|discriminate].
  destruct (json_files w (String c path)) as [ |msg|doc] eqn:Hload.
  1,2: intros [= <- <-]; left; split; [reflexivity|discriminate].
  destruct (bind _ _) as [sessions|e] eqn:Hdoc.
  2: intros [= <- <-]; left; split; [reflexivity|discriminate].
  rewrite (analyze_sessions_app (trusted_domains self) sessions (session_results self)).
  destruct (analyze_sessions w (trusted_domains self) sessions []) as [new o] eqn:Hnew.
  cbn [fst snd]. intros H. right.
  exists (String c path), doc, sessions, new, o.
  repeat split; auto; try discriminate; destruct o as [[]|e]; congruence.
Qed.

Lemma run_of_cases (self : analyzer) path doc sessions new o :
  consolidated_file_path self = Some path -> path <> "" ->
  json_files w path = Loaded doc ->
  (log_summaries <- get_default "log_summaries" (JArr []) doc ;;
   py_iter log_summaries) = Ok sessions ->
  analyze_sessions w (trusted_domains self) sessions [] = (new, o) ->
  analyze_consolidated_logs w self
  = (set_session_results (session_results self ++ new) self,
     match o with
     | Ok _ => Returned (session_results self ++ new)
     | Raise e => Raised e
     end).
Proof.
  intros Hpath Hne Hload Hdoc Hnew. unfold analyze_consolidated_logs.
  rewrite Hpath. destruct path as [|c path]; [congruence|].
  rewrite Hload, Hdoc, analyze_sessions_app, Hnew. cbn [fst snd].
  now destruct o as [[]|e].
Qed.

(** X6. A run only appends to [session_results] and changes nothing else of the
    analyzer; a run that returns hands back the whole list, and a run that
    exits has appended nothing. *)
Theorem run_only_appends (self st : analyzer) (out : outcome (list SessionResult)) :
  analyze_consolidated_logs w self = (st, out) ->
  consolidated_file_path st = consolidated_file_path self /\
  trusted_domains st = trusted_domains self /\
  (exists new, session_results st = session_results self ++ new) /\
  (forall rs, out = Returned rs -> rs = session_results st) /\
  (forall code, out = Exited code -> code = 1 /\ st = self).
Proof.
  intros H. pose proof (run_cases _ _ _ H) as [[-> Hout]|Hrun].
  - split; [reflexivity|]. split; [reflexivity|]. split; [|split].
    + exists []. now rewrite app_nil_r.
    + intros rs ->. now destruct (Hout rs).
    + intros code ->. split; [|reflexivity]. revert H.
      unfold analyze_consolidated_logs.
      destruct (consolidated_file_path self) as [[|c path]|]; try discriminate.
      destruct (json_files w (String c path)); try congruence.
      destruct (bind _ _); try discriminate.
      destruct (analyze_sessions _ _ _ _) as [rs [[]|e]]; discriminate.
  - destruct Hrun as (path & doc & sessions & new & o & _ & _ & _ & _ & _ & -> & ->).
    cbn [consolidated_file_path trusted_domains session_results set_session_results].
    split; [reflexivity|]. split; [reflexivity|]. split; [|split].
    + now exists new.
    + destruct o as [[]|e]; [|discriminate]. now intros rs [= <-].
    + destruct o as [[]|e]; discriminate.
Qed.

(** X7. [session_results] is never reset: after a run that returned, a second run
    on the same analyzer appends the same sessions once more, namely those a
    new analyzer with the same path and domains finds. *)
Theorem rerun_duplicates (self st : analyzer) (rs : list SessionResult) :
  analyze_consolidated_logs w self = (st, Returned rs) ->
  exists new,
    analyze_consolidated_logs w (fresh self)
    = (set_session_results new (fresh self), Returned new) /\
    rs = session_results self ++ new /\
    analyze_consolidated_logs w st
    = (set_session_results (rs ++ new) st, Returned (rs ++ new)).
Proof.
  intros H. pose proof (run_cases _ _ _ H) as [[_ Hout]|Hrun].
  - now destruct (Hout rs).
  - destruct Hrun as (path & doc & sessions & new & o & Hpath & Hne & Hload & Hdoc
                      & Hnew & -> & Hout).
    destruct o as [[]|e]; [|discriminate]. injection Hout as ->.
    exists new. split; [|split; [reflexivity|]].
    + now rewrite (run_of_cases (fresh self) path doc sessions new (Ok tt)).
    + now rewrite (run_of_cases (set_session_results _ self) path doc sessions new (Ok tt)).
Qed.


(** X8. A summary that is not an object stops the run with [AttributeError]:
    the sessions before it stay in [session_results], those after it are
    never analysed. *)
Theorem malformed_summary_stops_run (self : analyzer) (path : string)
    (fields : list (string * json)) (before after : list json) (bad : json)
    (done : list SessionResult) :
  consolidated_file_path self = Some path -> path <> "" ->
  json_files w path = Loaded (JObj fields) ->
  dict_get "log_summaries" fields = Some (JArr (before ++ bad :: after)) ->
  Forall2 (fun session r => analyze_session w (trusted_domains self) session = Ok r)
    before done ->
  is_object bad = false ->
  analyze_consolidated_logs w self
  = (set_session_results (session_results self ++ done) self, Raised AttributeError).
Proof.
  intros Hpath Hne Hload Hkey Hbefore Hbad. unfold analyze_consolidated_logs.
  rewrite Hpath. destruct path as [|c path]; [congruence|].
  rewrite Hload. cbn [get_default bind]. rewrite Hkey. cbn [py_iter].
  rewrite analyze_sessions_app.
  assert (Hloop : analyze_sessions w (trusted_domains self) (before ++ bad :: after) []
                  = (done, Raise AttributeError)).
  { clear Hkey. rewrite <- (app_nil_l done). generalize (@nil SessionResult) as acc.
    induction Hbefore as [|session r before done Hr _ IH]; intros acc;
      cbn [app analyze_sessions].
    - rewrite app_nil_r.
      assert (analyze_session w (trusted_domains self) bad = Raise AttributeError) as ->;
        [|reflexivity].
      destruct bad; try discriminate; reflexivity.
    - rewrite Hr, IH. now rewrite <- app_assoc. }
  rewrite Hloop. reflexivity.
Qed.

End Runs.

Lemma run_only_appends_witness :
  trusted_domains (fst demo_run) = DEFAULT_TRUSTED_DOMAINS.
Proof.
  exact (proj1 (proj2 (@run_only_appends accept_all demo_world
                         (__init__ (Some "consolidated.json") None)
                         (fst demo_run) (snd demo_run)
                         ltac:(vm_compute; reflexivity)))).
Defined.

Lemma rerun_duplicates_witness :
  exists new,
    @analyze_consolidated_logs accept_all demo_world
      (fresh (__init__ (Some "consolidated.json") None))
    = (set_session_results new (fresh (__init__ (Some "consolidated.json") None)),
       Returned new) /\
    session_results (fst demo_run) = [] ++ new /\
    @analyze_consolidated_logs accept_all demo_world (fst demo_run)
    = (set_session_results (session_results (fst demo_run) ++ new) (fst demo_run),
       Returned (session_results (fst demo_run) ++ new)).
Proof.
  apply (@rerun_duplicates accept_all demo_world
           (__init__ (Some "consolidated.json") None)
           (fst demo_run) (session_results (fst demo_run))).
  vm_compute. reflexivity.
Defined.

Lemma malformed_summary_stops_run_witness :
  @analyze_consolidated_logs accept_all torn_world
    (__init__ (Some "consolidated.json") None)
  = (set_session_results
       ([] ++ session_results (fst demo_run))
       (__init__ (Some "consolidated.json") None),
     Raised AttributeError).
Proof.
  apply (@malformed_summary_stops_run accept_all torn_world
           (__init__ (Some "consolidated.json") None) "consolidated.json"
           [("log_summaries",
             JArr [JObj [("notebook_name", JStr "nb");
                         ("livy_id", JStr "42");
                         ("downloaded_files", JArr [JStr "logs/stderr"])];
                   JStr "oops";
                   JObj [("notebook_name", JStr "later")]])]
           [JObj [("notebook_name", JStr "nb");
                  ("livy_id", JStr "42");
                  ("downloaded_files", JArr [JStr "logs/stderr"])]]
           [JObj [("notebook_name", JStr "later")]]
           (JStr "oops")).
  - reflexivity.
  - discriminate.
  - reflexivity.
  - reflexivity.
  - constructor; [vm_compute; reflexivity|constructor].
  - reflexivity.
Defined.

(** ** The list of trusted domains *)

Lemma trusted_domain_match_existsb (host_lower : string) (domains : list string) :
  trusted_domain_match host_lower domains = existsb (entry_matches host_lower) domains.
Proof.
  induction domains as [|d ds IH]; [reflexivity|].
  rewrite trusted_domain_match_cons. cbn [existsb]. unfold entry_matches at 1.
  cbv zeta. rewrite <- IH.
  destruct (host_lower =? lower d)%string; [reflexivity|].
  destruct (endswith host_lower ("." ++ lower d)); [reflexivity|].
  destruct (endswith host_lower (lower d)); [reflexivity|].
  now destruct (endswith (lower d) "-" && startswith host_lower (lower d)).
Qed.

Lemma endswith_app (pre s : string) : endswith (pre ++ s) s = true.
Proof.
  induction pre as [|c pre IH]; cbn [String.append].
  - destruct s; cbn [endswith]; now rewrite String.eqb_refl.
  - cbn [endswith]. rewrite IH. apply orb_true_r.
Qed.

Section Domains.
Context {checks : UrlChecks}.

Lemma is_trusted_host_incl (domains domains' : list string) (host : string) :
  incl domains domains' ->
  is_trusted_host domains host = Ok true -> is_trusted_host domains' host = Ok true.
Proof.
  intros Hincl. unfold is_trusted_host.
  destruct (_extract_hostname host) as [h|e]; cbn [bind]; [|easy].
  destruct (h =? "")%string; [easy|].
  destruct (workspace_container_check (lower h)) as [[]|e]; cbn [bind]; try easy.
  destruct (matches false spark_host_pattern _); [easy|].
  destruct (_ && _ && _); [easy|].
  rewrite !trusted_domain_match_existsb.
  intros [= (d & Hd & Hm)%existsb_exists]. f_equal.
  apply existsb_exists. exists d. auto.
Qed.

Lemma verdict_incl (domains domains' : list string) line c :
  incl domains domains' ->
  verdict domains line c = true -> verdict domains' line c = true.
Proof.
  intros Hincl. unfold verdict, trust_decision.
  destruct (workspace_abfs_line line); [easy|].
  unfold host_is_trusted. destruct (host c) as [h|]; [|easy].
  destruct (is_trusted_host_total domains h) as [b Hb]. rewrite Hb.
  intros ->. now rewrite (is_trusted_host_incl domains domains' h Hincl Hb).
Qed.

Lemma line_records_promoted (domains domains' : list string) n line ps :
  incl domains domains' ->
  Forall2 promoted (line_records domains n line ps) (line_records domains' n line ps).
Proof.
  intros Hincl. induction ps as [|p ps IH]; cbn [line_records flat_map]; [constructor|].
  apply Forall2_app; [|exact IH].
  destruct (search p line) as [m|]; constructor; [|constructor].
  split; [reflexivity|]. cbn [snd]. now apply verdict_incl.
Qed.

Lemma file_records_promoted (domains domains' : list string) n lines :
  incl domains domains' ->
  Forall2 promoted (file_records domains n lines) (file_records domains' n lines).
Proof.
  intros Hincl. revert n. induction lines as [|line rest IH]; intros n;
    cbn [file_records]; [constructor|].
  apply Forall2_app; [now apply line_records_promoted|apply IH].
Qed.

End Domains.

Lemma promoted_lists (l l' : list (connection_info * bool)) :
  Forall2 promoted l l' ->
  map fst l' = map fst l /\
  incl (map fst (filter snd l)) (map fst (filter snd l')) /\
  incl (map fst (filter is_external l')) (map fst (filter is_external l)) /\
  List.length (filter snd l) <= List.length (filter snd l') /\
  List.length (filter is_external l') <= List.length (filter is_external l).
Proof.
  induction 1 as [|[c b] [c' b'] l l' [Hc Hb] _ (IH1 & IH2 & IH3 & IH4 & IH5)].
  - repeat split; auto using incl_nil_l.
  - cbn [fst snd] in Hc, Hb. subst c'. unfold is_external in *.
    cbn [map filter fst snd negb].
    split; [now rewrite IH1|].
    destruct b, b'; cbn [negb map List.length fst];
      try (discriminate (Hb eq_refl)); repeat split;
      auto using incl_cons, incl_tl, in_eq, incl_refl; try lia.
Qed.

Lemma promoted_both (l l' : list (connection_info * bool)) :
  Forall2 promoted l l' -> Forall2 promoted l' l -> l = l'.
Proof.
  induction 1 as [|[c b] [c' b'] l l' [Hc Hb] _ IH]; intros H'; [reflexivity|].
  inversion H' as [|? ? ? ? [_ Hb'] Hrest]; subst.
  cbn [fst snd] in *. subst c'. rewrite (IH Hrest). f_equal. f_equal.
  destruct b, b'; try reflexivity;
    [discriminate (Hb eq_refl)|discriminate (Hb' eq_refl)].
Qed.

(** X9. With more trusted domains (as [main] adds them for
    [--add-trusted-domain]) the analysis of a file finds the same records;
    records only move from [external_connections] to
    [trusted_connections]. *)
Theorem more_domains_only_promote {checks : UrlChecks}
    (domains domains' : list string) (fs : filesystem) (path : string) :
  incl domains domains' ->
  let a := analyze_single_log_file domains fs path in
  let a' := analyze_single_log_file domains' fs path in
  connections a' = connections a /\
  pip_installs a' = pip_installs a /\
  logging_config a' = logging_config a /\
  file_exists a' = file_exists a /\
  file_size a' = file_size a /\
  error a' = error a /\
  incl (trusted_connections a) (trusted_connections a') /\
  incl (external_connections a') (external_connections a) /\
  List.length (trusted_connections a) <= List.length (trusted_connections a') /\
  List.length (external_connections a') <= List.length (external_connections a).
Proof.
  intros Hincl a a'. subst a a'. rewrite !analyze_single_log_file_full.
  cbn [connections pip_installs logging_config file_exists file_size error
       trusted_connections external_connections].
  destruct (promoted_lists _ _
              (file_records_promoted domains domains' 1 (lines_read (fs path)) Hincl))
    as (H1 & H2 & H3 & H4 & H5).
  rewrite !length_map. repeat split; auto.
Qed.

(** X10. Only the set of trusted domains counts: lists with the same entries, in
    any order and with any repetition, give the same analysis. *)
Theorem domain_order_is_irrelevant {checks : UrlChecks}
    (domains domains' : list string) (fs : filesystem) (path : string) :
  incl domains domains' -> incl domains' domains ->
  analyze_single_log_file domains' fs path = analyze_single_log_file domains fs path.
Proof.
  intros H H'. rewrite !analyze_single_log_file_full.
  now rewrite (promoted_both _ _
                 (file_records_promoted domains domains' 1 (lines_read (fs path)) H)
                 (file_records_promoted domains' domains 1 (lines_read (fs path)) H')).
Qed.

(** X11. A host whose normalized name ends with a trusted entry is trusted, with
    or without a dot before the entry; an empty entry trusts every host with
    a name. *)
Theorem suffix_of_entry_is_trusted {checks : UrlChecks}
    (domains : list string) (host actual_host pre entry : string) :
  In entry domains ->
  _extract_hostname host = Ok actual_host -> actual_host <> "" ->
  lower actual_host = (pre ++ lower entry)%string ->
  is_trusted_host domains host = Ok true.
Proof.
  intros Hin Hhost Hne Hsuffix. unfold is_trusted_host. rewrite Hhost. cbn [bind].
  destruct (actual_host =? "")%string eqn:He; [now apply String.eqb_eq in He|].
  destruct (workspace_container_check_total (lower actual_host)) as [b ->].
  cbn [bind]. destruct b; [reflexivity|].
  destruct (matches false spark_host_pattern _); [reflexivity|].
  destruct (_ && _ && _); [reflexivity|].
  f_equal. rewrite trusted_domain_match_existsb. apply existsb_exists.
  exists entry. split; [exact Hin|]. unfold entry_matches.
  rewrite Hsuffix, endswith_app. now rewrite !orb_true_r.
Qed.

Lemma more_domains_only_promote_witness :
  List.length (external_connections
     (@analyze_single_log_file accept_all (DEFAULT_TRUSTED_DOMAINS ++ ["example.com"])
        (single_file "logs/stderr" demo_log) "logs/stderr"))
  <= List.length (external_connections
     (@analyze_single_log_file accept_all DEFAULT_TRUSTED_DOMAINS
        (single_file "logs/stderr" demo_log) "logs/stderr")).
Proof.
  apply (@more_domains_only_promote accept_all DEFAULT_TRUSTED_DOMAINS
           (DEFAULT_TRUSTED_DOMAINS ++ ["example.com"])
           (single_file "logs/stderr" demo_log) "logs/stderr").
  apply incl_appl, incl_refl.
Defined.

Lemma domain_order_is_irrelevant_witness :
  @analyze_single_log_file accept_all (rev DEFAULT_TRUSTED_DOMAINS)
    (single_file "logs/stderr" demo_log) "logs/stderr"
  = @analyze_single_log_file accept_all DEFAULT_TRUSTED_DOMAINS
      (single_file "logs/stderr" demo_log) "logs/stderr".
Proof.
  apply (@domain_order_is_irrelevant accept_all).
  - intros x Hx. now apply in_rev in Hx.
  - intros x Hx. now apply in_rev.
Defined.

Lemma suffix_of_entry_is_trusted_witness :
  @is_trusted_host accept_all DEFAULT_TRUSTED_DOMAINS "evilstorage.azure.com" = Ok true.
Proof.
  apply (@suffix_of_entry_is_trusted accept_all DEFAULT_TRUSTED_DOMAINS
           "evilstorage.azure.com" "evilstorage.azure.com" "evil" "storage.azure.com").
  - unfold DEFAULT_TRUSTED_DOMAINS. do 9 right. left. reflexivity.
  - vm_compute. reflexivity.
  - discriminate.
  - vm_compute. reflexivity.
Defined.

(** ** The pip and the logging view *)

Lemma dict_set_new {V} (key : string) (v : V) (d : dict V) :
  ~ In key (map fst d) -> dict_set key v d = d ++ [(key, v)].
Proof.
  induction d as [|[k x] d IH]; cbn; [reflexivity|]. intros Hn.
  destruct (String.eqb_spec k key) as [->|Hk]; [tauto|].
  rewrite IH; tauto.
Qed.

Lemma dict_get_absent {V} (key : string) (d : dict V) :
  ~ In key (map fst d) -> dict_get key d = None.
Proof.
  induction d as [|[k x] d IH]; cbn; [reflexivity|]. intros Hn.
  destruct (String.eqb_spec k key) as [->|Hk]; [tauto|]. apply IH. tauto.
Qed.

Lemma picked_cons {A} (key : analysis -> list A) (k : string) (a : analysis)
    (las : dict analysis) :
  picked key ((k, a) :: las)
  = match key a with
    | [] => []
    | _ :: _ => [(k, key a)]
    end ++ picked key las.
Proof. reflexivity. Qed.

Lemma picked_keys {A} (key : analysis -> list A) (las : dict analysis) :
  incl (map fst (picked key las)) (map fst las).
Proof.
  induction las as [|[k a] las IH]; [easy|]. rewrite picked_cons.
  destruct (key a); cbn [app map fst]; auto using incl_tl, incl_cons, in_eq.
Qed.

Lemma details_fold {A} (key : analysis -> list A) (las : dict analysis) :
  forall acc,
    NoDup (map fst las) ->
    (forall k, In k (map fst las) -> ~ In k (map fst acc)) ->
    fold_left
      (fun d (item : string * analysis) =>
         let (log_type, analysis) := item in
         if nonempty (key analysis) then dict_set log_type (key analysis) d else d)
      las acc
    = acc ++ picked key las.
Proof.
  induction las as [|[k a] las IH]; intros acc Hnd Hacc; cbn [fold_left].
  - cbn. now rewrite app_nil_r.
  - rewrite picked_cons. cbn [map fst] in Hnd, Hacc.
    inversion Hnd as [|? ? Hk Hrest]; subst.
    destruct (key a) as [|x l] eqn:E; cbn [nonempty app].
    + apply IH; [exact Hrest|]. intros k' Hk'. apply Hacc. now right.
    + rewrite dict_set_new by (apply Hacc; now left).
      rewrite IH; [now rewrite <- app_assoc|exact Hrest|].
      intros k' Hk'. rewrite map_app, in_app_iff. cbn.
      intros [H|[->|[]]]; [|contradiction].
      apply (Hacc k'); [now right|exact H].
Qed.

Lemma picked_NoDup {A} (key : analysis -> list A) (las : dict analysis) :
  NoDup (map fst las) -> NoDup (map fst (picked key las)).
Proof.
  induction las as [|[k a] las IH]; [constructor|]. rewrite picked_cons.
  cbn [map fst]. intros Hnd. inversion Hnd as [|? ? Hk Hrest]; subst.
  destruct (key a); cbn [app map fst]; auto.
  constructor; auto. intros H. apply Hk. now apply (picked_keys key las).
Qed.

Lemma picked_sum {A} (key : analysis -> list A) (las : dict analysis) :
  list_sum (map (fun kv => List.length (snd kv)) (picked key las))
  = list_sum (map (fun item => List.length (key (snd item))) las).
Proof.
  induction las as [|[k a] las IH]; [reflexivity|]. rewrite picked_cons.
  cbn [map snd]. rewrite list_sum_cons, <- IH.
  destruct (key a) as [|x l]; cbn [app map snd List.length]; [reflexivity|].
  now rewrite list_sum_cons.
Qed.

Lemma picked_filled {A} (key : analysis -> list A) (las : dict analysis) :
  Forall (fun kv => snd kv <> []) (picked key las).
Proof.
  induction las as [|[k a] las IH]; [constructor|]. rewrite picked_cons.
  destruct (key a) eqn:E; cbn [app]; [exact IH|].
  constructor; [cbn; congruence|exact IH].
Qed.

(** Under each log type [picked] holds the records of the analysis of that
    type, unless there are none. *)
Lemma dict_get_picked {A} (key : analysis -> list A) (las : dict analysis)
    (log_type : string) :
  NoDup (map fst las) ->
  dict_get log_type (picked key las)
  = match dict_get log_type las with
    | Some a => match key a with
                | [] => None
                | _ :: _ => Some (key a)
                end
    | None => None
    end.
Proof.
  induction las as [|[k a] las IH]; [reflexivity|]. rewrite picked_cons.
  cbn [map fst]. intros Hnd. inversion Hnd as [|? ? Hk Hrest]; subst.
  cbn [dict_get]. destruct (String.eqb_spec k log_type) as [->|Hne].
  - destruct (key a) as [|x l]; cbn [app dict_get].
    + apply dict_get_absent. intros H. apply Hk. now apply (picked_keys key las).
    + now rewrite String.eqb_refl.
  - rewrite <- (IH Hrest). destruct (key a) as [|x l]; cbn [app dict_get]; [reflexivity|].
    now destruct (String.eqb_spec k log_type).
Qed.

Lemma count_pip_fold (las : dict analysis) :
  forall (b : bool) (n : nat),
    fold_left
      (fun (acc : bool * nat) (item : string * analysis) =>
         let (has_pip, total_pip_installs) := acc in
         if nonempty (pip_installs (snd item))
         then (true, total_pip_installs + List.length (pip_installs (snd item)))
         else (has_pip, total_pip_installs))
      las (b, n)
    = (b || existsb (fun item : string * analysis =>
                       match pip_installs (snd item) with
                       | [] => false
                       | _ :: _ => true
                       end) las,
       n + list_sum (map (fun item : string * analysis =>
                            List.length (pip_installs (snd item))) las)).
Proof.
  induction las as [|item las IH]; intros b n; cbn [fold_left existsb map].
  - now rewrite orb_false_r, Nat.add_0_r.
  - rewrite list_sum_cons.
    destruct (pip_installs (snd item)) as [|x l]; cbn [nonempty List.length];
      rewrite IH; cbn [orb]; [reflexivity|].
    rewrite orb_true_r. f_equal. lia.
Qed.

Lemma count_pip_spec (s : SessionResult) :
  count_pip (log_analyses s) = (has_record pip_installs s, records_number pip_installs s).
Proof. unfold count_pip. now rewrite count_pip_fold. Qed.

Lemma has_record_positive {A} (key : analysis -> list A) (s : SessionResult) :
  has_record key s = true -> 0 < records_number key s.
Proof.
  unfold has_record, records_number.
  induction (log_analyses s) as [|item las IH]; cbn [existsb map]; [discriminate|].
  rewrite list_sum_cons.
  destruct (key (snd item)); cbn [List.length orb]; [|lia].
  intros H%IH. lia.
Qed.

Section KeyedRuns.
Context {checks : UrlChecks}.
Variable w : world.
Variable domains : list string.

Lemma analyze_session_keyed session r :
  analyze_session w domains session = Ok r -> keyed_session r.
Proof.
  unfold analyze_session.
  repeat match goal with
         | |- bind (get_default ?k ?d ?o) _ = Ok _ -> _ =>
             destruct (get_default k d o); cbn [bind]; [|intros H; discriminate H]
         end.
  destruct (py_iter _) as [files|]; cbn [bind]; [|intros H; discriminate H].
  destruct (analyze_files w domains files []) as [d|] eqn:Hd; cbn [bind];
    [|intros H; discriminate H].
  intros [= <-]. unfold keyed_session; cbn [log_analyses].
  apply (analyze_files_keys w domains _ _ _ Hd); [constructor|intros k []].
Qed.

Lemma analyze_sessions_keyed sessions :
  forall done, Forall keyed_session done ->
               Forall keyed_session (fst (analyze_sessions w domains sessions done)).
Proof.
  induction sessions as [|session rest IH]; intros done Hdone; cbn [analyze_sessions].
  - exact Hdone.
  - destruct (analyze_session w domains session) as [r|e] eqn:Hr; [|exact Hdone].
    apply IH, Forall_app. split; [exact Hdone|].
    constructor; [|constructor]. now apply analyze_session_keyed in Hr.
Qed.

End KeyedRuns.

Lemma analyze_consolidated_logs_keyed {checks : UrlChecks} (w : world)
    (self st : analyzer) (out : outcome (list SessionResult)) :
  Forall keyed_session (session_results self) ->
  analyze_consolidated_logs w self = (st, out) ->
  Forall keyed_session (session_results st).
Proof.
  intros Hself. unfold analyze_consolidated_logs.
  destruct (consolidated_file_path self) as [[|c path]|]; try now intros [= <- _].
  destruct (json_files w (String c path)); try now intros [= <- _].
  destruct (bind _ _) as [sessions|e]; [|now intros [= <- _]].
  pose proof (analyze_sessions_keyed w (trusted_domains self) sessions
                (session_results self) Hself) as H.
  destruct (analyze_sessions _ _ _ _) as [rs [[]|e]]; intros [= <- _]; exact H.
Qed.

(** The pip view, session by session. *)
Lemma pip_view_spec (rs : list SessionResult) :
  Forall keyed_session rs ->
  get_sessions_with_pip_installs rs
  = map pip_report (filter (has_record pip_installs) rs).
Proof.
  induction 1 as [|r rs [Hnd _] _ IH]; [reflexivity|].
  cbn [get_sessions_with_pip_installs filter]. rewrite count_pip_spec, IH.
  destruct (has_record pip_installs r); [|reflexivity].
  cbn [map app]. f_equal. unfold pip_report, pip_details_of.
  rewrite (details_fold pip_installs) by (auto; intros k _ []). reflexivity.
Qed.

(** X12. After a run, the pip view lists, in their order, the sessions with a
    pip record in some analysis, each with its own summary:
    [total_pip_installs] is the number of pip records of the session, at
    least one, and [pip_details] holds under each log type the pip records
    of the analysis of that type, unless there are none; so the total is
    also the number of records in [pip_details]. *)
Theorem pip_view_totals {checks : UrlChecks} (w : world)
    (path : option string) (domains : option (list string))
    (st : analyzer) (out : outcome (list SessionResult)) :
  analyze_consolidated_logs w (__init__ path domains) = (st, out) ->
  get_sessions_with_pip_installs (session_results st)
  = map pip_report (filter (has_record pip_installs) (session_results st)) /\
  (forall s, has_record pip_installs s = true <-> some_record pip_installs s) /\
  (forall s,
      In s (session_results st) ->
      let p := pip_report s in
      PipSummary.total_pip_installs p
      = list_sum (map (fun item : string * analysis =>
                         List.length (pip_installs (snd item))) (log_analyses s)) /\
      PipSummary.total_pip_installs p
      = list_sum (map (fun kv => List.length (snd kv)) (PipSummary.pip_details p)) /\
      (some_record pip_installs s -> 0 < PipSummary.total_pip_installs p) /\
      (forall log_type,
          dict_get log_type (PipSummary.pip_details p)
          = match dict_get log_type (log_analyses s) with
            | Some a => match pip_installs a with
                        | [] => None
                        | _ :: _ => Some (pip_installs a)
                        end
            | None => None
            end) /\
      NoDup (map fst (PipSummary.pip_details p)) /\
      incl (map fst (PipSummary.pip_details p)) LOG_TYPES /\
      Forall (fun kv => snd kv <> []) (PipSummary.pip_details p)).
Proof.
  intros Hrun.
  assert (Hkeyed : Forall keyed_session (session_results st)).
  { eapply analyze_consolidated_logs_keyed; [|exact Hrun]. constructor. }
  split; [now apply pip_view_spec|].
  assert (Hsome : forall s, has_record pip_installs s = true <-> some_record pip_installs s).
  { intros s. unfold has_record, some_record. rewrite existsb_exists. split.
    - intros ([k a] & Hin & Ha). exists k, a. split; [exact Hin|].
      cbn [snd] in Ha. now destruct (pip_installs a).
    - intros (k & a & Hin & Ha). exists (k, a). split; [exact Hin|].
      cbn [snd]. now destruct (pip_installs a). }
  split; [exact Hsome|].
  intros s Hs. cbv zeta. cbn [pip_report PipSummary.total_pip_installs PipSummary.pip_details].
  rewrite Forall_forall in Hkeyed. destruct (Hkeyed s Hs) as [Hnd Hincl].
  split; [reflexivity|]. split; [unfold records_number; now rewrite picked_sum|].
  split; [intros H%Hsome; now apply has_record_positive|].
  split; [intros log_type; now apply dict_get_picked|].
  split; [now apply picked_NoDup|].
  split; [|apply picked_filled].
  intros k Hk. apply Hincl. now apply (picked_keys pip_installs).
Qed.

Lemma pip_view_totals_witness :
  get_sessions_with_pip_installs (session_results (fst report_run))
  = map pip_report (filter (has_record pip_installs) (session_results (fst report_run))) /\
  filter (has_record pip_installs) (session_results (fst report_run))
  = [hd_session report_run] /\
  PipSummary.total_pip_installs (pip_report (hd_session report_run)) = 1.
Proof.
  split.
  - apply (@pip_view_totals accept_all report_world (Some "consolidated.json") None
             (fst report_run) (snd report_run)).
    vm_compute. reflexivity.
  - split; vm_compute; reflexivity.
Defined.

Lemma mentions_disabled_names (i : logging_info) :
  mentions_disabled i = names_disabling i.
Proof.
  unfold mentions_disabled, names_disabling. cbn [existsb].
  now rewrite orb_false_r, orb_assoc.
Qed.

Lemma disabled_fold (l : list logging_info) (b : bool) :
  fold_left (fun (b : bool) log_config => if mentions_disabled log_config then true else b)
    l b
  = b || existsb names_disabling l.
Proof.
  revert b; induction l as [|i l IH]; intros b; cbn [fold_left existsb].
  - now rewrite orb_false_r.
  - rewrite IH, mentions_disabled_names.
    destruct (names_disabling i), b; reflexivity.
Qed.

Lemma logging_flags_fold (las : dict analysis) :
  forall hc hd : bool,
    fold_left
      (fun (acc : bool * bool) (item : string * analysis) =>
         let (has_logging_config, has_disabled_logs) := acc in
         if nonempty (logging_config (snd item))
         then (true,
               fold_left
                 (fun (b : bool) log_config =>
                    if mentions_disabled log_config then true else b)
                 (logging_config (snd item)) has_disabled_logs)
         else (has_logging_config, has_disabled_logs))
      las (hc, hd)
    = (hc || existsb (fun item : string * analysis =>
                        match logging_config (snd item) with
                        | [] => false
                        | _ :: _ => true
                        end) las,
       hd || existsb (fun item : string * analysis =>
                        existsb names_disabling (logging_config (snd item))) las).
Proof.
  induction las as [|item las IH]; intros hc hd; cbn [fold_left existsb].
  - now rewrite !orb_false_r.
  - destruct (logging_config (snd item)) as [|i l] eqn:E; cbn [nonempty].
    + rewrite IH. cbn [existsb orb]. reflexivity.
    + rewrite IH, disabled_fold. cbn [orb]. rewrite orb_true_r, orb_assoc. reflexivity.
Qed.

Lemma logging_flags_spec (s : SessionResult) :
  logging_flags (log_analyses s) = (has_record logging_config s, disables_logging s).
Proof. unfold logging_flags. now rewrite logging_flags_fold. Qed.

Lemma disables_configures (s : SessionResult) :
  disables_logging s = true -> has_record logging_config s = true.
Proof.
  unfold disables_logging, has_record. rewrite !existsb_exists.
  intros (item & Hin & H). exists item. split; [exact Hin|].
  now destruct (logging_config (snd item)).
Qed.

Lemma logging_step_spec (s0 : LoggingSummary.t) (s : SessionResult) :
  NoDup (map fst (log_analyses s)) ->
  logging_step s0 s
  = LoggingSummary.mk
      (LoggingSummary.sessions_with_logging_config s0
       + List.length (filter (has_record logging_config) [s]))
      (LoggingSummary.sessions_with_disabled_logs s0
       + List.length (filter disables_logging [s]))
      (LoggingSummary.details s0
       ++ map logging_report (filter (has_record logging_config) [s])).
Proof.
  intros Hnd. unfold logging_step. rewrite logging_flags_spec. cbn [filter].
  assert (Hconfigs : logging_configs_of (log_analyses s)
                     = picked logging_config (log_analyses s)).
  { unfold logging_configs_of.
    now rewrite (details_fold logging_config) by (auto; intros k _ []). }
  rewrite Hconfigs. fold (logging_report s).
  destruct s0 as [n m ds].
  destruct (has_record logging_config s), (disables_logging s);
    cbn [LoggingSummary.sessions_with_logging_config
         LoggingSummary.sessions_with_disabled_logs LoggingSummary.details
         List.length map];
    rewrite ?app_nil_r, ?Nat.add_0_r; reflexivity.
Qed.

Lemma logging_fold_spec (rs : list SessionResult) :
  Forall (fun s => NoDup (map fst (log_analyses s))) rs ->
  forall s0,
    fold_left logging_step rs s0
    = LoggingSummary.mk
        (LoggingSummary.sessions_with_logging_config s0
         + List.length (filter (has_record logging_config) rs))
        (LoggingSummary.sessions_with_disabled_logs s0
         + List.length (filter disables_logging rs))
        (LoggingSummary.details s0
         ++ map logging_report (filter (has_record logging_config) rs)).
Proof.
  induction 1 as [|r rs Hr _ IH]; intros s0; cbn [fold_left].
  - cbn. destruct s0. cbn. now rewrite !Nat.add_0_r, app_nil_r.
  - rewrite IH, (logging_step_spec s0 r Hr).
    cbn [LoggingSummary.sessions_with_logging_config
         LoggingSummary.sessions_with_disabled_logs LoggingSummary.details].
    cbn [filter].
    destruct (has_record logging_config r), (disables_logging r);
      cbn [List.length map app]; rewrite <- ?app_assoc; cbn [app];
      f_equal; rewrite ?app_nil_r; lia.
Qed.

Lemma filter_disabled_reports (rs : list SessionResult) :
  List.length (filter LoggingDetail.has_disabled_logs
                 (map logging_report (filter (has_record logging_config) rs)))
  = List.length (filter disables_logging rs).
Proof.
  induction rs as [|r rs IH]; [reflexivity|]. cbn [filter].
  pose proof (disables_configures r) as Himp.
  destruct (has_record logging_config r); cbn [map filter].
  - cbn [logging_report LoggingDetail.has_disabled_logs].
    destruct (disables_logging r); cbn [List.length]; now rewrite IH.
  - destruct (disables_logging r); [discriminate (Himp eq_refl)|exact IH].
Qed.

(** X13. The logging summary, from the records of the sessions:
    [sessions_with_logging_config] counts the sessions with a logging record
    in some analysis, [sessions_with_disabled_logs] those with a logging
    record whose text names [disable], [off] or [false] in any case, and
    [details] lists the sessions of the first kind in their order, each with
    its records by log type and with [has_disabled_logs] set when it is of
    the second kind.  So the counters agree with the details. *)
Theorem logging_summary_counts (session_results : list SessionResult) :
  Forall (fun s => NoDup (map fst (log_analyses s))) session_results ->
  let summary := get_logging_status_summary session_results in
  summary
  = LoggingSummary.mk
      (List.length (filter (has_record logging_config) session_results))
      (List.length (filter disables_logging session_results))
      (map logging_report (filter (has_record logging_config) session_results)) /\
  (forall s, has_record logging_config s = true <-> some_record logging_config s) /\
  (forall s,
      disables_logging s = true <->
      exists log_type a i,
        In (log_type, a) (log_analyses s) /\ In i (logging_config a) /\
        names_disabling i = true) /\
  LoggingSummary.sessions_with_logging_config summary
  = List.length (LoggingSummary.details summary) /\
  LoggingSummary.sessions_with_disabled_logs summary
  = List.length (filter LoggingDetail.has_disabled_logs (LoggingSummary.details summary)) /\
  LoggingSummary.sessions_with_disabled_logs summary
  <= LoggingSummary.sessions_with_logging_config summary /\
  LoggingSummary.sessions_with_logging_config summary <= List.length session_results.
Proof.
  intros Hkeys. cbv zeta. unfold get_logging_status_summary.
  rewrite (logging_fold_spec session_results Hkeys).
  cbn [LoggingSummary.sessions_with_logging_config
       LoggingSummary.sessions_with_disabled_logs LoggingSummary.details
       app Nat.add].
  split; [reflexivity|]. split; [|split].
  - intros s. unfold has_record, some_record. rewrite existsb_exists. split.
    + intros ([k a] & Hin & Ha). exists k, a. split; [exact Hin|].
      cbn [snd] in Ha. now destruct (logging_config a).
    + intros (k & a & Hin & Ha). exists (k, a). split; [exact Hin|].
      cbn [snd]. now destruct (logging_config a).
  - intros s. unfold disables_logging. rewrite existsb_exists. split.
    + intros ([k a] & Hin & (i & Hi & Hn)%existsb_exists). now exists k, a, i.
    + intros (k & a & i & Hin & Hi & Hn). exists (k, a). split; [exact Hin|].
      apply existsb_exists. now exists i.
  - rewrite length_map, filter_disabled_reports.
    split; [reflexivity|]. split; [reflexivity|]. split.
    + rewrite <- filter_disabled_reports.
      etransitivity; [apply filter_length_le|]. now rewrite length_map.
    + apply filter_length_le.
Qed.

Lemma logging_summary_counts_witness :
  get_logging_status_summary (session_results (fst report_run))
  = LoggingSummary.mk 1 1 [logging_report (hd_session report_run)].
Proof.
  assert (Hkeys : Forall (fun s => NoDup (map fst (log_analyses s)))
                    (session_results (fst report_run))).
  { assert (Hkeyed : Forall keyed_session (session_results (fst report_run))).
    { apply (@analyze_consolidated_logs_keyed accept_all report_world
               (__init__ (Some "consolidated.json") None)
               (fst report_run) (snd report_run)); [constructor|].
      vm_compute. reflexivity. }
    eapply Forall_impl; [|exact Hkeyed]. now intros s [Hnd _]. }
  rewrite (proj1 (logging_summary_counts (session_results (fst report_run)) Hkeys)).
  vm_compute. reflexivity.
Defined.

(** ** Patterns that contain another pattern *)

Lemma rmatch_lit (ic : bool) (l : string) k :
  forall pos s cs,
    rmatch ic (lit l) k pos s cs
    = if starts_with_lit ic l s
      then k (pos + String.length l) (drop (String.length l) s) cs
      else None.
Proof.
  induction l as [|c l IH]; intros pos s cs.
  - cbn. now rewrite Nat.add_0_r.
  - assert (Hstep : rmatch ic (lit (String c l)) k pos s cs
                    = match s with
                      | String x s' =>
                          if cls_match ic (CLit c) x
                          then rmatch ic (lit l) k (S pos) s' cs
                          else None
                      | "" => None
                      end).
    { destruct l; reflexivity. }
    rewrite Hstep. destruct s as [|x s']; [reflexivity|].
    cbn [starts_with_lit String.length drop].
    destruct (cls_match ic (CLit c) x); [|reflexivity].
    rewrite IH. cbn [andb]. now rewrite Nat.add_succ_r.
Qed.

Lemma starts_with_lit_app (ic : bool) (a b : string) :
  forall s,
    starts_with_lit ic (a ++ b) s
    = starts_with_lit ic a s && starts_with_lit ic b (drop (String.length a) s).
Proof.
  induction a as [|c a IH]; intros s; [reflexivity|].
  destruct s as [|x s]; cbn [String.append starts_with_lit String.length drop].
  - reflexivity.
  - rewrite IH. now rewrite andb_assoc.
Qed.

Lemma starts_with_lit_length (ic : bool) (l : string) :
  forall s, starts_with_lit ic l s = true -> String.length l <= String.length s.
Proof.
  induction l as [|c l IH]; intros s; [cbn; lia|].
  destruct s as [|x s]; cbn [starts_with_lit String.length]; [discriminate|].
  intros [_ H%IH]%andb_prop. lia.
Qed.

Lemma append_length (a b : string) :
  String.length (a ++ b) = String.length a + String.length b.
Proof. induction a as [|c a IH]; cbn; congruence. Qed.

Lemma search_from_at (ic : bool) (r : regex) (s : string) :
  forall pos cs,
    search_from ic r pos s = Some cs ->
    exists i, i <= String.length s /\
              rmatch ic r accept (pos + i) (drop i s) [] = Some cs.
Proof.
  induction s as [|c s IH]; intros pos cs; cbn [search_from].
  - destruct (rmatch ic r accept pos "" []) eqn:E; [|discriminate].
    intros [= <-]. exists 0. rewrite Nat.add_0_r. now split.
  - destruct (rmatch ic r accept pos (String c s) []) eqn:E.
    + intros [= <-]. exists 0. rewrite Nat.add_0_r. split; [cbn; lia|exact E].
    + intros (i & Hi & H)%IH. exists (S i). rewrite Nat.add_succ_r.
      split; [cbn; lia|exact H].
Qed.

Lemma search_from_hit (ic : bool) (r : regex) (s : string) :
  forall pos i cs,
    i <= String.length s ->
    rmatch ic r accept (pos + i) (drop i s) [] = Some cs ->
    exists cs', search_from ic r pos s = Some cs'.
Proof.
  induction s as [|c s IH]; intros pos i cs Hi; cbn [search_from].
  - cbn in Hi. replace i with 0 by lia. rewrite Nat.add_0_r. cbn [drop].
    intros ->. eauto.
  - destruct (rmatch ic r accept pos (String c s) []) eqn:E; [eauto|].
    destruct i as [|i]; [rewrite Nat.add_0_r; cbn [drop]; congruence|].
    rewrite Nat.add_succ_r. cbn [drop]. apply (IH (S pos) i cs). cbn in Hi. lia.
Qed.

(** A pattern that begins with a literal matches wherever a pattern with a
    longer literal and the same rest matches. *)
Lemma longer_literal_found (ic : bool) (pre core : string) (rest : regex)
    (s : string) (cs : caps) :
  search_from ic (RSeq (lit (pre ++ core)) rest) 0 s = Some cs ->
  exists cs', search_from ic (RSeq (lit core) rest) 0 s = Some cs'.
Proof.
  intros (i & Hi & H)%search_from_at. cbn [rmatch Nat.add] in H.
  rewrite rmatch_lit, starts_with_lit_app in H.
  destruct (starts_with_lit ic pre (drop i s)) eqn:Hpre; [|discriminate].
  destruct (starts_with_lit ic core (drop (String.length pre) (drop i s))) eqn:Hcore;
    [|discriminate].
  cbn [andb] in H.
  apply starts_with_lit_length in Hpre. rewrite drop_length in Hpre.
  apply starts_with_lit_length in Hcore as Hlen. rewrite !drop_length in Hlen.
  apply (search_from_hit ic _ s 0 (i + String.length pre) cs).
  - destruct (String.length core) eqn:Ec; lia.
  - cbn [rmatch Nat.add]. rewrite rmatch_lit, <- drop_drop, Hcore.
    rewrite <- H. rewrite append_length, !drop_drop. now rewrite Nat.add_assoc.
Qed.

Lemma is_match_longer_literal (src src' : string) (pre core : string)
    (rest : regex) (line : string) :
  is_match line (compile src (RSeq (lit (pre ++ core)) rest)) = true ->
  is_match line (compile src' (RSeq (lit core) rest)) = true.
Proof.
  unfold is_match, search, compile; cbn [ignorecase tree].
  destruct (search_from true (RSeq (lit (pre ++ core)) rest) 0 line) as [cs|] eqn:E;
    [|discriminate].
  destruct (longer_literal_found _ _ _ _ _ _ E) as [cs' ->]. reflexivity.
Qed.

Lemma pip_install_in_catalogue : In pip_install_pattern PIP_PATTERNS.
Proof. left. reflexivity. Qed.

Lemma python_m_pip_in_catalogue : In python_m_pip_pattern PIP_PATTERNS.
Proof. do 2 right. left. reflexivity. Qed.

Lemma python3_m_pip_in_catalogue : In python3_m_pip_pattern PIP_PATTERNS.
Proof. do 3 right. left. reflexivity. Qed.

Lemma ftp_in_catalogue : In ftp_pattern CONNECTION_PATTERNS.
Proof. unfold CONNECTION_PATTERNS. do 12 right. left. reflexivity. Qed.

Lemma sftp_in_catalogue : In sftp_pattern CONNECTION_PATTERNS.
Proof. unfold CONNECTION_PATTERNS. do 13 right. left. reflexivity. Qed.

Lemma is_match_search (line : string) (p : pattern) :
  is_match line p = true -> exists m, search p line = Some m.
Proof. unfold is_match. destruct (search p line); [eauto|discriminate]. Qed.

(** X14. One [python -m pip install] (or [python3 -m pip install]) command is
    recorded twice: the line matches the pattern [pip install] as well, and
    [pip_installs] gets a record for each. *)
Theorem module_pip_install_recorded_twice {checks : UrlChecks}
    (domains : list string) (fs : filesystem) (path : string)
    (i : nat) (line : string) (p : pattern) :
  nth_error (lines_read (fs path)) i = Some line ->
  p = python_m_pip_pattern \/ p = python3_m_pip_pattern ->
  is_match line p = true ->
  exists m m',
    search p line = Some m /\
    search pip_install_pattern line = Some m' /\
    In (mkPip (S i) (group m 1) (strip_ws line) (source p))
       (pip_installs (analyze_single_log_file domains fs path)) /\
    In (mkPip (S i) (group m' 1) (strip_ws line) (source pip_install_pattern))
       (pip_installs (analyze_single_log_file domains fs path)).
Proof.
  intros Hline Hp Hm.
  assert (Hm' : is_match line pip_install_pattern = true).
  { destruct Hp as [-> | ->].
    - exact (is_match_longer_literal _ _ "python -m " "pip install " _ line Hm).
    - exact (is_match_longer_literal _ _ "python3 -m " "pip install " _ line Hm). }
  assert (Hin : In p PIP_PATTERNS).
  { destruct Hp as [-> | ->];
      [apply python_m_pip_in_catalogue|apply python3_m_pip_in_catalogue]. }
  apply is_match_search in Hm as [m Hs]. apply is_match_search in Hm' as [m' Hs'].
  exists m, m'. rewrite analyze_single_log_file_full. cbn [pip_installs].
  repeat split; auto; apply in_file_pip_records; exists i, line;
    (split; [exact Hline|]); apply in_pip_records.
  - now exists p, m.
  - exists pip_install_pattern, m'. repeat split; auto using pip_install_in_catalogue.
Qed.

(** X15. An [sftp://] URL is recorded twice, once by the pattern for [sftp://]
    and once by the pattern for [ftp://]. *)
Theorem sftp_url_recorded_twice {checks : UrlChecks}
    (domains : list string) (fs : filesystem) (path : string)
    (i : nat) (line : string) :
  nth_error (lines_read (fs path)) i = Some line ->
  is_match line sftp_pattern = true ->
  exists m m',
    search sftp_pattern line = Some m /\
    search ftp_pattern line = Some m' /\
    In (connection_of (S i) line sftp_pattern m)
       (connections (analyze_single_log_file domains fs path)) /\
    In (connection_of (S i) line ftp_pattern m')
       (connections (analyze_single_log_file domains fs path)).
Proof.
  intros Hline Hm.
  pose proof (is_match_longer_literal _ (source ftp_pattern) "s" "ftp://" _ line Hm) as Hm'.
  apply is_match_search in Hm as [m Hs]. apply is_match_search in Hm' as [m' Hs'].
  exists m, m'. rewrite analyze_single_log_file_full. cbn [connections].
  assert (Hrec : forall p m0, In p CONNECTION_PATTERNS -> search p line = Some m0 ->
                   In (connection_of (S i) line p m0)
                      (map fst (file_records domains 1 (lines_read (fs path))))).
  { intros p m0 Hp Hs0. apply in_map_iff.
    exists (connection_of (S i) line p m0,
            verdict domains line (connection_of (S i) line p m0)).
    split; [reflexivity|]. apply in_file_records. exists i, line.
    split; [exact Hline|]. apply in_line_records. now exists p, m0. }
  repeat split; auto using sftp_in_catalogue, ftp_in_catalogue.
Qed.

Lemma module_pip_install_recorded_twice_witness :
  exists m m',
    search python_m_pip_pattern "python -m pip install numpy" = Some m /\
    search pip_install_pattern "python -m pip install numpy" = Some m' /\
    In (mkPip 1 (group m 1) (strip_ws "python -m pip install numpy")
          (source python_m_pip_pattern))
       (pip_installs
          (@analyze_single_log_file accept_all DEFAULT_TRUSTED_DOMAINS
             (single_file "logs/stdout" (text_file ["python -m pip install numpy"]))
             "logs/stdout")) /\
    In (mkPip 1 (group m' 1) (strip_ws "python -m pip install numpy")
          (source pip_install_pattern))
       (pip_installs
          (@analyze_single_log_file accept_all DEFAULT_TRUSTED_DOMAINS
             (single_file "logs/stdout" (text_file ["python -m pip install numpy"]))
             "logs/stdout")).
Proof.
  apply (@module_pip_install_recorded_twice accept_all DEFAULT_TRUSTED_DOMAINS
           (single_file "logs/stdout" (text_file ["python -m pip install numpy"]))
           "logs/stdout" 0 "python -m pip install numpy" python_m_pip_pattern).
  - reflexivity.
  - left. reflexivity.
  - vm_compute. reflexivity.
Defined.

Lemma sftp_url_recorded_twice_witness :
  exists m m',
    search sftp_pattern "open sftp://files.example.com:22/in" = Some m /\
    search ftp_pattern "open sftp://files.example.com:22/in" = Some m' /\
    In (connection_of 1 "open sftp://files.example.com:22/in" sftp_pattern m)
       (connections
          (@analyze_single_log_file accept_all DEFAULT_TRUSTED_DOMAINS
             (single_file "logs/stderr"
                (text_file ["open sftp://files.example.com:22/in"]))
             "logs/stderr")) /\
    In (connection_of 1 "open sftp://files.example.com:22/in" ftp_pattern m')
       (connections
          (@analyze_single_log_file accept_all DEFAULT_TRUSTED_DOMAINS
             (single_file "logs/stderr"
                (text_file ["open sftp://files.example.com:22/in"]))
             "logs/stderr")).
Proof.
  apply (@sftp_url_recorded_twice accept_all DEFAULT_TRUSTED_DOMAINS
           (single_file "logs/stderr"
              (text_file ["open sftp://files.example.com:22/in"]))
           "logs/stderr" 0 "open sftp://files.example.com:22/in").
  - reflexivity.
  - vm_compute. reflexivity.
Defined.

(** ** From the collector to the analyzer *)

Lemma prefix_before (c : ascii) (needle : string) :
  mem c needle = false ->
  forall a b, prefix needle (a ++ String c b) = prefix needle a.
Proof.
  induction needle as [|x needle IH]; intros Hc a b.
  - now destruct a.
  - cbn [mem] in Hc. apply orb_false_elim in Hc as [Hx Hn].
    destruct a as [|y a]; cbn [String.append prefix].
    + destruct (ascii_dec x c) as [->|]; [|reflexivity].
      now rewrite Ascii.eqb_refl in Hx.
    + destruct (ascii_dec x y); [|reflexivity]. now apply IH.
Qed.

Lemma contains_across (c : ascii) (needle : string) :
  mem c needle = false ->
  forall a b,
    contains needle (a ++ String c b)
    = contains needle a || contains needle (String c b).
Proof.
  intros Hc a b. induction a as [|y a IH].
  - cbn [String.append]. now destruct needle.
  - change (String y a ++ String c b)%string with (String y (a ++ String c b)).
    cbn [contains]. rewrite IH.
    change (String y (a ++ String c b)) with (String y a ++ String c b)%string.
    rewrite (prefix_before c needle Hc). now rewrite orb_assoc.
Qed.

Section Collected.
Variable temp_path : string.
Hypothesis no_livy : contains "livy_logs" temp_path = false.
Hypothesis no_stdout : contains "stdout" temp_path = false.
Hypothesis no_stderr : contains "stderr" temp_path = false.

Lemma log_type_in_dir (name : string) :
  log_type_of (in_dir temp_path name) = log_type_of (String "/" name).
Proof.
  unfold log_type_of, in_dir. cbn [String.append].
  rewrite !(contains_across "/") by reflexivity.
  now rewrite no_livy, no_stdout, no_stderr.
Qed.

End Collected.

(** X16. The files the collector lists for a session are analysed under their
    own log types, provided the temporary directory does not itself spell
    one of the three marks: each downloaded file is analysed and kept, in
    the order livy, stdout, stderr. *)
Theorem collected_logs_keep_their_types {checks : UrlChecks} (w : world)
    (domains : list string) (temp_path : string)
    (livy_status stdout_status stderr_status : nat)
    (fields : list (string * json)) :
  contains "livy_logs" temp_path = false ->
  contains "stdout" temp_path = false ->
  contains "stderr" temp_path = false ->
  dict_get "downloaded_files" fields
  = Some (JArr (map JStr (logs_downloaded temp_path livy_status stdout_status
                            stderr_status))) ->
  exists r,
    analyze_session w domains (JObj fields) = Ok r /\
    log_analyses r
    = (if livy_status =? 200
       then [("livy", analyze_single_log_file domains (log_files w)
                        (in_dir temp_path "livy_logs.txt"))]
       else [])
      ++ (if stdout_status =? 200
          then [("stdout", analyze_single_log_file domains (log_files w)
                             (in_dir temp_path "driver_stdout.log"))]
          else [])
      ++ (if stderr_status =? 200
          then [("stderr", analyze_single_log_file domains (log_files w)
                             (in_dir temp_path "driver_stderr.log"))]
          else []).
Proof.
  intros Hl Ho He Hfiles. unfold analyze_session. cbn [get_default bind].
  rewrite Hfiles. cbn [py_iter bind]. unfold logs_downloaded.
  destruct (livy_status =? 200), (stdout_status =? 200), (stderr_status =? 200);
    cbn [app map analyze_files];
    rewrite ?(log_type_in_dir temp_path Hl Ho He);
    eexists; (split; [reflexivity|]); reflexivity.
Qed.

Lemma collected_logs_keep_their_types_witness :
  exists r,
    @analyze_session accept_all collected_world DEFAULT_TRUSTED_DOMAINS
      (JObj [("livy_id", JStr "7");
             ("downloaded_files",
              JArr (map JStr (logs_downloaded "/tmp/spark_logs_7_x" 200 404 200)))])
    = Ok r /\
    log_analyses r
    = [("livy", @analyze_single_log_file accept_all DEFAULT_TRUSTED_DOMAINS
                  collected_fs (in_dir "/tmp/spark_logs_7_x" "livy_logs.txt"))]
      ++ []
      ++ [("stderr", @analyze_single_log_file accept_all DEFAULT_TRUSTED_DOMAINS
                       collected_fs (in_dir "/tmp/spark_logs_7_x" "driver_stderr.log"))].
Proof.
  apply (@collected_logs_keep_their_types accept_all collected_world
           DEFAULT_TRUSTED_DOMAINS "/tmp/spark_logs_7_x" 200 404 200
           [("livy_id", JStr "7");
            ("downloaded_files",
             JArr (map JStr (logs_downloaded "/tmp/spark_logs_7_x" 200 404 200)))]).
  - vm_compute. reflexivity.
  - vm_compute. reflexivity.
  - vm_compute. reflexivity.
  - reflexivity.
Defined.

(** ** What follows the host in a captured text *)

Lemma last_char_cons (c d : ascii) (s : string) :
  last_char (String c (String d s)) = last_char (String d s).
Proof.
  unfold last_char. cbn [list_ascii_of_string rev].
  destruct (rev (list_ascii_of_string s) ++ [d]) as [|x l] eqn:E; [|reflexivity].
  now destruct (rev (list_ascii_of_string s)).
Qed.

Lemma rstrip_last (p : ascii -> bool) (s : string) (c : ascii) :
  last_char s = Some c -> p c = false -> rstrip p s = s.
Proof.
  induction s as [|y s IH]; [reflexivity|]. intros Hlast Hc.
  destruct s as [|d s].
  - cbn in Hlast. injection Hlast as ->. cbn. now rewrite Hc.
  - rewrite last_char_cons in Hlast. cbn [rstrip]. cbn [rstrip] in IH.
    rewrite (IH Hlast Hc). reflexivity.
Qed.

Lemma rstrip_app (p : ascii -> bool) (a b : string) :
  rstrip p b <> "" -> rstrip p (a ++ b) = (a ++ rstrip p b)%string.
Proof.
  intros Hb. induction a as [|y a IH]; [reflexivity|].
  cbn [String.append rstrip]. rewrite IH.
  destruct (a ++ rstrip p b)%string eqn:E; [|reflexivity].
  destruct a; [cbn in E; congruence|discriminate E].
Qed.

Lemma rstrip_head (p : ascii -> bool) (c : ascii) (t : string) :
  p c = false -> exists t', rstrip p (String c t) = String c t'.
Proof.
  intros Hc. cbn [rstrip]. destruct (rstrip p t); rewrite ?Hc; eauto.
Qed.

Lemma rstrip_is_prefix (p : ascii -> bool) (s : string) :
  exists u, s = (rstrip p s ++ u)%string.
Proof.
  induction s as [|c s [u Hu]]; [now exists ""|].
  cbn [rstrip]. destruct (rstrip p s) as [|d r].
  - destruct (p c); [now exists (String c s)|].
    exists s. reflexivity.
  - exists u. cbn [String.append]. cbn [String.append] in Hu. congruence.
Qed.

Lemma prefix_app_r (needle a b : string) :
  prefix needle a = true -> prefix needle (a ++ b) = true.
Proof.
  revert a; induction needle as [|x needle IH]; intros a;
    [intros _; now destruct (a ++ b)%string|].
  destruct a as [|y a]; cbn [prefix String.append]; [discriminate|].
  destruct (ascii_dec x y); [apply IH|discriminate].
Qed.

Lemma contains_app_r (needle a b : string) :
  contains needle a = true -> contains needle (a ++ b) = true.
Proof.
  induction a as [|y a IH]; cbn [contains String.append].
  - rewrite orb_false_r. intros H. destruct needle; [|discriminate H].
    now destruct b.
  - intros [H|H]%orb_prop.
    + change (String y (a ++ b)) with (String y a ++ b)%string.
      now rewrite (prefix_app_r _ _ b H).
    + rewrite (IH H). apply orb_true_r.
Qed.

Lemma contains_at (c : ascii) (a b : string) :
  contains (String c "") (a ++ String c b) = true.
Proof.
  induction a as [|y a IH]; cbn [String.append contains prefix].
  - destruct (ascii_dec c c); [now destruct b|congruence].
  - cbn [String.append] in IH. rewrite IH. apply orb_true_r.
Qed.

Lemma split_from_head (c : ascii) (t : string) :
  split_from (String c "") (String c t) 0 = "" :: split_from (String c "") t 0.
Proof.
  cbn [split_from prefix String.length Nat.sub].
  destruct (ascii_dec c c); [now destruct t|congruence].
Qed.

Lemma split_from_other (c y : ascii) (t : string) :
  y <> c ->
  exists piece rest,
    split_from (String c "") t 0 = piece :: rest /\
    split_from (String c "") (String y t) 0 = String y piece :: rest.
Proof.
  intros Hy. cbn [split_from prefix].
  destruct (ascii_dec c y) as [->|_]; [congruence|].
  destruct (split_from (String c "") t 0) as [|piece rest] eqn:E.
  - now apply split_from_nonempty in E.
  - now exists piece, rest.
Qed.

Lemma split_from_app (c : ascii) (a b : string) :
  PyStr.forallb (fun y => negb (Ascii.eqb y c)) a = true ->
  exists piece rest,
    split_from (String c "") b 0 = piece :: rest /\
    split_from (String c "") (a ++ b) 0 = (a ++ piece)%string :: rest.
Proof.
  induction a as [|y a IH]; cbn [PyStr.forallb String.append].
  - intros _. destruct (split_from (String c "") b 0) as [|piece rest] eqn:E.
    + now apply split_from_nonempty in E.
    + now exists piece, rest.
  - intros [Hy Ha]%andb_prop. destruct (IH Ha) as (piece & rest & Hb & Hab).
    apply negb_true_iff, Ascii.eqb_neq in Hy.
    destruct (split_from_other c y (a ++ b) Hy) as (piece' & rest' & H1 & H2).
    rewrite Hab in H1. injection H1 as <- <-.
    exists piece, rest. split; [exact Hb|exact H2].
Qed.

Lemma first_piece (c : ascii) (a b : string) :
  PyStr.forallb (fun y => negb (Ascii.eqb y c)) a = true ->
  item_first (split (String c "") (a ++ String c b)) = Ok a.
Proof.
  intros Ha. unfold split.
  destruct (split_from_app c a (String c b) Ha) as (piece & rest & Hb & ->).
  rewrite split_from_head in Hb. injection Hb as <- _.
  cbn [item_first]. f_equal. induction a as [|y a IH]; [reflexivity|].
  cbn [String.append]. f_equal. apply IH.
  cbn [PyStr.forallb] in Ha. now apply andb_prop in Ha as [_ Ha].
Qed.

Lemma bare_no (h : string) (c : ascii) :
  mem c "/?:" = true ->
  PyStr.forallb (fun c => negb (mem c "/?:")) h = true ->
  PyStr.forallb (fun y => negb (Ascii.eqb y c)) h = true.
Proof.
  intros Hc. apply forallb_impl. intros y Hy.
  apply negb_true_iff. apply negb_true_iff in Hy.
  destruct (Ascii.eqb_spec y c) as [->|]; [congruence|reflexivity].
Qed.

Lemma forallb_no_contains (h : string) (c : ascii) (rest : string) :
  PyStr.forallb (fun y => negb (Ascii.eqb y c)) h = true ->
  contains (String c rest) h = false.
Proof.
  intros H. apply (contains_head_absent (fun y => negb (Ascii.eqb y c)) c rest h H).
  now rewrite Ascii.eqb_refl.
Qed.

Lemma append_empty (s : string) : (s ++ "")%string = s.
Proof. induction s as [|c s IH]; cbn; congruence. Qed.

Section BareHosts.
Context {checks : UrlChecks}.
Variable h : string.
Hypothesis bare_h : bare h = true.

Lemma bare_parts :
  PyStr.forallb (fun c => negb (mem c "/?:")) h = true /\
  (exists c s, h = String c s /\ mem c punctuation_dot = false) /\
  (exists c, last_char h = Some c /\ mem c punctuation_dot = false).
Proof.
  unfold bare in bare_h. apply andb_prop in bare_h as [[H1 H2]%andb_prop H3].
  split; [exact H1|]. split.
  - destruct h as [|c s]; [discriminate|]. exists c, s.
    split; [reflexivity|now apply negb_true_iff].
  - destruct (last_char h) as [c|]; [|discriminate]. exists c.
    split; [reflexivity|now apply negb_true_iff].
Qed.

Lemma not_punct (c : ascii) :
  mem c punctuation_dot = false -> mem c punctuation = false.
Proof. intros H. apply negb_true_iff, punct_in_punct_dot, negb_true_iff, H. Qed.

Lemma bare_lstrip (chars t : string) :
  chars = punctuation \/ chars = punctuation_dot ->
  lstrip (fun c => mem c chars) (h ++ t) = (h ++ t)%string.
Proof.
  intros Hchars. destruct bare_parts as (_ & (c & s & -> & Hc) & _).
  cbn [String.append lstrip].
  now destruct Hchars as [-> | ->]; rewrite ?Hc, ?(not_punct c Hc).
Qed.

Lemma bare_strip (chars : string) :
  chars = punctuation \/ chars = punctuation_dot -> strip_chars chars h = h.
Proof.
  intros Hchars. destruct bare_parts as (_ & _ & (d & Hlast & Hd)).
  unfold strip_chars, strip.
  pose proof (bare_lstrip chars "" Hchars) as Hl. rewrite append_empty in Hl.
  rewrite Hl. apply (rstrip_last _ h d Hlast).
  destruct Hchars as [-> | ->]; auto using not_punct.
Qed.

Lemma bare_strip_tail (c : ascii) (rest t : string) :
  rstrip (fun y => mem y punctuation) (String c rest) = String c t ->
  strip_chars punctuation (h ++ String c rest) = (h ++ String c t)%string.
Proof.
  intros Ht. unfold strip_chars, strip.
  rewrite (bare_lstrip punctuation _ (or_introl eq_refl)).
  rewrite rstrip_app; rewrite Ht; [reflexivity|discriminate].
Qed.

(** The last three steps of the manual extraction leave a bare host alone. *)
Lemma bare_rest :
  (s1 <- (if contains "?" h then item_first (split "?" h) else Ok h) ;;
   s2 <- (if contains ":" s1 && negb (1 <? count ":" s1)
          then item_first (split ":" s1) else Ok s1) ;;
   Ok (strip_chars punctuation_dot s2))
  = Ok h.
Proof.
  destruct bare_parts as (Hin & _ & _).
  rewrite (forallb_no_contains h "?" "") by (apply bare_no; [reflexivity|exact Hin]).
  cbn [bind].
  rewrite (forallb_no_contains h ":" "") by (apply bare_no; [reflexivity|exact Hin]).
  cbn [andb bind].
  now rewrite (bare_strip punctuation_dot (or_intror eq_refl)).
Qed.

(** So they do after a query was cut off. *)
Lemma bare_query (t : string) :
  (s1 <- (if contains "?" (h ++ String "?" t)
          then item_first (split "?" (h ++ String "?" t))
          else Ok (h ++ String "?" t)%string) ;;
   s2 <- (if contains ":" s1 && negb (1 <? count ":" s1)
          then item_first (split ":" s1) else Ok s1) ;;
   Ok (strip_chars punctuation_dot s2))
  = Ok h.
Proof.
  destruct bare_parts as (Hin & _ & _).
  rewrite contains_at.
  rewrite first_piece by (apply bare_no; [reflexivity|exact Hin]).
  cbn [bind].
  rewrite (forallb_no_contains h ":" "") by (apply bare_no; [reflexivity|exact Hin]).
  cbn [andb bind].
  now rewrite (bare_strip punctuation_dot (or_intror eq_refl)).
Qed.

Lemma bare_fixed : _extract_hostname h = Ok h.
Proof.
  destruct bare_parts as (Hin & (c & s & Hh & Hc) & _).
  unfold _extract_hostname.
  destruct (String.eqb_spec h "") as [E|_]; [congruence|].
  rewrite (bare_strip punctuation (or_introl eq_refl)).
  rewrite (forallb_no_contains h ":" "//") by (apply bare_no; [reflexivity|exact Hin]).
  rewrite (forallb_no_contains h "/" "") by (apply bare_no; [reflexivity|exact Hin]).
  cbn [bind]. exact bare_rest.
Qed.

Lemma bare_tail (c : ascii) (rest : string) :
  c = "/"%char \/ c = "?"%char ->
  contains "://" (h ++ String c rest) = false ->
  _extract_hostname (h ++ String c rest) = Ok h.
Proof.
  intros Hc Hurl.
  destruct bare_parts as (Hin & (x & s & Hh & Hx) & _).
  assert (Hpc : mem c punctuation = false) by (destruct Hc as [-> | ->]; reflexivity).
  destruct (rstrip_head (fun y => mem y punctuation) c rest Hpc) as [t Ht].
  unfold _extract_hostname.
  destruct (String.eqb_spec (h ++ String c rest) "") as [E|_].
  { rewrite Hh in E. discriminate E. }
  rewrite (bare_strip_tail c rest t Ht).
  assert (Hurl' : contains "://" (h ++ String c t) = false).
  { destruct (contains "://" (h ++ String c t)) eqn:E; [|reflexivity].
    destruct (rstrip_is_prefix (fun y => mem y punctuation) (String c rest)) as [u Hu].
    rewrite Ht in Hu.
    assert (Hs : ((h ++ String c t) ++ u)%string = (h ++ String c rest)%string).
    { rewrite Hu. clear. induction h as [|y a IH]; cbn; [reflexivity|]. now rewrite IH. }
    rewrite <- Hs, (contains_app_r _ _ u E) in Hurl. discriminate Hurl. }
  rewrite Hurl'.
  destruct Hc as [-> | ->].
  - rewrite contains_at.
    rewrite first_piece by (apply bare_no; [reflexivity|exact Hin]).
    cbn [bind]. exact bare_rest.
  - destruct (contains "/" (h ++ String "?" t)) eqn:Hslash.
    + unfold split at 1.
      destruct (split_from_app "/" h (String "?" t)) as (piece & ps & Hb & ->);
        [apply bare_no; [reflexivity|exact Hin]|].
      destruct (split_from_other "/" "?" t) as (piece' & ps' & _ & H2); [discriminate|].
      rewrite H2 in Hb. injection Hb as <- _.
      cbn [item_first bind]. apply bare_query.
    + cbn [bind]. apply bare_query.
Qed.

End BareHosts.

(** X17. The normalizer cuts a path or a query off a bare host name, so that the
    verdict on a host captured together with its path (as the pattern for
    [https?://] captures it) is the verdict on the host alone. *)
Theorem path_and_query_do_not_count {checks : UrlChecks} (domains : list string)
    (h : string) (c : ascii) (rest : string) :
  bare h = true ->
  c = "/"%char \/ c = "?"%char ->
  contains "://" (h ++ String c rest) = false ->
  _extract_hostname (h ++ String c rest) = Ok h /\
  _extract_hostname h = Ok h /\
  is_trusted_host domains (h ++ String c rest) = is_trusted_host domains h.
Proof.
  intros Hh Hc Hurl.
  pose proof (bare_tail h Hh c rest Hc Hurl) as H1.
  pose proof (bare_fixed h Hh) as H2.
  repeat split; auto. unfold is_trusted_host. now rewrite H1, H2.
Qed.

Lemma path_and_query_do_not_count_witness :
  @is_trusted_host accept_all DEFAULT_TRUSTED_DOMAINS
    "api.fabric.microsoft.com/v1/workspaces?top=5"
  = @is_trusted_host accept_all DEFAULT_TRUSTED_DOMAINS "api.fabric.microsoft.com".
Proof.
  apply (@path_and_query_do_not_count accept_all DEFAULT_TRUSTED_DOMAINS
           "api.fabric.microsoft.com" "/" "v1/workspaces?top=5").
  - vm_compute. reflexivity.
  - left. reflexivity.
  - vm_compute. reflexivity.
Defined.

(** ** Upper and lower case *)

Lemma to_lower_idem (c : ascii) : to_lower (to_lower c) = to_lower c.
Proof. by_chars c. Qed.

Lemma to_lower_separator (c : ascii) :
  negb (mem c "/?:") = true -> negb (mem (to_lower c) "/?:") = true.
Proof. by_chars c. Qed.

Lemma to_lower_punct (c : ascii) :
  negb (mem c punctuation_dot) = true -> negb (mem (to_lower c) punctuation_dot) = true.
Proof. by_chars c. Qed.

Lemma lower_lower (s : string) : lower (lower s) = lower s.
Proof.
  induction s as [|c s IH]; [reflexivity|]. cbn [lower].
  now rewrite to_lower_idem, IH.
Qed.

Lemma last_char_lower (s : string) :
  last_char (lower s) = option_map to_lower (last_char s).
Proof.
  induction s as [|c s IH]; [reflexivity|].
  destruct s as [|d s]; [reflexivity|].
  cbn [lower]. cbn [lower] in IH. now rewrite !last_char_cons.
Qed.

Lemma no_separator_lower (s : string) :
  PyStr.forallb (fun c => negb (mem c "/?:")) s = true ->
  PyStr.forallb (fun c => negb (mem c "/?:")) (lower s) = true.
Proof.
  induction s as [|x s IH]; [reflexivity|]. cbn [lower PyStr.forallb].
  intros [Hx Hs]%andb_prop. now rewrite (to_lower_separator x Hx), IH.
Qed.

Lemma bare_lower (h : string) : bare h = true -> bare (lower h) = true.
Proof.
  unfold bare. intros [[H1 H2]%andb_prop H3]%andb_prop.
  rewrite last_char_lower, (no_separator_lower h H1).
  destruct (last_char h) as [d|]; [|discriminate]. cbn [option_map].
  rewrite (to_lower_punct d H3), andb_true_r.
  destruct h as [|c s]; [discriminate|]. cbn [lower].
  now rewrite (to_lower_punct c H2).
Qed.

(** X18. The verdict on a bare host name does not depend on its case. *)
Theorem verdict_ignores_case {checks : UrlChecks} (domains : list string)
    (h : string) :
  bare h = true ->
  is_trusted_host domains (lower h) = is_trusted_host domains h.
Proof.
  intros Hh. unfold is_trusted_host.
  rewrite (bare_fixed (lower h) (bare_lower h Hh)), (bare_fixed h Hh). cbn [bind].
  rewrite lower_lower.
  destruct h as [|c s]; [discriminate Hh|]. reflexivity.
Qed.

Lemma verdict_ignores_case_witness :
  @is_trusted_host accept_all DEFAULT_TRUSTED_DOMAINS (lower "API.Fabric.Microsoft.com")
  = @is_trusted_host accept_all DEFAULT_TRUSTED_DOMAINS "API.Fabric.Microsoft.com".
Proof.
  apply (@verdict_ignores_case accept_all DEFAULT_TRUSTED_DOMAINS
           "API.Fabric.Microsoft.com").
  vm_compute. reflexivity.
Defined.

(** ** The override for lines with a workspace URL *)

(** X19. On a line that holds an ABFS URL with a workspace UUID every recorded
    connection is trusted, whatever its host: all records of that line are
    in [trusted_connections] and none is in [external_connections]. *)
Theorem workspace_url_trusts_whole_line {checks : UrlChecks}
    (domains : list string) (fs : filesystem) (path : string)
    (i : nat) (line : string) (c : connection_info) :
  nth_error (lines_read (fs path)) i = Some line ->
  workspace_abfs_line line = true ->
  In c (connections (analyze_single_log_file domains fs path)) ->
  line_number c = S i ->
  In c (trusted_connections (analyze_single_log_file domains fs path)) /\
  ~ In c (external_connections (analyze_single_log_file domains fs path)).
Proof.
  intros Hline Hws Hc Hn. rewrite analyze_single_log_file_full in *.
  cbn [connections trusted_connections external_connections] in *.
  assert (Htrue : forall b, In (c, b) (file_records domains 1 (lines_read (fs path))) ->
                            b = true).
  { intros b (j & line' & Hj & Hin)%in_file_records.
    apply in_line_records in Hin as (p & m & _ & _ & Hcj & ->).
    assert (j = i) as ->.
    { rewrite Hcj in Hn. cbn [line_number connection_of] in Hn. lia. }
    assert (line' = line) as -> by congruence.
    unfold verdict, trust_decision. now rewrite Hws. }
  split.
  - apply in_map_iff in Hc as ([c' b] & Hfst & Hin). cbn [fst] in Hfst. subst c'.
    apply in_map_iff. exists (c, b). split; [reflexivity|].
    apply filter_In. split; [exact Hin|]. cbn [snd]. exact (Htrue b Hin).
  - intros ([c' b] & Hfst & [Hin Hext]%filter_In)%in_map_iff.
    cbn [fst] in Hfst. subst c'. unfold is_external in Hext. cbn [snd] in Hext.
    rewrite (Htrue b Hin) in Hext. discriminate Hext.
Qed.

Lemma workspace_url_trusts_whole_line_witness :
  In (connection_of 1 mixed_line connecting_pattern
        (the_match connecting_pattern mixed_line))
     (trusted_connections
        (@analyze_single_log_file accept_all DEFAULT_TRUSTED_DOMAINS
           (single_file "logs/stderr" (text_file [mixed_line])) "logs/stderr")) /\
  ~ In (connection_of 1 mixed_line connecting_pattern
          (the_match connecting_pattern mixed_line))
       (external_connections
          (@analyze_single_log_file accept_all DEFAULT_TRUSTED_DOMAINS
             (single_file "logs/stderr" (text_file [mixed_line])) "logs/stderr")).
Proof.
  apply (@workspace_url_trusts_whole_line accept_all DEFAULT_TRUSTED_DOMAINS
           (single_file "logs/stderr" (text_file [mixed_line])) "logs/stderr"
           0 mixed_line).
  - reflexivity.
  - vm_compute. reflexivity.
  - vm_compute. left. reflexivity.
  - reflexivity.
Defined.
